(** * hiring-manager: the question validator and the scoring engine

    A shallow embedding of [validateQuestion] and [calculateScore] from
    [src/app.ts], together with the part of the JavaScript runtime the two
    functions rely on (truthiness, strict equality, [Number(...)], [Set],
    [String.prototype.trim], [toLowerCase] and [includes]).

    Modelling conventions.
    - A JavaScript number is [NaN], one of the two infinities, or a finite
      value carried as an exact rational.  The arithmetic of the model is
      exact, where the runtime rounds the result of every operation to
      binary64 and can overflow or underflow.  A theorem below therefore
      says of a computed number which expression of the runtime's
      operations yields it, taken in the order in which the code applies
      them, or states an order or an equality that operations rounded to
      the nearest value keep as well as exact ones do.
    - A string is a sequence of code units in the range U+0000..U+00FF.
    - An optional field of a question is [undefined] (the key is missing),
      [null], or a value of the type that [types.ts] declares for it.
    - An answer is any JSON value: [null], a boolean, a number, a string,
      an array or an object with string keys; [undefined] stands for a
      missing [value].  No JSON value is callable, so an object that
      carries a key [toString] of its own cannot be converted to a
      primitive: the conversion throws a [TypeError], the one exception
      that the two functions can raise on such inputs.
    - Arrays and objects are compared by reference in JavaScript; every
      array or object met here is a distinct one, so such a comparison is
      always [false]. *)

From Stdlib Require Import QArith ZArith String Ascii List Bool Lia.
From Stdlib Require Import Qround DecimalString Permutation Sorted Lqa.
From stdpp Require Import base list strings gmap.
Import ListNotations.

Local Open Scope string_scope.
Local Open Scope list_scope.

(** ** The JavaScript runtime, as far as [app.ts] uses it *)

Module Js.

(** *** Numbers *)

Inductive number : Type :=
| NaN
| PosInf
| NegInf
| Fin (x : Q).

Definition ofNat (n : nat) : number := Fin (inject_Z (Z.of_nat n)).

Definition zero : number := Fin 0.

Definition isNaN (n : number) : bool :=
  match n with NaN => true | _ => false end.

(** [a <= b]; every comparison with [NaN] is [false]. *)
Definition le (a b : number) : bool :=
  match a, b with
  | NaN, _ | _, NaN => false
  | NegInf, _ => true
  | _, PosInf => true
  | PosInf, _ => false
  | _, NegInf => false
  | Fin x, Fin y => Qle_bool x y
  end.

(** [a < b]. *)
Definition lt (a b : number) : bool :=
  match a, b with
  | NaN, _ | _, NaN => false
  | PosInf, _ => false
  | _, NegInf => false
  | NegInf, _ => true
  | _, PosInf => true
  | Fin x, Fin y => negb (Qle_bool y x)
  end.

(** [a >= b] and [a > b]. *)
Definition ge (a b : number) : bool := le b a.
Definition gt (a b : number) : bool := lt b a.

(** The infinity with the sign of [x], or [NaN] when [x] is zero. *)
Definition infTimes (positive : bool) (x : Q) : number :=
  if Qeq_bool x 0 then NaN
  else if Bool.eqb positive (Qle_bool 0 x) then PosInf else NegInf.

(** [a * b]. *)
Definition mul (a b : number) : number :=
  match a, b with
  | NaN, _ | _, NaN => NaN
  | Fin x, Fin y => Fin (x * y)
  | PosInf, Fin x | Fin x, PosInf => infTimes true x
  | NegInf, Fin x | Fin x, NegInf => infTimes false x
  | PosInf, PosInf | NegInf, NegInf => PosInf
  | PosInf, NegInf | NegInf, PosInf => NegInf
  end.

(** [a / b]; a zero divisor is the positive zero. *)
Definition div (a b : number) : number :=
  match a, b with
  | NaN, _ | _, NaN => NaN
  | Fin x, Fin y =>
      if Qeq_bool y 0 then infTimes true x else Fin (x / y)
  | Fin _, (PosInf | NegInf) => Fin 0
  | PosInf, Fin y => if Qle_bool 0 y then PosInf else NegInf
  | NegInf, Fin y => if Qle_bool 0 y then NegInf else PosInf
  | (PosInf | NegInf), (PosInf | NegInf) => NaN
  end.

(** Equality of numbers as values ([===], so [NaN] differs from itself). *)
Definition numStrictEq (a b : number) : bool :=
  match a, b with
  | PosInf, PosInf | NegInf, NegInf => true
  | Fin x, Fin y => Qeq_bool x y
  | _, _ => false
  end.

(** The same number, as a relation: [NaN] is the same as [NaN], finite
    values are compared as rationals. *)
Definition sameNumber (a b : number) : Prop :=
  match a, b with
  | NaN, NaN | PosInf, PosInf | NegInf, NegInf => True
  | Fin x, Fin y => (x == y)%Q
  | _, _ => False
  end.

(** *** Optional fields and values *)

Inductive optional (A : Type) : Type :=
| undefined
| null
| defined (a : A).
Arguments undefined {A}.
Arguments null {A}.
Arguments defined {A} a.

#[warnings="-register-all"]
Inductive value : Type :=
| VUndefined
| VNull
| VBoolean (b : bool)
| VNumber (n : number)
| VString (s : string)
| VArray (elems : list value)
| VObject (props : list (string * value)).

(** The outcome of an evaluation: a result, or a thrown [TypeError]. *)
Inductive completion (A : Type) : Type :=
| Normal (a : A)
| TypeError.
Arguments Normal {A} a.
Arguments TypeError {A}.

Definition bind {A B : Type} (c : completion A) (k : A -> completion B)
  : completion B :=
  match c with
  | Normal a => k a
  | TypeError => TypeError
  end.

Definition ofOptional {A : Type} (inj : A -> value) (o : optional A) : value :=
  match o with
  | undefined => VUndefined
  | null => VNull
  | defined a => inj a
  end.

(** [o || d] for an optional array: an array is always truthy. *)
Definition orElse {A : Type} (o : optional A) (d : A) : A :=
  match o with defined a => a | _ => d end.

(** [o ?? d]. *)
Definition nullish {A : Type} (o : optional A) (d : A) : A :=
  match o with defined a => a | _ => d end.

(** Truthiness of a number and of a string. *)
Definition truthyNumber (n : number) : bool :=
  match n with
  | NaN => false
  | Fin x => negb (Qeq_bool x 0)
  | _ => true
  end.

Definition truthyString (s : string) : bool :=
  negb (String.eqb s "").

(** [!o] for an optional string. *)
Definition notString (o : optional string) : bool :=
  match o with defined s => negb (truthyString s) | _ => true end.

(** [a === b]. *)
Definition strictEq (a b : value) : bool :=
  match a, b with
  | VUndefined, VUndefined => true
  | VNull, VNull => true
  | VBoolean x, VBoolean y => Bool.eqb x y
  | VNumber x, VNumber y => numStrictEq x y
  | VString x, VString y => String.eqb x y
  | _, _ => false
  end.

(** SameValueZero, the equality of [Set]: as [===], but [NaN] equals
    [NaN]. *)
Definition sameValueZero (a b : value) : bool :=
  match a, b with
  | VNumber NaN, VNumber NaN => true
  | _, _ => strictEq a b
  end.

(** *** Strings *)

Definition codeOf (c : ascii) : Z := Z.of_nat (nat_of_ascii c).

(** White space and line terminators: TAB, LF, VT, FF, CR, SP, NBSP. *)
Definition isWhiteSpace (c : ascii) : bool :=
  let n := codeOf c in
  ((9 <=? n) && (n <=? 13) || (n =? 32) || (n =? 160))%Z.

Fixpoint trimStart (s : string) : string :=
  match s with
  | String c s' => if isWhiteSpace c then trimStart s' else s
  | EmptyString => EmptyString
  end.

Fixpoint trimEnd (s : string) : string :=
  match s with
  | String c s' =>
      let t := trimEnd s' in
      if isWhiteSpace c && String.eqb t "" then "" else String c t
  | EmptyString => EmptyString
  end.

(** [s.trim()]. *)
Definition trim (s : string) : string := trimEnd (trimStart s).

(** Lower case of one code unit: A-Z, and the Latin-1 capitals
    U+00C0..U+00DE but for the multiplication sign U+00D7. *)
Definition lowerChar (c : ascii) : ascii :=
  let n := codeOf c in
  if ((65 <=? n) && (n <=? 90)
      || (192 <=? n) && (n <=? 222) && negb (n =? 215))%Z
  then ascii_of_nat (nat_of_ascii c + 32)
  else c.

(** [s.toLowerCase()]. *)
Fixpoint toLowerCase (s : string) : string :=
  match s with
  | String c s' => String (lowerChar c) (toLowerCase s')
  | EmptyString => EmptyString
  end.

(** [s.includes(t)]: [t] occurs in [s] as a substring. *)
Fixpoint stringIncludes (s t : string) : bool :=
  String.prefix t s
  || match s with
     | String _ s' => stringIncludes s' t
     | EmptyString => false
     end.

(** *** [Number(...)] *)

Definition digitOf (base : Z) (c : ascii) : option Z :=
  let n := codeOf c in
  let d := (if (48 <=? n) && (n <=? 57) then Some (n - 48)
            else if (97 <=? n) && (n <=? 102) then Some (n - 87)
            else if (65 <=? n) && (n <=? 70) then Some (n - 55)
            else None)%Z in
  match d with
  | Some v => if (v <? base)%Z then Some v else None
  | None => None
  end.

(** Reads the longest run of digits at the head of [s]: the value read on
    top of [acc], how many digits were read, and what follows them. *)
Fixpoint readDigits (base : Z) (s : string) (acc : Z) (count : nat)
  : Z * nat * string :=
  match s with
  | String c s' =>
      match digitOf base c with
      | Some d => readDigits base s' (acc * base + d)%Z (S count)
      | None => (acc, count, s)
      end
  | EmptyString => (acc, count, s)
  end.

(** The exponent part, which has to end the literal; no exponent is 0. *)
Definition readExponent (s : string) : option Z :=
  match s with
  | EmptyString => Some 0%Z
  | String c s' =>
      if Ascii.eqb c "e" || Ascii.eqb c "E" then
        let '(negative, s'') :=
          match s' with
          | String "+" r => (false, r)
          | String "-" r => (true, r)
          | _ => (false, s')
          end in
        let '(e, n, rest) := readDigits 10 s'' 0 0 in
        if Nat.eqb n 0 || negb (String.eqb rest "") then None
        else Some (if negative then (- e)%Z else e)
      else None
  end.

(** [Infinity], or digits with an optional fraction and exponent. *)
Definition unsignedDecimal (s : string) : option number :=
  if String.eqb s "Infinity" then Some PosInf
  else
    let '(i, ni, r1) := readDigits 10 s 0 0 in
    let '(f, nf, r2) :=
      match r1 with
      | String "." r => readDigits 10 r 0 0
      | _ => (0%Z, 0%nat, r1)
      end in
    if Nat.eqb (ni + nf) 0 then None
    else
      match readExponent r2 with
      | Some e =>
          Some (Fin ((inject_Z i + inject_Z f / inject_Z (10 ^ Z.of_nat nf))
                     * inject_Z 10 ^ e)%Q)
      | None => None
      end.

Definition negate (n : number) : number :=
  match n with
  | NaN => NaN
  | PosInf => NegInf
  | NegInf => PosInf
  | Fin x => Fin (- x)
  end.

Definition strDecimalLiteral (s : string) : option number :=
  match s with
  | String "+" r => unsignedDecimal r
  | String "-" r => option_map negate (unsignedDecimal r)
  | _ => unsignedDecimal s
  end.

(** [0x], [0o] and [0b] integers; these take no sign. *)
Definition nonDecimalLiteral (s : string) : option number :=
  match s with
  | String "0" (String p r) =>
      let base :=
        if Ascii.eqb p "x" || Ascii.eqb p "X" then Some 16%Z
        else if Ascii.eqb p "o" || Ascii.eqb p "O" then Some 8%Z
        else if Ascii.eqb p "b" || Ascii.eqb p "B" then Some 2%Z
        else None in
      match base with
      | Some b =>
          let '(v, n, rest) := readDigits b r 0 0 in
          if Nat.eqb n 0 || negb (String.eqb rest "") then None
          else Some (Fin (inject_Z v))
      | None => None
      end
  | _ => None
  end.

(** [Number(s)] for a string: white space is trimmed, the empty string is
    0, a numeric literal is its value, anything else is [NaN]. *)
Definition StringToNumber (s : string) : number :=
  let t := trim s in
  if String.eqb t "" then Fin 0
  else
    match nonDecimalLiteral t with
    | Some n => n
    | None =>
        match strDecimalLiteral t with
        | Some n => n
        | None => NaN
        end
    end.

(** [obj.hasOwnProperty(key)]. *)
Definition hasOwn (key : string) (props : list (string * value)) : bool :=
  existsb (fun kv => String.eqb (fst kv) key) props.

(** [String(v)] throws a [TypeError]: the object has a [toString] of its
    own, which is not callable and hides [Object.prototype.toString],
    while [valueOf] gives no primitive; or the array, which is joined,
    holds such an element. *)
Fixpoint throwsToString (v : value) : bool :=
  match v with
  | VObject props => hasOwn "toString" props
  | VArray elems => existsb throwsToString elems
  | _ => false
  end.

(** The number that [Number(v)] gives when the conversion to a primitive
    completes.  An array is first joined into a string: the empty array
    gives the empty string, an array of one element the string of that
    element (empty for [undefined] and [null]), and a longer array a
    string with a comma, which is no numeric literal.  An object gives
    the string [[object Object]], hence [NaN]. *)
Fixpoint numberOf (v : value) : number :=
  match v with
  | VUndefined => NaN
  | VNull => Fin 0
  | VBoolean b => if b then Fin 1 else Fin 0
  | VNumber n => n
  | VString s => StringToNumber s
  | VArray elems =>
      match elems with
      | [] => Fin 0
      | [x] =>
          match x with
          | VUndefined | VNull => Fin 0
          | VBoolean _ | VObject _ => NaN
          | VNumber _ | VString _ | VArray _ => numberOf x
          end
      | _ => NaN
      end
  | VObject _ => NaN
  end.

(** [Number(v)]. *)
Definition ToNumber (v : value) : completion number :=
  if throwsToString v then TypeError else Normal (numberOf v).

(** [typeof v === 'string'] and [Array.isArray(v)] are the pattern matches
    on [VString] and [VArray]. *)

(** *** Arrays and sets *)

(** [arr.includes(x)] on an array of strings. *)
Definition includes (arr : list string) (x : string) : bool :=
  existsb (String.eqb x) arr.

(** A [Set] keeps its elements in insertion order, each once. *)
Section SetOf.
Context {A : Type} (same : A -> A -> bool).

Definition has (s : list A) (x : A) : bool := existsb (same x) s.

Definition add (s : list A) (x : A) : list A :=
  if has s x then s else s ++ [x].

(** [new Set(iterable)]. *)
Definition newSet (l : list A) : list A := fold_left add l [].

Definition size (s : list A) : nat := length s.
End SetOf.

End Js.

(** ** [types.ts] *)

(** [enum QuestionType]: a string enum; its members are their values. *)
Module QuestionType.
Definition SINGLE_CHOICE : string := "single_choice".
Definition MULTI_CHOICE : string := "multi_choice".
Definition NUMBER : string := "number".
Definition TEXT : string := "text".

(** [Object.values(QuestionType)]. *)
Definition values : list string :=
  [SINGLE_CHOICE; MULTI_CHOICE; NUMBER; TEXT].
End QuestionType.

(** [interface Question], without [id], which neither function reads.
    At run time the object is a request body: every key may be missing or
    [null], and [type] is whatever string was sent. *)
Record Question : Type := {
  text : Js.optional string;
  type : Js.optional string;
  points : Js.optional Js.number;
  options : Js.optional (list string);
  correctOption : Js.optional string;
  correctOptions : Js.optional (list string);
  min : Js.optional Js.number;
  max : Js.optional Js.number;
  keywords : Js.optional (list string)
}.

(** ** [app.ts]: validation *)

(** [errors.push(msg)]. *)
Definition push (errors : list string) (msg : string) : list string :=
  errors ++ [msg].

(** The value of an operand of [<] or [*] that may be missing ([null]
    counts as 0, [undefined] as [NaN]). *)
Definition operand (o : Js.optional Js.number) : Js.number :=
  Js.numberOf (Js.ofOptional Js.VNumber o).

Definition validateQuestion (question : Question) : list string :=
  let errors : list string := [] in
  (* !question.text || question.text.trim().length === 0 *)
  let errors :=
    if match text question with
       | Js.defined s =>
           negb (Js.truthyString s) || Nat.eqb (String.length (Js.trim s)) 0
       | _ => true
       end
    then push errors "Question text is required" else errors in
  (* !question.type || !Object.values(QuestionType).includes(question.type) *)
  let errors :=
    if match type question with
       | Js.defined t =>
           negb (Js.truthyString t)
           || negb (Js.includes QuestionType.values t)
       | _ => true
       end
    then push errors "Invalid question type" else errors in
  (* !question.points || question.points <= 0 *)
  let errors :=
    if match points question with
       | Js.defined p => negb (Js.truthyNumber p) || Js.le p Js.zero
       | _ => true
       end
    then push errors "Points must be greater than 0" else errors in
  (* switch (question.type) *)
  match type question with
  | Js.defined t =>
      if String.eqb t QuestionType.SINGLE_CHOICE then
        let errors :=
          if Js.notString (correctOption question)
          then push errors "correctOption is required for single_choice type"
          else errors in
        let errors :=
          match options question, correctOption question with
          | Js.defined opts, Js.defined c =>
              if Js.truthyString c && negb (Js.includes opts c)
              then push errors "correctOption must be in options list"
              else errors
          | _, _ => errors
          end in
        errors
      else if String.eqb t QuestionType.MULTI_CHOICE then
        let errors :=
          if match correctOptions question with
             | Js.defined cs => Nat.eqb (length cs) 0
             | _ => true
             end
          then push errors "correctOptions is required for multi_choice type"
          else errors in
        let errors :=
          match options question, correctOptions question with
          | Js.defined opts, Js.defined cs =>
              let invalidOptions :=
                List.filter (fun opt => negb (Js.includes opts opt)) cs in
              if Nat.ltb 0 (length invalidOptions)
              then push errors "All correctOptions must be in options list"
              else errors
          | _, _ => errors
          end in
        errors
      else if String.eqb t QuestionType.NUMBER then
        let errors :=
          match min question with
          | Js.defined _ => errors
          | _ => push errors "min is required for number type"
          end in
        let errors :=
          match max question with
          | Js.defined _ => errors
          | _ => push errors "max is required for number type"
          end in
        let errors :=
          match min question, max question with
          | Js.undefined, _ | _, Js.undefined => errors
          | lo, hi =>
              if Js.lt (operand hi) (operand lo)
              then push errors "max must be greater than or equal to min"
              else errors
          end in
        errors
      else if String.eqb t QuestionType.TEXT then
        let errors :=
          if match keywords question with
             | Js.defined ks => Nat.eqb (length ks) 0
             | _ => true
             end
          then push errors "keywords are required for text type"
          else errors in
        errors
      else errors
  | _ => errors
  end.

(** ** [app.ts]: scoring *)

(** [question.points], as the value the function returns; as a factor of
    [*] it is [operand (points question)]. *)
Definition pointsValue (question : Question) : Js.value :=
  Js.ofOptional Js.VNumber (points question).

Notation "'let*' x ':=' c 'in' k" := (Js.bind c (fun x => k))
  (at level 10, x name, c at level 100, k at level 200).

Definition calculateScore (question : Question) (answer : Js.value)
  : Js.completion Js.value :=
  match type question with
  | Js.defined t =>
      if String.eqb t QuestionType.SINGLE_CHOICE then
        if Js.strictEq answer (Js.ofOptional Js.VString (correctOption question))
        then Js.Normal (pointsValue question)
        else Js.Normal (Js.VNumber Js.zero)
      else if String.eqb t QuestionType.MULTI_CHOICE then
        match answer with
        | Js.VArray elems =>
            let correctSet :=
              Js.newSet String.eqb (Js.orElse (correctOptions question) []) in
            let answerSet := Js.newSet Js.sameValueZero elems in
            if Nat.eqb (Js.size correctSet) 0 then Js.Normal (Js.VNumber Js.zero)
            else
              let intersection :=
                length
                  (List.filter
                     (fun x => Js.has Js.sameValueZero answerSet (Js.VString x))
                     correctSet) in
              Js.Normal
                (Js.VNumber
                   (Js.mul (operand (points question))
                      (Js.div (Js.ofNat intersection)
                         (Js.ofNat (Js.size correctSet)))))
        | _ => Js.Normal (Js.VNumber Js.zero)
        end
      else if String.eqb t QuestionType.NUMBER then
        let* numValue := Js.ToNumber answer in
        if Js.isNaN numValue then Js.Normal (Js.VNumber Js.zero)
        else
          let min := Js.nullish (min question) Js.NegInf in
          let max := Js.nullish (max question) Js.PosInf in
          if Js.ge numValue min && Js.le numValue max
          then Js.Normal (pointsValue question)
          else Js.Normal (Js.VNumber Js.zero)
      else if String.eqb t QuestionType.TEXT then
        match answer with
        | Js.VString answer =>
            let answerLower := Js.toLowerCase answer in
            let matchedKeywords :=
              length
                (List.filter
                   (fun keyword =>
                      Js.stringIncludes answerLower (Js.toLowerCase keyword))
                   (Js.orElse (keywords question) [])) in
            let totalKeywords :=
              match keywords question with
              | Js.defined ks => if Nat.eqb (length ks) 0 then 1 else length ks
              | _ => 1
              end in
            Js.Normal
              (Js.VNumber
                 (Js.mul (operand (points question))
                    (Js.div (Js.ofNat matchedKeywords)
                       (Js.ofNat totalKeywords))))
        | _ => Js.Normal (Js.VNumber Js.zero)
        end
      else Js.Normal (Js.VNumber Js.zero)
  | _ => Js.Normal (Js.VNumber Js.zero)
  end.

(** ** The scenarios of the specification, run on the embedding *)

Module Scenarios.

Definition base : Question := {|
  text := Js.defined "q";
  type := Js.undefined;
  points := Js.defined (Js.Fin 10);
  options := Js.undefined;
  correctOption := Js.undefined;
  correctOptions := Js.undefined;
  min := Js.undefined;
  max := Js.undefined;
  keywords := Js.undefined
|}.

Definition withType (t : string) (q : Question) : Question :=
  {| text := text q; type := Js.defined t; points := points q;
     options := options q; correctOption := correctOption q;
     correctOptions := correctOptions q; min := min q; max := max q;
     keywords := keywords q |}.

Definition single : Question :=
  {| text := Js.defined "What is 2+2?";
     type := Js.defined QuestionType.SINGLE_CHOICE;
     points := Js.defined (Js.Fin 10);
     options := Js.defined ["3"; "4"; "5"];
     correctOption := Js.defined "4";
     correctOptions := Js.undefined; min := Js.undefined;
     max := Js.undefined; keywords := Js.undefined |}.

Definition multi : Question :=
  {| text := Js.defined "Select all even numbers";
     type := Js.defined QuestionType.MULTI_CHOICE;
     points := Js.defined (Js.Fin 10);
     options := Js.defined ["1"; "2"; "3"; "4"];
     correctOption := Js.undefined;
     correctOptions := Js.defined ["2"; "4"]; min := Js.undefined;
     max := Js.undefined; keywords := Js.undefined |}.

Definition number : Question :=
  {| text := Js.defined "Years of experience?";
     type := Js.defined QuestionType.NUMBER;
     points := Js.defined (Js.Fin 10);
     options := Js.undefined; correctOption := Js.undefined;
     correctOptions := Js.undefined;
     min := Js.defined (Js.Fin 0); max := Js.defined (Js.Fin 20);
     keywords := Js.undefined |}.

Definition skills : Question :=
  {| text := Js.defined "Describe your skills";
     type := Js.defined QuestionType.TEXT;
     points := Js.defined (Js.Fin 10);
     options := Js.undefined; correctOption := Js.undefined;
     correctOptions := Js.undefined; min := Js.undefined;
     max := Js.undefined;
     keywords := Js.defined ["typescript"; "node"; "testing"] |}.

(** A single-choice question whose [correctOption] is the empty string. *)
Definition emptyCorrectOption : Question :=
  {| text := Js.defined "Pick one";
     type := Js.defined QuestionType.SINGLE_CHOICE;
     points := Js.defined (Js.Fin 10);
     options := Js.undefined; correctOption := Js.defined "";
     correctOptions := Js.undefined; min := Js.undefined;
     max := Js.undefined; keywords := Js.undefined |}.

(** A number question whose [min] is [NaN]. *)
Definition nanMin : Question :=
  {| text := Js.defined "Enter number";
     type := Js.defined QuestionType.NUMBER;
     points := Js.defined (Js.Fin 10);
     options := Js.undefined; correctOption := Js.undefined;
     correctOptions := Js.undefined;
     min := Js.defined Js.NaN; max := Js.defined (Js.Fin 5);
     keywords := Js.undefined |}.

(** A number question with [min = 5] and [max = 2]. *)
Definition crossedBounds : Question :=
  {| text := Js.defined "Enter number";
     type := Js.defined QuestionType.NUMBER;
     points := Js.defined (Js.Fin 10);
     options := Js.undefined; correctOption := Js.undefined;
     correctOptions := Js.undefined;
     min := Js.defined (Js.Fin 5); max := Js.defined (Js.Fin 2);
     keywords := Js.undefined |}.

(** A multi-choice question worth infinitely many points. *)
Definition infinitePoints : Question :=
  {| text := Js.defined "Select all even numbers";
     type := Js.defined QuestionType.MULTI_CHOICE;
     points := Js.defined Js.PosInf;
     options := Js.defined ["1"; "2"; "3"; "4"];
     correctOption := Js.undefined;
     correctOptions := Js.defined ["2"; "4"]; min := Js.undefined;
     max := Js.undefined; keywords := Js.undefined |}.

(** The answer [{ "toString": 1 }]. *)
Definition objectWithToString : Js.value :=
  Js.VObject [("toString", Js.VNumber (Js.Fin 1))].

Definition strs (l : list string) : Js.value := Js.VArray (map Js.VString l).
Definition num (x : Q) : Js.value := Js.VNumber (Js.Fin x).

End Scenarios.

(** ** The rules of the validator, as properties of a question *)

(** The messages, in the order in which the rules are listed. *)
Definition ruleOrder : list string :=
  [ "Question text is required";
    "Invalid question type";
    "Points must be greater than 0";
    "correctOption is required for single_choice type";
    "correctOption must be in options list";
    "correctOptions is required for multi_choice type";
    "All correctOptions must be in options list";
    "min is required for number type";
    "max is required for number type";
    "max must be greater than or equal to min";
    "keywords are required for text type" ].

(** The messages of the rules that hold for every type (rules 1 to 3). *)
Definition commonMessages : list string := take 3 ruleOrder.

(** Rule 1: the text is non-empty after trimming. *)
Definition textRule (q : Question) : Prop :=
  exists s, text q = Js.defined s /\ Js.trim s <> "".

(** Rule 2: the type is one of the four known variants. *)
Definition typeRule (q : Question) : Prop :=
  exists t, type q = Js.defined t /\ In t QuestionType.values.

(** Rule 3: the points are present and strictly greater than 0. *)
Definition pointsRule (q : Question) : Prop :=
  exists p, points q = Js.defined p /\ Js.gt p Js.zero = true.

(** Rule 4, as the specification words it. *)
Definition singleChoiceRule (q : Question) : Prop :=
  exists c, correctOption q = Js.defined c
    /\ forall opts, options q = Js.defined opts -> In c opts.

Definition multiChoiceRule (q : Question) : Prop :=
  exists cs, correctOptions q = Js.defined cs /\ cs <> []
    /\ forall opts, options q = Js.defined opts ->
                    forall c, In c cs -> In c opts.

Definition numberRule (q : Question) : Prop :=
  exists lo hi, min q = Js.defined lo /\ max q = Js.defined hi
    /\ Js.ge hi lo = true.

Definition keywordsRule (q : Question) : Prop :=
  exists ks, keywords q = Js.defined ks /\ ks <> [].

(** Rule 4 as the code checks it, where that differs: an empty
    [correctOption] counts as missing, and [max] is compared with [min]
    by [max < min], which is false as soon as one of them is [NaN]. *)
Definition singleChoiceCheck (q : Question) : Prop :=
  exists c, correctOption q = Js.defined c /\ c <> ""
    /\ forall opts, options q = Js.defined opts -> In c opts.

Definition numberCheck (q : Question) : Prop :=
  exists lo hi, min q = Js.defined lo /\ max q = Js.defined hi
    /\ Js.lt hi lo = false.

(** The variant-specific rules, keyed on the declared type. *)
Definition variantRules (single number : Question -> Prop) (q : Question)
  : Prop :=
  (type q = Js.defined QuestionType.SINGLE_CHOICE -> single q)
  /\ (type q = Js.defined QuestionType.MULTI_CHOICE -> multiChoiceRule q)
  /\ (type q = Js.defined QuestionType.NUMBER -> number q)
  /\ (type q = Js.defined QuestionType.TEXT -> keywordsRule q).

(** All the rules of section 4.1, as stated. *)
Definition rulesAsStated (q : Question) : Prop :=
  textRule q /\ typeRule q /\ pointsRule q
  /\ variantRules singleChoiceRule numberRule q.

(** All the rules, as checked. *)
Definition rulesAsChecked (q : Question) : Prop :=
  textRule q /\ typeRule q /\ pointsRule q
  /\ variantRules singleChoiceCheck numberCheck q.

(** ** The validator, group by group

    The same messages as [validateQuestion] pushes, written as the
    concatenation of one list per test; [validateQuestion_split] below
    proves that the two agree. *)

(** The message of a test, when the test fires. *)
Definition flag (c : bool) (msg : string) : list string :=
  if c then [msg] else [].

(** The three tests that come before the [switch]. *)
Definition textFails (q : Question) : bool :=
  match text q with
  | Js.defined s =>
      negb (Js.truthyString s) || Nat.eqb (String.length (Js.trim s)) 0
  | _ => true
  end.

Definition typeFails (q : Question) : bool :=
  match type q with
  | Js.defined t =>
      negb (Js.truthyString t) || negb (Js.includes QuestionType.values t)
  | _ => true
  end.

Definition pointsFails (q : Question) : bool :=
  match points q with
  | Js.defined p => negb (Js.truthyNumber p) || Js.le p Js.zero
  | _ => true
  end.

Definition commonErrors (q : Question) : list string :=
  flag (textFails q) "Question text is required"
  ++ flag (typeFails q) "Invalid question type"
  ++ flag (pointsFails q) "Points must be greater than 0".

(** The messages of each [case] of the [switch]. *)
Definition singleChoiceErrors (q : Question) : list string :=
  flag (Js.notString (correctOption q))
    "correctOption is required for single_choice type"
  ++ flag match options q, correctOption q with
          | Js.defined opts, Js.defined c =>
              Js.truthyString c && negb (Js.includes opts c)
          | _, _ => false
          end
       "correctOption must be in options list".

Definition multiChoiceErrors (q : Question) : list string :=
  flag match correctOptions q with
       | Js.defined cs => Nat.eqb (length cs) 0
       | _ => true
       end
    "correctOptions is required for multi_choice type"
  ++ flag match options q, correctOptions q with
          | Js.defined opts, Js.defined cs =>
              Nat.ltb 0
                (length (List.filter (fun opt => negb (Js.includes opts opt)) cs))
          | _, _ => false
          end
       "All correctOptions must be in options list".

Definition numberErrors (q : Question) : list string :=
  flag match min q with Js.defined _ => false | _ => true end
    "min is required for number type"
  ++ flag match max q with Js.defined _ => false | _ => true end
       "max is required for number type"
  ++ flag match min q, max q with
          | Js.undefined, _ | _, Js.undefined => false
          | lo, hi => Js.lt (operand hi) (operand lo)
          end
       "max must be greater than or equal to min".

Definition keywordsErrors (q : Question) : list string :=
  flag match keywords q with
       | Js.defined ks => Nat.eqb (length ks) 0
       | _ => true
       end
    "keywords are required for text type".

Definition variantErrors (q : Question) : list string :=
  match type q with
  | Js.defined t =>
      if String.eqb t QuestionType.SINGLE_CHOICE then singleChoiceErrors q
      else if String.eqb t QuestionType.MULTI_CHOICE then multiChoiceErrors q
      else if String.eqb t QuestionType.NUMBER then numberErrors q
      else if String.eqb t QuestionType.TEXT then keywordsErrors q
      else []
  | _ => []
  end.

(** ** The scoring rules, as the specification words them *)

(** The strings among the elements of an answer.  Only these can belong
    to a set of strings, so they are all of the answer that meets
    [correctOptions]. *)
Fixpoint answerStrings (elems : list Js.value) : list string :=
  match elems with
  | [] => []
  | Js.VString s :: rest => s :: answerStrings rest
  | _ :: rest => answerStrings rest
  end.

(** The unique elements of [correctOptions] and of the answer. *)
Definition correctSetOf (q : Question) : gset string :=
  list_to_set (Js.orElse (correctOptions q) []).

Definition answerSetOf (elems : list Js.value) : gset string :=
  list_to_set (answerStrings elems).

(** How many keywords occur in the lower-cased answer, each keyword of the
    list counted on its own. *)
Fixpoint matchedCount (answerLower : string) (kws : list string) : nat :=
  match kws with
  | [] => 0
  | k :: rest =>
      (if Js.stringIncludes answerLower (Js.toLowerCase k) then 1 else 0)
      + matchedCount answerLower rest
  end.

(** The number of keywords, or 1 when there is none. *)
Definition totalKeywordsOf (q : Question) : nat :=
  match Js.orElse (keywords q) [] with
  | [] => 1
  | ks => length ks
  end.

(** [points * (count / total)]: the quotient first and then the product,
    which is the order in which [calculateScore] applies the two
    operations of the runtime. *)
Definition proportional (q : Question) (count total : nat) : Js.number :=
  Js.mul (operand (points q)) (Js.div (Js.ofNat count) (Js.ofNat total)).

(** The score is a number between 0 and the points of the question. *)
Definition scoreWithinPoints (q : Question) (a : Js.value) : Prop :=
  exists s, calculateScore q a = Js.Normal (Js.VNumber s)
            /\ Js.le Js.zero s = true
            /\ Js.le s (operand (points q)) = true.

(** The score is the number [x]. *)
Definition scores (q : Question) (a : Js.value) (x : Q) : Prop :=
  exists s, calculateScore q a = Js.Normal (Js.VNumber s)
            /\ Js.sameNumber s (Js.Fin x).

(** The bounds of a number question; a missing bound is an infinity. *)
Definition lowerBound (q : Question) : Js.number :=
  match min q with Js.defined lo => lo | _ => Js.NegInf end.

Definition upperBound (q : Question) : Js.number :=
  match max q with Js.defined hi => hi | _ => Js.PosInf end.

Definition inRange (q : Question) (v : Js.number) : Prop :=
  Js.le (lowerBound q) v = true /\ Js.le v (upperBound q) = true.

(** ** More of the runtime: arithmetic, [Math.round], [join], [Map], [sort] *)

Module JsMore.

(** [a + b] on numbers. *)
Definition add (a b : Js.number) : Js.number :=
  match a, b with
  | Js.NaN, _ | _, Js.NaN => Js.NaN
  | Js.PosInf, Js.NegInf | Js.NegInf, Js.PosInf => Js.NaN
  | Js.PosInf, _ | _, Js.PosInf => Js.PosInf
  | Js.NegInf, _ | _, Js.NegInf => Js.NegInf
  | Js.Fin x, Js.Fin y => Js.Fin (x + y)%Q
  end.

(** [a - b]. *)
Definition sub (a b : Js.number) : Js.number := add a (Js.negate b).

(** [Math.round(a)]: the nearest integer, a tie going up. *)
Definition round (a : Js.number) : Js.number :=
  match a with
  | Js.Fin x => Js.Fin (inject_Z (Qfloor (x + (1 # 2))%Q))
  | _ => a
  end.

(** The text of a non-negative integer, as a template literal prints it. *)
Definition natToString (n : nat) : string :=
  NilEmpty.string_of_uint (Nat.to_uint n).

(** [arr.join(sep)] on an array of strings. *)
Fixpoint join (sep : string) (arr : list string) : string :=
  match arr with
  | [] => ""
  | [x] => x
  | x :: rest => x ++ sep ++ join sep rest
  end.

(** A [Map] with string keys keeps its entries in insertion order, one
    per key; setting a key that is present replaces its value in place. *)
Section MapOf.
Context {V : Type}.

Fixpoint mapGet (m : list (string * V)) (key : string) : option V :=
  match m with
  | [] => None
  | (k, v) :: rest => if String.eqb k key then Some v else mapGet rest key
  end.

Definition mapHas (m : list (string * V)) (key : string) : bool :=
  match mapGet m key with Some _ => true | None => false end.

Fixpoint mapSet (m : list (string * V)) (key : string) (v : V)
  : list (string * V) :=
  match m with
  | [] => [(key, v)]
  | (k, v') :: rest =>
      if String.eqb k key then (k, v) :: rest
      else (k, v') :: mapSet rest key v
  end.

(** [new Map(entries)]. *)
Definition newMap (entries : list (string * V)) : list (string * V) :=
  fold_left (fun m kv => mapSet m (fst kv) (snd kv)) entries [].

(** [Array.from(m.values())]. *)
Definition mapValues (m : list (string * V)) : list V := map snd m.
End MapOf.

(** [arr.sort(comparefn)].  The sort is stable; [precedes y x] says that
    the comparator puts [y] strictly before [x].  For a comparator that
    orders the elements consistently the outcome is the one stable
    arrangement, which insertion from the right computes. *)
Section SortOf.
Context {A : Type} (precedes : A -> A -> bool).

Fixpoint insertSorted (x : A) (l : list A) : list A :=
  match l with
  | [] => [x]
  | y :: rest => if precedes y x then y :: insertSorted x rest else x :: l
  end.

Definition sort (l : list A) : list A := fold_right insertSorted [] l.
End SortOf.

End JsMore.

(** ** [types.ts]: jobs and applications *)

(** [interface Question], with the [id] that a stored question has. *)
Module StoredQuestion.
Record t : Type := { id : string; fields : Question }.
End StoredQuestion.

(** [interface Job]; [createdAt] is the time value of the [Date]. *)
Module Job.
Record t : Type := {
  id : string;
  title : string;
  location : string;
  customer : string;
  jobName : string;
  description : string;
  questions : list StoredQuestion.t;
  createdAt : Z
}.
End Job.

Module Answer.
Record t : Type := { questionId : string; value : Js.value }.
End Answer.

Module ScoreBreakdown.
Record t : Type := {
  questionId : string;
  questionText : Js.optional string;
  pointsEarned : Js.number;
  pointsPossible : Js.optional Js.number;
  answer : Js.value
}.
End ScoreBreakdown.

Module Application.
Record t : Type := {
  id : string;
  jobId : string;
  candidateName : string;
  candidateEmail : string;
  answers : list Answer.t;
  totalScore : Js.number;
  maxScore : Js.number;
  scoreBreakdown : list ScoreBreakdown.t;
  submittedAt : Z
}.
End Application.

Module CreateJobDto.
Record t : Type := {
  title : string;
  location : string;
  customer : string;
  jobName : string;
  description : string;
  questions : list Question
}.
End CreateJobDto.

(** [answers] is only known to exist when the handler runs: it is an
    array of answers, or [None] for any other value. *)
Module CreateApplicationDto.
Record t : Type := {
  jobId : string;
  candidateName : string;
  candidateEmail : string;
  answers : option (list Answer.t)
}.
End CreateApplicationDto.

(** ** [app.ts]: the stores, errors and responses *)

(** The two module-level maps, and the source of [uuidv4()]: the values
    that the calls return, in the order of the calls, and how many have
    been drawn. *)
Record World : Type := {
  jobsStore : list (string * Job.t);
  applicationsStore : list (string * Application.t);
  uuidSource : nat -> string;
  uuidCount : nat
}.

(** What a handler can throw: a [ValidationError] with its [errors], or
    the [TypeError] of the runtime. *)
Inductive Error : Type :=
| ValidationError (errors : list string)
| RuntimeTypeError.

(** The argument of [res.json]. *)
Inductive Body : Type :=
| JobBody (job : Job.t)
| JobsBody (jobs : list Job.t)
| ApplicationBody (application : Application.t)
| ApplicationsBody (applications : list Application.t)
| ErrorBody (error : string)
| ValidationBody (error : string) (details : list string).

Record Response : Type := { status : nat; body : Body }.

(** A handler runs on the stores and either answers or throws; what it
    wrote before throwing stays written. *)
Inductive Outcome (A : Type) : Type :=
| Done (a : A)
| Thrown (e : Error).
Arguments Done {A} a.
Arguments Thrown {A} e.

Definition Handler (A : Type) : Type := World -> Outcome A * World.

Definition ret {A : Type} (a : A) : Handler A := fun w => (Done a, w).

Definition throw {A : Type} (e : Error) : Handler A :=
  fun w => (Thrown e, w).

Definition andThen {A B : Type} (h : Handler A) (k : A -> Handler B)
  : Handler B :=
  fun w =>
    match h w with
    | (Done a, w') => k a w'
    | (Thrown e, w') => (Thrown e, w')
    end.

Notation "'let!' x ':=' h 'in' k" := (andThen h (fun x => k))
  (at level 10, x name, h at level 100, k at level 200).

(** A [TypeError] of the runtime, thrown inside a handler. *)
Definition lift {A : Type} (c : Js.completion A) : Handler A :=
  match c with
  | Js.Normal a => ret a
  | Js.TypeError => throw RuntimeTypeError
  end.

(** [uuidv4()]. *)
Definition uuidv4 : Handler string :=
  fun w =>
    (Done (uuidSource w (uuidCount w)),
     {| jobsStore := jobsStore w;
        applicationsStore := applicationsStore w;
        uuidSource := uuidSource w;
        uuidCount := S (uuidCount w) |}).

(** [jobsStore.set(key, job)] and [applicationsStore.set(key, app)]. *)
Definition setJob (key : string) (job : Job.t) : Handler unit :=
  fun w =>
    (Done tt,
     {| jobsStore := JsMore.mapSet (jobsStore w) key job;
        applicationsStore := applicationsStore w;
        uuidSource := uuidSource w;
        uuidCount := uuidCount w |}).

Definition setApplication (key : string) (application : Application.t)
  : Handler unit :=
  fun w =>
    (Done tt,
     {| jobsStore := jobsStore w;
        applicationsStore :=
          JsMore.mapSet (applicationsStore w) key application;
        uuidSource := uuidSource w;
        uuidCount := uuidCount w |}).

Definition getStores : Handler World := fun w => (Done w, w).

(** [res.status(code).json(value)]; [res.json(value)] answers 200. *)
Definition json (code : nat) (value : Body) : Response :=
  {| status := code; body := value |}.

(** [Math.round(x * 100) / 100]. *)
Definition round2 (x : Js.number) : Js.number :=
  Js.div (JsMore.round (Js.mul x (Js.Fin 100))) (Js.Fin 100).

(** ** [app.ts]: the route handlers

    Each route first runs the validators of [express-validator] and
    [handleValidationErrors], which answer 400 on their own and which
    also trim [title], [location], [customer], [jobName], [description]
    and [candidateName] in place.  They are not modelled: a handler below
    is the function wrapped in [asyncHandler], run on a request that the
    validators let through, and the DTO is [req.body] as they left it.
    The body has the type that the handler declares for it: [questions]
    is an array of objects, and [answers], when it is an array, holds
    objects whose [questionId] is a string. *)

(** The two nested [forEach] of the job route: the messages of every
    question, each under the 1-based index of its question. *)
Fixpoint collectQuestionErrors
  (idx : nat) (questions : list Question) (questionErrors : list string)
  : list string :=
  match questions with
  | [] => questionErrors
  | q :: rest =>
      let errors := validateQuestion q in
      let questionErrors :=
        fold_left
          (fun acc err =>
             push acc
               ("Question " ++ JsMore.natToString (idx + 1) ++ ": " ++ err))
          errors questionErrors in
      collectQuestionErrors (S idx) rest questionErrors
  end.

(** [dto.questions.map(q => ({ ...q, id: uuidv4() }))]. *)
Fixpoint assignIds (questions : list Question)
  : Handler (list StoredQuestion.t) :=
  match questions with
  | [] => ret []
  | q :: rest =>
      let! id := uuidv4 in
      let! others := assignIds rest in
      ret ({| StoredQuestion.id := id; StoredQuestion.fields := q |} :: others)
  end.

(** [POST /api/jobs]; [now] is the time that [new Date()] reads. *)
Definition createJob (dto : CreateJobDto.t) (now : Z) : Handler Response :=
  let questionErrors :=
    collectQuestionErrors 0 (CreateJobDto.questions dto) [] in
  if Nat.ltb 0 (length questionErrors)
  then throw (ValidationError questionErrors)
  else
    let! id := uuidv4 in
    let! questions := assignIds (CreateJobDto.questions dto) in
    let job :=
      {| Job.id := id;
         Job.title := CreateJobDto.title dto;
         Job.location := CreateJobDto.location dto;
         Job.customer := CreateJobDto.customer dto;
         Job.jobName := CreateJobDto.jobName dto;
         Job.description := CreateJobDto.description dto;
         Job.questions := questions;
         Job.createdAt := now |} in
    let! _ := setJob (Job.id job) job in
    ret (json 201 (JobBody job)).

(** [GET /api/jobs]. *)
Definition listJobs : Handler Response :=
  let! w := getStores in
  ret (json 200 (JobsBody (JsMore.mapValues (jobsStore w)))).

(** [GET /api/jobs/:id]. *)
Definition getJob (id : string) : Handler Response :=
  let! w := getStores in
  match JsMore.mapGet (jobsStore w) id with
  | None => ret (json 404 (ErrorBody "Job not found"))
  | Some job => ret (json 200 (JobBody job))
  end.

(** The running totals and the breakdown of the scoring loop. *)
Record Tally : Type := {
  runningTotal : Js.number;
  runningMax : Js.number;
  breakdown : list ScoreBreakdown.t
}.

(** One turn of [dto.answers.forEach].  A question that the map does not
    hold is [undefined], and reading its [type] throws.  The score is
    [undefined], [null] or a number, so that [+=] adds numbers. *)
Definition scoreAnswer
  (questionsMap : list (string * StoredQuestion.t)) (tally : Tally)
  (answer : Answer.t) : Js.completion Tally :=
  let* question :=
    match JsMore.mapGet questionsMap (Answer.questionId answer) with
    | Some question => Js.Normal question
    | None => Js.TypeError
    end in
  let* pointsEarned :=
    calculateScore (StoredQuestion.fields question) (Answer.value answer) in
  Js.Normal
    {| breakdown :=
         breakdown tally
         ++ [ {| ScoreBreakdown.questionId := StoredQuestion.id question;
                 ScoreBreakdown.questionText :=
                   text (StoredQuestion.fields question);
                 ScoreBreakdown.pointsEarned :=
                   round2 (Js.numberOf pointsEarned);
                 ScoreBreakdown.pointsPossible :=
                   points (StoredQuestion.fields question);
                 ScoreBreakdown.answer := Answer.value answer |} ];
       runningTotal :=
         JsMore.add (runningTotal tally) (Js.numberOf pointsEarned);
       runningMax :=
         JsMore.add (runningMax tally)
           (operand (points (StoredQuestion.fields question))) |}.

Fixpoint scoreAnswers
  (questionsMap : list (string * StoredQuestion.t)) (answers : list Answer.t)
  (tally : Tally) : Js.completion Tally :=
  match answers with
  | [] => Js.Normal tally
  | answer :: rest =>
      let* tally := scoreAnswer questionsMap tally answer in
      scoreAnswers questionsMap rest tally
  end.

(** The ids that lack an answer and the answered ids that the job does
    not have, as the application route computes them. *)
Definition missingIdsOf (job : Job.t) (answers : list Answer.t) : list string :=
  let answeredIds := Js.newSet String.eqb (map Answer.questionId answers) in
  let requiredIds :=
    Js.newSet String.eqb (map StoredQuestion.id (Job.questions job)) in
  List.filter (fun id => negb (Js.has String.eqb answeredIds id)) requiredIds.

Definition extraIdsOf (job : Job.t) (answers : list Answer.t) : list string :=
  let answeredIds := Js.newSet String.eqb (map Answer.questionId answers) in
  let requiredIds :=
    Js.newSet String.eqb (map StoredQuestion.id (Job.questions job)) in
  List.filter (fun id => negb (Js.has String.eqb requiredIds id)) answeredIds.

(** [POST /api/applications]. *)
Definition submitApplication (dto : CreateApplicationDto.t) (now : Z)
  : Handler Response :=
  let! w := getStores in
  match JsMore.mapGet (jobsStore w) (CreateApplicationDto.jobId dto) with
  | None => ret (json 404 (ErrorBody "Job not found"))
  | Some job =>
      match CreateApplicationDto.answers dto with
      | None => throw (ValidationError ["At least one answer is required"])
      | Some answers =>
          if Nat.eqb (length answers) 0
          then throw (ValidationError ["At least one answer is required"])
          else
            let questionsMap :=
              JsMore.newMap
                (map (fun q => (StoredQuestion.id q, q)) (Job.questions job)) in
            let missingIds := missingIdsOf job answers in
            let extraIds := extraIdsOf job answers in
            if Nat.ltb 0 (length missingIds) || Nat.ltb 0 (length extraIds)
            then
              let errors : list string := [] in
              let errors :=
                if Nat.ltb 0 (length missingIds)
                then push errors
                       ("Missing answers for questions: "
                        ++ JsMore.join ", " missingIds)
                else errors in
              let errors :=
                if Nat.ltb 0 (length extraIds)
                then push errors
                       ("Invalid question IDs: " ++ JsMore.join ", " extraIds)
                else errors in
              throw (ValidationError errors)
            else
              let! tally :=
                lift
                  (scoreAnswers questionsMap answers
                     {| runningTotal := Js.zero; runningMax := Js.zero;
                        breakdown := [] |}) in
              let! id := uuidv4 in
              let application :=
                {| Application.id := id;
                   Application.jobId := CreateApplicationDto.jobId dto;
                   Application.candidateName :=
                     CreateApplicationDto.candidateName dto;
                   Application.candidateEmail :=
                     CreateApplicationDto.candidateEmail dto;
                   Application.answers := answers;
                   Application.totalScore := round2 (runningTotal tally);
                   Application.maxScore := round2 (runningMax tally);
                   Application.scoreBreakdown := breakdown tally;
                   Application.submittedAt := now |} in
              let! _ := setApplication (Application.id application) application in
              ret (json 201 (ApplicationBody application))
      end
  end.

(** The comparators of the listing route, as "comes strictly before". *)
Definition byScore (a b : Application.t) : bool :=
  Js.lt (JsMore.sub (Application.totalScore b) (Application.totalScore a))
    Js.zero.

Definition byDate (a b : Application.t) : bool :=
  (Application.submittedAt b - Application.submittedAt a <? 0)%Z.

(** [GET /api/jobs/:jobId/applications]; [sortBy] is the query parameter,
    [None] when the request has none. *)
Definition listApplications (jobId : string) (sortBy : option string)
  : Handler Response :=
  let sortBy :=
    match sortBy with
    | Some s => if Js.truthyString s then s else "score"
    | None => "score"
    end in
  let! w := getStores in
  if negb (JsMore.mapHas (jobsStore w) jobId)
  then ret (json 404 (ErrorBody "Job not found"))
  else
    let applications :=
      List.filter (fun app => String.eqb (Application.jobId app) jobId)
        (JsMore.mapValues (applicationsStore w)) in
    let applications :=
      if String.eqb sortBy "score" then JsMore.sort byScore applications
      else if String.eqb sortBy "date" then JsMore.sort byDate applications
      else applications in
    ret (json 200 (ApplicationsBody applications)).

(** [GET /api/applications/:id]. *)
Definition getApplication (id : string) : Handler Response :=
  let! w := getStores in
  match JsMore.mapGet (applicationsStore w) id with
  | None => ret (json 404 (ErrorBody "Application not found"))
  | Some application => ret (json 200 (ApplicationBody application))
  end.

(** The error middleware.  The body of the 500 answer also carries the
    message of the error when [NODE_ENV] is [development]; that field is
    left out here. *)
Definition errorHandler (err : Error) : Response :=
  match err with
  | ValidationError errors =>
      json 400 (ValidationBody "Validation failed" errors)
  | _ => json 500 (ErrorBody "Internal server error")
  end.

(** [asyncHandler(fn)] followed by the error middleware: what is thrown
    becomes an answer. *)
Definition asyncHandler (fn : Handler Response) (w : World)
  : Response * World :=
  match fn w with
  | (Done response, w') => (response, w')
  | (Thrown err, w') => (errorHandler err, w')
  end.

(** The requests that reach a handler, and the application as a whole. *)
Inductive Request : Type :=
| PostJob (dto : CreateJobDto.t) (now : Z)
| GetJobs
| GetJob (id : string)
| PostApplication (dto : CreateApplicationDto.t) (now : Z)
| GetJobApplications (jobId : string) (sortBy : option string)
| GetApplication (id : string).

Definition handle (request : Request) : World -> Response * World :=
  match request with
  | PostJob dto now => asyncHandler (createJob dto now)
  | GetJobs => asyncHandler listJobs
  | GetJob id => asyncHandler (getJob id)
  | PostApplication dto now => asyncHandler (submitApplication dto now)
  | GetJobApplications jobId sortBy =>
      asyncHandler (listApplications jobId sortBy)
  | GetApplication id => asyncHandler (getApplication id)
  end.

(** The stores after a sequence of requests. *)
Fixpoint serve (requests : list Request) (w : World) : World :=
  match requests with
  | [] => w
  | request :: rest => serve rest (snd (handle request w))
  end.

(** The stores when the process starts. *)
Definition start (source : nat -> string) : World :=
  {| jobsStore := []; applicationsStore := [];
     uuidSource := source; uuidCount := 0 |}.

(** ** A session, for the examples *)

Module Session.

Definition source (n : nat) : string := "id-" ++ JsMore.natToString n.

Definition jobDto : CreateJobDto.t :=
  {| CreateJobDto.title := "Test Job";
     CreateJobDto.location := "Berlin";
     CreateJobDto.customer := "LoadUp";
     CreateJobDto.jobName := "test-job";
     CreateJobDto.description := "Test job for scoring";
     CreateJobDto.questions :=
       [ Scenarios.single; Scenarios.multi; Scenarios.number;
         Scenarios.skills ] |}.

(** A job whose second and fourth questions are broken. *)
Definition brokenJobDto : CreateJobDto.t :=
  {| CreateJobDto.title := "Test Job";
     CreateJobDto.location := "Berlin";
     CreateJobDto.customer := "LoadUp";
     CreateJobDto.jobName := "test";
     CreateJobDto.description := "Test";
     CreateJobDto.questions :=
       [ Scenarios.single; Scenarios.emptyCorrectOption; Scenarios.number;
         Scenarios.withType "number" Scenarios.base ] |}.

Definition answer (id : string) (v : Js.value) : Answer.t :=
  {| Answer.questionId := id; Answer.value := v |}.

Definition apply (jobId : string) (answers : option (list Answer.t))
  : CreateApplicationDto.t :=
  {| CreateApplicationDto.jobId := jobId;
     CreateApplicationDto.candidateName := "Test User";
     CreateApplicationDto.candidateEmail := "test@example.com";
     CreateApplicationDto.answers := answers |}.

(** The answers of a candidate to the four questions of [jobDto], whose
    ids are [id-1] to [id-4] when the job is the first one created. *)
Definition goodAnswers : list Answer.t :=
  [ answer "id-1" (Js.VString "4");
    answer "id-2" (Scenarios.strs ["2"]);
    answer "id-3" (Scenarios.num 5);
    answer "id-4" (Js.VString "I know Node") ].

(** The same with the first question answered twice. *)
Definition repeatedAnswers : list Answer.t :=
  answer "id-1" (Js.VString "4") :: goodAnswers.

Definition afterJob : World :=
  snd (handle (PostJob jobDto 1000) (start source)).

(** A second candidate, who gets the first question wrong and all the
    others right. *)
Definition otherAnswers : list Answer.t :=
  [ answer "id-1" (Js.VString "5");
    answer "id-2" (Scenarios.strs ["2"; "4"]);
    answer "id-3" (Scenarios.num 5);
    answer "id-4" (Js.VString "TypeScript, Node and testing") ].

(** Both candidates apply for the job, the first at 2000 and the second
    at 3000. *)
Definition afterApplications : World :=
  serve
    [ PostApplication (apply "id-0" (Some goodAnswers)) 2000;
      PostApplication (apply "id-0" (Some otherAnswers)) 3000 ]
    afterJob.

End Session.

(** ** The routes, as their users see them *)

(** The message for the error [err] of the question at position [idx]
    (from 0) of a request. *)
Definition labelled (idx : nat) (err : string) : string :=
  "Question " ++ JsMore.natToString (idx + 1) ++ ": " ++ err.

(** A question is accepted when [validateQuestion] has nothing to say. *)
Definition accepted (q : Question) : Prop := validateQuestion q = [].

(** The [n] values that [uuidv4()] returns from the [c]-th call on. *)
Definition drawn (source : nat -> string) (c n : nat) : list string :=
  map source (seq c n).

(** [new Map(job.questions.map(q => [q.id, q]))]. *)
Definition questionsMapOf (job : Job.t) : list (string * StoredQuestion.t) :=
  JsMore.newMap (map (fun q => (StoredQuestion.id q, q)) (Job.questions job)).

(** The ids that the answers name, and the ids of the questions of a
    job, as sets. *)
Definition answeredSet (answers : list Answer.t) : gset string :=
  list_to_set (map Answer.questionId answers).

Definition requiredSet (job : Job.t) : gset string :=
  list_to_set (map StoredQuestion.id (Job.questions job)).

(** The answer is to a number question of the job, and its value cannot
    be coerced to a number. *)
Definition uncoercible (job : Job.t) (answer : Answer.t) : Prop :=
  exists q,
    JsMore.mapGet (questionsMapOf job) (Answer.questionId answer) = Some q
    /\ type (StoredQuestion.fields q) = Js.defined QuestionType.NUMBER
    /\ Js.ToNumber (Answer.value answer) = Js.TypeError.

(** The tally before the first answer. *)
Definition emptyTally : Tally :=
  {| runningTotal := Js.zero; runningMax := Js.zero; breakdown := [] |}.

(** The five ways in which [POST /api/applications] ends. *)
Inductive SubmitOutcome
  (dto : CreateApplicationDto.t) (now : Z) (w : World) : Prop :=
| SubmitNoJob :
    JsMore.mapGet (jobsStore w) (CreateApplicationDto.jobId dto) = None ->
    handle (PostApplication dto now) w
    = (json 404 (ErrorBody "Job not found"), w) ->
    SubmitOutcome dto now w
| SubmitNoAnswers (job : Job.t) :
    JsMore.mapGet (jobsStore w) (CreateApplicationDto.jobId dto) = Some job ->
    CreateApplicationDto.answers dto = None
    \/ CreateApplicationDto.answers dto = Some [] ->
    handle (PostApplication dto now) w
    = (json 400
         (ValidationBody "Validation failed"
            ["At least one answer is required"]), w) ->
    SubmitOutcome dto now w
| SubmitWrongIds (job : Job.t) (answers : list Answer.t)
    (details : list string) :
    JsMore.mapGet (jobsStore w) (CreateApplicationDto.jobId dto) = Some job ->
    CreateApplicationDto.answers dto = Some answers ->
    answers <> [] ->
    answeredSet answers <> requiredSet job ->
    details <> [] ->
    handle (PostApplication dto now) w
    = (json 400 (ValidationBody "Validation failed" details), w) ->
    SubmitOutcome dto now w
| SubmitThrows (job : Job.t) (answers : list Answer.t) :
    JsMore.mapGet (jobsStore w) (CreateApplicationDto.jobId dto) = Some job ->
    CreateApplicationDto.answers dto = Some answers ->
    answers <> [] ->
    answeredSet answers = requiredSet job ->
    scoreAnswers (questionsMapOf job) answers emptyTally = Js.TypeError ->
    handle (PostApplication dto now) w
    = (json 500 (ErrorBody "Internal server error"), w) ->
    SubmitOutcome dto now w
| SubmitCreated (job : Job.t) (answers : list Answer.t) (tally : Tally)
    (application : Application.t) :
    JsMore.mapGet (jobsStore w) (CreateApplicationDto.jobId dto) = Some job ->
    CreateApplicationDto.answers dto = Some answers ->
    answers <> [] ->
    answeredSet answers = requiredSet job ->
    scoreAnswers (questionsMapOf job) answers emptyTally = Js.Normal tally ->
    application
    = {| Application.id := uuidSource w (uuidCount w);
         Application.jobId := CreateApplicationDto.jobId dto;
         Application.candidateName := CreateApplicationDto.candidateName dto;
         Application.candidateEmail := CreateApplicationDto.candidateEmail dto;
         Application.answers := answers;
         Application.totalScore := round2 (runningTotal tally);
         Application.maxScore := round2 (runningMax tally);
         Application.scoreBreakdown := breakdown tally;
         Application.submittedAt := now |} ->
    handle (PostApplication dto now) w
    = (json 201 (ApplicationBody application),
       {| jobsStore := jobsStore w;
          applicationsStore :=
            JsMore.mapSet (applicationsStore w) (Application.id application)
              application;
          uuidSource := uuidSource w;
          uuidCount := S (uuidCount w) |}) ->
    SubmitOutcome dto now w.

(** How an entry of the breakdown relates to the answer it is for. *)
Definition entryFor (job : Job.t) (answer : Answer.t) (entry : ScoreBreakdown.t)
  : Prop :=
  ScoreBreakdown.questionId entry = Answer.questionId answer
  /\ ScoreBreakdown.answer entry = Answer.value answer
  /\ exists q v,
       In q (Job.questions job)
       /\ StoredQuestion.id q = Answer.questionId answer
       /\ ScoreBreakdown.questionText entry = text (StoredQuestion.fields q)
       /\ ScoreBreakdown.pointsPossible entry
          = points (StoredQuestion.fields q)
       /\ calculateScore (StoredQuestion.fields q) (Answer.value answer)
          = Js.Normal v
       /\ ScoreBreakdown.pointsEarned entry = round2 (Js.numberOf v).

(** The points of the question that an answer is for. *)
Definition pointsFor (job : Job.t) (answer : Answer.t) : Js.number :=
  match JsMore.mapGet (questionsMapOf job) (Answer.questionId answer) with
  | Some q => operand (points (StoredQuestion.fields q))
  | None => Js.NaN
  end.

(** Every question of the job passes validation with finite points. *)
Definition soundJob (job : Job.t) : Prop :=
  Forall
    (fun q =>
       accepted (StoredQuestion.fields q)
       /\ exists p, points (StoredQuestion.fields q) = Js.defined (Js.Fin p))
    (Job.questions job).

(** The value of [Math.round(x * 100) / 100] for a finite [x]. *)
Definition hundredths (x : Q) : Q :=
  inject_Z (Qfloor (x * 100 + (1 # 2))) / 100.

(** An entry of the breakdown earns at least nothing and at most the
    points of its question, rounded as the earned points are. *)
Definition entryWithinPoints (entry : ScoreBreakdown.t) : Prop :=
  exists p,
    ScoreBreakdown.pointsPossible entry = Js.defined p
    /\ Js.le Js.zero (ScoreBreakdown.pointsEarned entry) = true
    /\ Js.le (ScoreBreakdown.pointsEarned entry) (round2 p) = true.

(** The keys by which applications are listed. *)
Definition scoreKey (application : Application.t) : Q :=
  match Application.totalScore application with
  | Js.Fin t => t
  | _ => 0%Q
  end.

Definition dateKey (application : Application.t) : Q :=
  inject_Z (Application.submittedAt application).

Definition finiteTotal (application : Application.t) : Prop :=
  exists t, Application.totalScore application = Js.Fin t.

(** The applications of a job, in the order of the store. *)
Definition applicationsOf (w : World) (jobId : string) : list Application.t :=
  List.filter (fun app => String.eqb (Application.jobId app) jobId)
    (JsMore.mapValues (applicationsStore w)).

(** A list is in the order of a listing by [key]: no key is smaller than
    a later one, and elements of equal keys are in the order in which
    [original] has them. *)
Definition listedBy {A : Type} (key : A -> Q) (original listed : list A)
  : Prop :=
  Permutation listed original
  /\ StronglySorted (fun a b => (key b <= key a)%Q) listed
  /\ forall k,
       List.filter (fun a => Qeq_bool (key a) k) listed
       = List.filter (fun a => Qeq_bool (key a) k) original.

(** What the stores hold at any time: every job sits under its own id
    and has only questions that pass validation; every application sits
    under its own id, is for a job of the store, has at least one answer
    and one entry of breakdown per answer. *)
Definition storesSound (w : World) : Prop :=
  (forall key job,
     In (key, job) (jobsStore w) ->
     Job.id job = key
     /\ Forall (fun q => accepted (StoredQuestion.fields q))
          (Job.questions job))
  /\ (forall key application,
        In (key, application) (applicationsStore w) ->
        Application.id application = key
        /\ In (Application.jobId application) (map fst (jobsStore w))
        /\ Application.answers application <> []
        /\ length (Application.scoreBreakdown application)
           = length (Application.answers application)).

(** ** Facts about the runtime *)

Module JsFacts.

Lemma includes_In (arr : list string) (x : string) :
  Js.includes arr x = true <-> In x arr.
Proof.
  unfold Js.includes. rewrite existsb_exists. split.
  - intros (y & Hy & E). apply String.eqb_eq in E. now subst.
  - intros H. exists x. split; [assumption | apply String.eqb_refl].
Qed.

Lemma includes_not_In (arr : list string) (x : string) :
  Js.includes arr x = false <-> ~ In x arr.
Proof.
  rewrite <- includes_In. destruct (Js.includes arr x); split; intros H;
    try reflexivity; try discriminate; try (intros E; discriminate).
  contradiction H. reflexivity.
Qed.

Lemma truthyString_iff (s : string) : Js.truthyString s = true <-> s <> "".
Proof.
  unfold Js.truthyString. rewrite negb_true_iff. apply String.eqb_neq.
Qed.

Lemma string_eqb_trans (a b c : string) :
  String.eqb a b = true -> String.eqb b c = true -> String.eqb a c = true.
Proof. rewrite !String.eqb_eq. congruence. Qed.

Lemma sameValueZero_trans (a b c : Js.value) :
  Js.sameValueZero a b = true -> Js.sameValueZero b c = true ->
  Js.sameValueZero a c = true.
Proof.
  destruct a as [| | x | x | x | x |], b as [| | y | y | y | y |];
    try (destruct x); try (destruct y); simpl; try discriminate;
    destruct c as [| | z | z | z | z |]; try (destruct z); simpl;
    try discriminate; try reflexivity.
  - rewrite !Qeq_bool_iff. apply Qeq_trans.
  - match goal with
    | |- (if Ascii.eqb ?a ?b then String.eqb ?x ?y else false) = true ->
         (if Ascii.eqb ?b ?c then String.eqb ?y ?z else false) = true -> _ =>
        exact (string_eqb_trans (String a x) (String b y) (String c z))
    end.
Qed.

Section SetFacts.
Context {A : Type} (same : A -> A -> bool).
Hypothesis same_trans :
  forall a b c, same a b = true -> same b c = true -> same a c = true.

Lemma has_add (s : list A) (x y : A) :
  Js.has same (Js.add same s y) x = Js.has same s x || same x y.
Proof.
  unfold Js.add, Js.has.
  destruct (existsb (same y) s) eqn:E.
  - destruct (same x y) eqn:Exy; [| now rewrite orb_false_r].
    rewrite orb_true_r. apply existsb_exists.
    apply existsb_exists in E as (z & Hz & Eyz).
    exists z. split; [assumption |]. now apply (same_trans x y z).
  - rewrite existsb_app. simpl. now rewrite orb_false_r.
Qed.

Lemma has_fold_add (l s : list A) (x : A) :
  Js.has same (fold_left (Js.add same) l s) x
  = Js.has same s x || existsb (same x) l.
Proof.
  revert s. induction l as [|y l IH]; intros s; simpl.
  - now rewrite orb_false_r.
  - rewrite IH, has_add. now rewrite orb_assoc.
Qed.

Lemma has_newSet (l : list A) (x : A) :
  Js.has same (Js.newSet same l) x = existsb (same x) l.
Proof. unfold Js.newSet. now rewrite has_fold_add. Qed.

Lemma length_fold_add (l s : list A) :
  length s <= length (fold_left (Js.add same) l s).
Proof.
  revert s. induction l as [|y l IH]; intros s; simpl; [lia |].
  etransitivity; [| apply IH]. unfold Js.add.
  destruct (Js.has same s y); [lia |]. rewrite length_app. simpl. lia.
Qed.

Lemma newSet_nonempty (l : list A) : l <> [] -> Js.size (Js.newSet same l) <> 0.
Proof.
  destruct l as [|y l]; [congruence |]. intros _.
  unfold Js.size, Js.newSet. simpl.
  change (Js.add same [] y) with [y].
  pose proof (length_fold_add l [y]) as H. simpl in H. lia.
Qed.

Hypothesis same_eq : forall a b, same a b = true <-> a = b.

Lemma has_In (s : list A) (x : A) : Js.has same s x = true <-> In x s.
Proof.
  unfold Js.has. rewrite existsb_exists. split.
  - intros (y & Hy & E). apply same_eq in E. now subst.
  - intros H. exists x. split; [assumption | now apply same_eq].
Qed.

Lemma fold_add_NoDup (l s : list A) :
  List.NoDup s ->
  List.NoDup (fold_left (Js.add same) l s)
  /\ forall x, In x (fold_left (Js.add same) l s) <-> In x s \/ In x l.
Proof.
  revert s. induction l as [|y l IH]; intros s Hs; simpl.
  - split; [assumption | tauto].
  - assert (Hadd : List.NoDup (Js.add same s y)
                   /\ forall x, In x (Js.add same s y) <-> In x s \/ y = x).
    { unfold Js.add. destruct (Js.has same s y) eqn:E.
      - apply has_In in E. split; [assumption |].
        intros x. split; [tauto | intros [H | <-]; assumption].
      - assert (Hn : ~ In y s) by (rewrite <- has_In; congruence).
        split.
        + apply List.NoDup_app; [assumption | repeat constructor; simpl; tauto |].
          intros a Ha [<- | []]. contradiction.
        + intros x. rewrite in_app_iff. simpl. tauto. }
    destruct Hadd as [Hnd Hin]. destruct (IH _ Hnd) as [IH1 IH2].
    split; [assumption |]. intros x. rewrite IH2, Hin. tauto.
Qed.

Lemma newSet_NoDup (l : list A) : List.NoDup (Js.newSet same l).
Proof. apply fold_add_NoDup. constructor. Qed.

Lemma newSet_In (l : list A) (x : A) : In x (Js.newSet same l) <-> In x l.
Proof.
  unfold Js.newSet.
  destruct (fold_add_NoDup l [] (List.NoDup_nil A)) as [_ H].
  rewrite H. simpl. tauto.
Qed.

End SetFacts.

Lemma existsb_sameValueZero_string (elems : list Js.value) (x : string) :
  existsb (Js.sameValueZero (Js.VString x)) elems = true
  <-> In x (answerStrings elems).
Proof.
  induction elems as [|v elems IH]; simpl; [split; [discriminate | tauto] |].
  rewrite orb_true_iff, IH.
  destruct v as [| | b | n | s | l |]; simpl;
    try (split; [intros [H | H]; [discriminate | assumption] | tauto]).
  rewrite String.eqb_eq. split; intros [H | H]; auto.
Qed.

Lemma answerSet_has (elems : list Js.value) (x : string) :
  Js.has Js.sameValueZero (Js.newSet Js.sameValueZero elems) (Js.VString x)
  = true <-> In x (answerStrings elems).
Proof.
  rewrite (has_newSet _ sameValueZero_trans).
  apply existsb_sameValueZero_string.
Qed.

End JsFacts.

(** ** The validator *)

Lemma push_flag (errors : list string) (c : bool) (msg : string) :
  (if c then push errors msg else errors) = errors ++ flag c msg.
Proof. destruct c; simpl; [reflexivity | now rewrite app_nil_r]. Qed.

Lemma validateQuestion_split (q : Question) :
  validateQuestion q = commonErrors q ++ variantErrors q.
Proof.
  unfold validateQuestion, commonErrors, variantErrors,
    singleChoiceErrors, multiChoiceErrors, numberErrors, keywordsErrors.
  fold (textFails q) (typeFails q) (pointsFails q).
  rewrite !push_flag. simpl app at 1.
  generalize (flag (textFails q) "Question text is required").
  generalize (flag (typeFails q) "Invalid question type").
  generalize (flag (pointsFails q) "Points must be greater than 0").
  intros l3 l2 l1.
  repeat match goal with
         | |- context [match ?x with _ => _ end] => destruct x eqn:?
         end;
    unfold push, flag; simpl; rewrite <- ?app_assoc, ?app_nil_r;
    try reflexivity; try discriminate.
Qed.

Lemma flag_nil (c : bool) (msg : string) : flag c msg = [] <-> c = false.
Proof. destruct c; simpl; split; intros H; try reflexivity; discriminate. Qed.

Lemma textFails_false (q : Question) : textFails q = false <-> textRule q.
Proof.
  unfold textFails, textRule. destruct (text q) as [| |s].
  - split; [discriminate | intros (s & E & _); discriminate].
  - split; [discriminate | intros (s & E & _); discriminate].
  - rewrite orb_false_iff, negb_false_iff, JsFacts.truthyString_iff.
    split.
    + intros [_ H]. exists s. split; [reflexivity |].
      intros E. rewrite E in H. discriminate.
    + intros (s' & E & H). injection E as <-. split.
      * intros ->. now apply H.
      * destruct (Js.trim s); [now contradiction H | reflexivity].
Qed.

Lemma typeFails_false (q : Question) : typeFails q = false <-> typeRule q.
Proof.
  unfold typeFails, typeRule. destruct (type q) as [| |t].
  - split; [discriminate | intros (s & E & _); discriminate].
  - split; [discriminate | intros (s & E & _); discriminate].
  - rewrite orb_false_iff, !negb_false_iff, JsFacts.truthyString_iff,
      JsFacts.includes_In.
    split.
    + intros [_ H]. now exists t.
    + intros (t' & E & H). injection E as <-. split; [| assumption].
      intros ->. simpl in H. intuition discriminate.
Qed.

Lemma Qeq_bool_le (x y : Q) : Qeq_bool x y = true -> Qle_bool x y = true.
Proof.
  intros H. apply Qeq_bool_iff in H. apply Qle_bool_iff.
  rewrite H. apply Qle_refl.
Qed.

Lemma pointsFails_false (q : Question) : pointsFails q = false <-> pointsRule q.
Proof.
  unfold pointsFails, pointsRule. destruct (points q) as [| |p].
  - split; [discriminate | intros (s & E & _); discriminate].
  - split; [discriminate | intros (s & E & _); discriminate].
  - split.
    + intros H. exists p. split; [reflexivity |].
      destruct p as [| | |x]; simpl in *; try discriminate; try reflexivity.
      apply orb_false_iff in H as [_ H]. now rewrite H.
    + intros (p' & E & H). injection E as <-.
      destruct p as [| | |x]; simpl in *; try discriminate; try reflexivity.
      apply negb_true_iff in H. rewrite H, orb_false_r, negb_involutive.
      destruct (Qeq_bool x 0) eqn:E0; [| reflexivity].
      apply Qeq_bool_le in E0. congruence.
Qed.

Lemma commonErrors_nil (q : Question) :
  commonErrors q = [] <-> textRule q /\ typeRule q /\ pointsRule q.
Proof.
  unfold commonErrors.
  rewrite <- textFails_false, <- typeFails_false, <- pointsFails_false.
  destruct (textFails q), (typeFails q), (pointsFails q); simpl;
    intuition discriminate.
Qed.

Lemma singleChoiceErrors_nil (q : Question) :
  singleChoiceErrors q = [] <-> singleChoiceCheck q.
Proof.
  unfold singleChoiceErrors, singleChoiceCheck, Js.notString.
  destruct (correctOption q) as [| |c].
  - simpl. split; [discriminate | intros (c & E & _); discriminate].
  - simpl. split; [discriminate | intros (c & E & _); discriminate].
  - destruct (Js.truthyString c) eqn:Ec; simpl.
    + apply JsFacts.truthyString_iff in Ec.
      destruct (options q) as [| |opts]; simpl.
      * split; [| reflexivity]. intros _. exists c. repeat split; try assumption.
        intros opts E; discriminate.
      * split; [| reflexivity]. intros _. exists c. repeat split; try assumption.
        intros opts E; discriminate.
      * destruct (Js.includes opts c) eqn:Ei; simpl.
        -- split; [| reflexivity]. intros _. exists c.
           repeat split; try assumption.
           intros opts' E. injection E as <-. now apply JsFacts.includes_In.
        -- split; [discriminate |]. intros (c' & E & _ & H).
           injection E as <-. apply JsFacts.includes_not_In in Ei.
           contradiction Ei. now apply H.
    + split; [discriminate |]. intros (c' & E & H & _). injection E as <-.
      apply JsFacts.truthyString_iff in H. congruence.
Qed.

Lemma filter_nil_iff {A : Type} (f : A -> bool) (l : list A) :
  List.filter f l = [] <-> forall x, In x l -> f x = false.
Proof.
  induction l as [|a l IH]; simpl.
  - split; [intros _ x [] | reflexivity].
  - destruct (f a) eqn:Ea.
    + split; [discriminate |]. intros H. specialize (H a (or_introl eq_refl)).
      congruence.
    + rewrite IH. split.
      * intros H x [<- | Hx]; [assumption | now apply H].
      * intros H x Hx. apply H. now right.
Qed.

Lemma multiChoiceErrors_nil (q : Question) :
  multiChoiceErrors q = [] <-> multiChoiceRule q.
Proof.
  unfold multiChoiceErrors, multiChoiceRule.
  destruct (correctOptions q) as [| |cs].
  - destruct (options q); simpl;
      (split; [discriminate | intros (c & E & _); discriminate]).
  - destruct (options q); simpl;
      (split; [discriminate | intros (c & E & _); discriminate]).
  - destruct cs as [|c0 cs].
    + destruct (options q); simpl;
        (split; [discriminate | intros (c & E & H & _); injection E as <-;
                               now contradiction H]).
    + change (Nat.eqb (length (c0 :: cs)) 0) with false.
      destruct (options q) as [| |opts]; cbn [flag app].
      * split; [| reflexivity]. intros _. exists (c0 :: cs).
        repeat split; discriminate.
      * split; [| reflexivity]. intros _. exists (c0 :: cs).
        repeat split; discriminate.
      * rewrite flag_nil.
        destruct (List.filter _ (c0 :: cs)) as [|i l] eqn:Ef.
        -- split; [| reflexivity]. intros _. exists (c0 :: cs).
           repeat split; try discriminate.
           intros opts' E c Hc. injection E as <-.
           apply JsFacts.includes_In. apply negb_false_iff.
           revert c Hc. now apply filter_nil_iff.
        -- split; [discriminate |]. intros (cs' & E & _ & H).
           injection E as <-.
           assert (Hi : In i (List.filter
                      (fun opt => negb (Js.includes opts opt)) (c0 :: cs))).
           { rewrite Ef. now left. }
           apply filter_In in Hi as [Hi Hn]. apply negb_true_iff in Hn.
           apply JsFacts.includes_not_In in Hn. contradiction Hn.
           now apply (H opts).
Qed.

Lemma numberErrors_nil (q : Question) :
  numberErrors q = [] <-> numberCheck q.
Proof.
  unfold numberErrors, numberCheck.
  destruct (min q) as [| |lo], (max q) as [| |hi]; simpl;
    try (split; [discriminate | intros (lo' & hi' & E1 & E2 & _); discriminate]).
  change (operand (Js.defined hi)) with hi.
  change (operand (Js.defined lo)) with lo.
  rewrite flag_nil. split.
  - intros H. now exists lo, hi.
  - intros (lo' & hi' & E1 & E2 & H). now injection E1 as <-; injection E2 as <-.
Qed.

Lemma keywordsErrors_nil (q : Question) :
  keywordsErrors q = [] <-> keywordsRule q.
Proof.
  unfold keywordsErrors, keywordsRule. rewrite flag_nil.
  destruct (keywords q) as [| |ks].
  - split; [discriminate | intros (c & E & _); discriminate].
  - split; [discriminate | intros (c & E & _); discriminate].
  - destruct ks; simpl.
    + split; [discriminate |]. intros (ks & E & H). injection E as <-.
      now contradiction H.
    + split; [| reflexivity]. intros _. eexists. split; [reflexivity | discriminate].
Qed.

Lemma variantErrors_nil (q : Question) :
  variantErrors q = [] <-> variantRules singleChoiceCheck numberCheck q.
Proof.
  unfold variantErrors, variantRules.
  destruct (type q) as [| |t].
  - split; [| reflexivity]. intros _. repeat split; discriminate.
  - split; [| reflexivity]. intros _. repeat split; discriminate.
  - destruct (String.eqb_spec t QuestionType.SINGLE_CHOICE) as [-> | N1].
    { rewrite singleChoiceErrors_nil. split.
      - intros H. repeat split; try discriminate. now intros _.
      - intros (H & _). now apply H. }
    destruct (String.eqb_spec t QuestionType.MULTI_CHOICE) as [-> | N2].
    { rewrite multiChoiceErrors_nil. split.
      - intros H. repeat split; try discriminate. now intros _.
      - intros (_ & H & _). now apply H. }
    destruct (String.eqb_spec t QuestionType.NUMBER) as [-> | N3].
    { rewrite numberErrors_nil. split.
      - intros H. repeat split; try discriminate. now intros _.
      - intros (_ & _ & H & _). now apply H. }
    destruct (String.eqb_spec t QuestionType.TEXT) as [-> | N4].
    { rewrite keywordsErrors_nil. split.
      - intros H. repeat split; try discriminate. now intros _.
      - intros (_ & _ & _ & H). now apply H. }
    split; [| reflexivity]. intros _.
    repeat split; intros E; injection E as ->; contradiction.
Qed.

Lemma validateQuestion_nil_checked (q : Question) :
  validateQuestion q = [] -> rulesAsChecked q.
Proof.
  rewrite validateQuestion_split. unfold rulesAsChecked.
  pose proof (commonErrors_nil q) as Hc.
  pose proof (variantErrors_nil q) as Hv.
  intros H. apply app_eq_nil in H as [H1 H2]. tauto.
Qed.

Lemma checked_validateQuestion_nil (q : Question) :
  rulesAsChecked q -> validateQuestion q = [].
Proof.
  rewrite validateQuestion_split. unfold rulesAsChecked.
  pose proof (commonErrors_nil q) as Hc.
  pose proof (variantErrors_nil q) as Hv.
  intros (H1 & H2 & H3 & H4).
  assert (E1 : commonErrors q = []) by tauto.
  assert (E2 : variantErrors q = []) by tauto.
  now rewrite E1, E2.
Qed.

(** C2, as amended: [validateQuestion q] is empty exactly when [q]
    satisfies the rules as the code checks them: the text is non-empty
    after trimming, the type is one of the four variants, the points are
    strictly greater than 0, and for the declared type: a single-choice
    question has a [correctOption] that is present and not the empty
    string and, when [options] is present, is one of them; a multi-choice
    question has [correctOptions] present, non-empty and, when [options] is
    present, all among them; a number question has [min] and [max] present
    with [max < min] false; a text question has [keywords] present and
    non-empty. *)
Theorem validateQuestion_empty_iff_rules (q : Question) :
  validateQuestion q = [] <-> rulesAsChecked q.
Proof.
  split; [apply validateQuestion_nil_checked | apply checked_validateQuestion_nil].
Qed.

(** C2, as stated, fails at two questions: one whose [correctOption] is
    the empty string satisfies the stated rules and is rejected, and one
    whose [min] is [NaN] is accepted though [max >= min] is false. *)
Lemma validateQuestion_rules_as_stated_fail :
  (rulesAsStated Scenarios.emptyCorrectOption
   /\ validateQuestion Scenarios.emptyCorrectOption
      = ["correctOption is required for single_choice type"])
  /\ (validateQuestion Scenarios.nanMin = [] /\ ~ rulesAsStated Scenarios.nanMin).
Proof.
  split; split.
  - repeat split.
    + eexists. split; [reflexivity | discriminate].
    + eexists. split; [reflexivity | simpl; tauto].
    + eexists. split; reflexivity.
    + intros _. exists "". split; [reflexivity |]. intros opts E. discriminate.
    + discriminate.
    + discriminate.
    + discriminate.
  - reflexivity.
  - reflexivity.
  - intros (_ & _ & _ & _ & _ & H & _).
    destruct (H eq_refl) as (lo & hi & E1 & E2 & Hge).
    injection E1 as <-. injection E2 as <-. discriminate.
Qed.

Ltac sublist_of_literals :=
  repeat first
    [ apply sublist_nil | apply sublist_skip | apply sublist_cons ].

Lemma commonErrors_sublist (q : Question) :
  sublist (commonErrors q) commonMessages.
Proof.
  unfold commonErrors, commonMessages, ruleOrder.
  destruct (textFails q), (typeFails q), (pointsFails q); simpl;
    sublist_of_literals.
Qed.

Lemma variantErrors_sublist (q : Question) :
  sublist (variantErrors q) (drop 3 ruleOrder).
Proof.
  unfold variantErrors, singleChoiceErrors, multiChoiceErrors, numberErrors,
    keywordsErrors, ruleOrder.
  destruct (type q) as [| |t];
    [simpl; sublist_of_literals | simpl; sublist_of_literals |].
  repeat match goal with
         | |- context [String.eqb t ?c] => destruct (String.eqb t c)
         end;
    repeat match goal with
           | |- context [flag ?c _] =>
               lazymatch c with
               | true => fail
               | false => fail
               | _ => generalize c; intros []
               end
           end;
    simpl; sublist_of_literals.
Qed.

Lemma variantErrors_unknown (q : Question) :
  ~ typeRule q -> variantErrors q = [].
Proof.
  intros H. unfold variantErrors.
  destruct (type q) as [| |t] eqn:Et; try reflexivity.
  repeat match goal with
         | |- context [String.eqb t ?c] =>
             destruct (String.eqb_spec t c) as [-> | ?]
         end;
    try reflexivity;
    contradiction H; eexists; (split; [eassumption | simpl; tauto]).
Qed.

(** C6: the messages of [validateQuestion q] come in the order in which
    the rules are listed (they form a subsequence of [ruleOrder], whose
    entries are pairwise distinct), and when the type is not one of the
    four variants only messages of rules 1 to 3 are returned. *)
Theorem validateQuestion_order (q : Question) :
  NoDup ruleOrder
  /\ sublist (validateQuestion q) ruleOrder
  /\ (~ typeRule q -> sublist (validateQuestion q) commonMessages).
Proof.
  split; [| split].
  - apply NoDup_ListNoDup. unfold ruleOrder.
    repeat (constructor; [simpl; intuition discriminate |]). constructor.
  - rewrite validateQuestion_split, <- (take_drop 3 ruleOrder).
    apply sublist_app; [apply commonErrors_sublist | apply variantErrors_sublist].
  - intros H. rewrite validateQuestion_split, (variantErrors_unknown q H), app_nil_r.
    apply commonErrors_sublist.
Qed.

Lemma In_commonErrors (q : Question) (e : string) :
  In e (commonErrors q) -> In e commonMessages.
Proof.
  unfold commonErrors, commonMessages, ruleOrder.
  destruct (textFails q), (typeFails q), (pointsFails q); simpl; tauto.
Qed.

Lemma typeRule_of_type (q : Question) (t : string) :
  type q = Js.defined t -> In t QuestionType.values -> typeRule q.
Proof. intros E H. now exists t. Qed.

Lemma variantErrors_single (q : Question) :
  type q = Js.defined QuestionType.SINGLE_CHOICE ->
  variantErrors q = singleChoiceErrors q.
Proof. unfold variantErrors. now intros ->. Qed.

Lemma variantErrors_number (q : Question) :
  type q = Js.defined QuestionType.NUMBER ->
  variantErrors q = numberErrors q.
Proof. unfold variantErrors. now intros ->. Qed.

(** C8: a single-choice question with a non-blank text and positive
    points that has no [correctOption] gets exactly one message, which
    contains "correctOption is required"; a number question with a
    non-blank text, positive points, [min = 5] and [max = 2] gets a
    message containing "max must be greater than or equal to min" and
    neither of the messages for a missing [min] or [max]. *)
Theorem validateQuestion_missing_and_crossed (q : Question) :
  textRule q -> pointsRule q ->
  (type q = Js.defined QuestionType.SINGLE_CHOICE ->
   correctOption q = Js.undefined \/ correctOption q = Js.null ->
   exists e, validateQuestion q = [e]
             /\ Js.stringIncludes e "correctOption is required" = true)
  /\ (type q = Js.defined QuestionType.NUMBER ->
      min q = Js.defined (Js.Fin 5) -> max q = Js.defined (Js.Fin 2) ->
      (exists e, In e (validateQuestion q)
                 /\ Js.stringIncludes e
                      "max must be greater than or equal to min" = true)
      /\ ~ In "min is required for number type" (validateQuestion q)
      /\ ~ In "max is required for number type" (validateQuestion q)).
Proof.
  intros Ht Hp. split.
  - intros Ety Hc.
    assert (Hc0 : commonErrors q = []).
    { apply commonErrors_nil. repeat split; try assumption.
      apply (typeRule_of_type q _ Ety). simpl; tauto. }
    rewrite validateQuestion_split, Hc0, (variantErrors_single q Ety).
    unfold singleChoiceErrors.
    exists "correctOption is required for single_choice type".
    destruct Hc as [-> | ->]; destruct (options q); split; reflexivity.
  - intros Ety Emin Emax.
    assert (Hc0 : commonErrors q = []).
    { apply commonErrors_nil. repeat split; try assumption.
      apply (typeRule_of_type q _ Ety). simpl; tauto. }
    rewrite validateQuestion_split, Hc0, (variantErrors_number q Ety).
    unfold numberErrors. rewrite Emin, Emax. simpl.
    repeat split.
    + eexists. split; [left; reflexivity | reflexivity].
    + intros [H | []]. discriminate.
    + intros [H | []]. discriminate.
Qed.

(** C10: for a single-choice question whose [correctOption] is the empty
    string, [validateQuestion] reports "correctOption is required for
    single_choice type" and never "correctOption must be in options
    list", whatever [options] holds. *)
Theorem validateQuestion_empty_correctOption (q : Question) :
  type q = Js.defined QuestionType.SINGLE_CHOICE ->
  correctOption q = Js.defined "" ->
  In "correctOption is required for single_choice type" (validateQuestion q)
  /\ ~ In "correctOption must be in options list" (validateQuestion q).
Proof.
  intros Ety Ec.
  rewrite validateQuestion_split, (variantErrors_single q Ety).
  assert (Es : singleChoiceErrors q
               = ["correctOption is required for single_choice type"]).
  { unfold singleChoiceErrors. rewrite Ec. now destruct (options q). }
  rewrite Es. split.
  - apply in_or_app. right. now left.
  - intros H. apply in_app_or in H as [H | [H | []]].
    + apply In_commonErrors in H. simpl in H. intuition discriminate.
    + discriminate.
Qed.

(** ** The scoring engine *)

(** *** Arithmetic on counts *)

Lemma ofNat_pos (n : nat) : n <> 0 -> (0 < inject_Z (Z.of_nat n))%Q.
Proof. intros H. unfold Qlt. simpl. lia. Qed.

Lemma ofNat_nonneg (n : nat) : (0 <= inject_Z (Z.of_nat n))%Q.
Proof. unfold Qle. simpl. lia. Qed.

Lemma ofNat_le (i n : nat) :
  i <= n -> (inject_Z (Z.of_nat i) <= inject_Z (Z.of_nat n))%Q.
Proof. intros H. unfold Qle. simpl. lia. Qed.

Lemma ofNat_eq_bool (n : nat) :
  Qeq_bool (inject_Z (Z.of_nat n)) 0 = Nat.eqb n 0.
Proof.
  destruct n as [|n]; [reflexivity |].
  simpl Nat.eqb. apply not_true_iff_false. rewrite Qeq_bool_iff.
  intros H. pose proof (ofNat_pos (S n) ltac:(lia)) as Hp.
  rewrite H in Hp. now apply Qlt_irrefl in Hp.
Qed.

Lemma ratio_bounds (i n : nat) :
  i <= n -> n <> 0 ->
  (0 <= inject_Z (Z.of_nat i) / inject_Z (Z.of_nat n))%Q
  /\ (inject_Z (Z.of_nat i) / inject_Z (Z.of_nat n) <= 1)%Q.
Proof.
  intros Hi Hn. pose proof (ofNat_pos n Hn) as Hp. split.
  - apply Qle_shift_div_l; [assumption |].
    rewrite Qmult_0_l. apply ofNat_nonneg.
  - apply Qle_shift_div_r; [assumption |].
    rewrite Qmult_1_l. now apply ofNat_le.
Qed.

Lemma scaled_bounds (p : Q) (i n : nat) :
  (0 < p)%Q -> i <= n -> n <> 0 ->
  (0 <= p * (inject_Z (Z.of_nat i) / inject_Z (Z.of_nat n)))%Q
  /\ (p * (inject_Z (Z.of_nat i) / inject_Z (Z.of_nat n)) <= p)%Q.
Proof.
  intros Hp Hi Hn. destruct (ratio_bounds i n Hi Hn) as [H0 H1].
  set (r := (inject_Z (Z.of_nat i) / inject_Z (Z.of_nat n))%Q) in *.
  split.
  - apply Qmult_le_0_compat; [now apply Qlt_le_weak | assumption].
  - rewrite <- (Qmult_1_r p) at 2.
    rewrite !(Qmult_comm p). apply Qmult_le_compat_r; [assumption |].
    now apply Qlt_le_weak.
Qed.

(** The bound does not depend on the arithmetic being exact: it holds
    for any rounding of the quotient and of the product that is monotone
    and leaves 0, 1 and the points as they are. *)
Section Rounding.
Variable rnd : Q -> Q.
Hypothesis rnd_monotone : forall x y, (x <= y)%Q -> (rnd x <= rnd y)%Q.
Hypothesis rnd_0 : (rnd 0 == 0)%Q.
Hypothesis rnd_1 : (rnd 1 == 1)%Q.

Lemma scaled_bounds_rounded (p : Q) (i n : nat) :
  (rnd p == p)%Q -> (0 < p)%Q -> i <= n -> n <> 0 ->
  (0 <= rnd (p * rnd (inject_Z (Z.of_nat i) / inject_Z (Z.of_nat n))))%Q
  /\ (rnd (p * rnd (inject_Z (Z.of_nat i) / inject_Z (Z.of_nat n))) <= p)%Q.
Proof.
  intros Ep Hp Hi Hn. destruct (ratio_bounds i n Hi Hn) as [H0 H1].
  set (r := (inject_Z (Z.of_nat i) / inject_Z (Z.of_nat n))%Q) in *.
  assert (R0 : (0 <= rnd r)%Q).
  { rewrite <- rnd_0. now apply rnd_monotone. }
  assert (R1 : (rnd r <= 1)%Q).
  { rewrite <- rnd_1. now apply rnd_monotone. }
  split.
  - rewrite <- rnd_0. apply rnd_monotone.
    apply Qmult_le_0_compat; [now apply Qlt_le_weak | assumption].
  - rewrite <- Ep at 2. apply rnd_monotone.
    rewrite <- (Qmult_1_r p) at 2.
    rewrite !(Qmult_comm p). apply Qmult_le_compat_r; [assumption |].
    now apply Qlt_le_weak.
Qed.
End Rounding.

(** The two ends of the scale.  The quotient of a count by itself is 1
    and the product of a number and 1 is that number; the quotient of 0
    by a count is 0 and the product of a finite number and 0 is 0.  Both
    hold of operations rounded to the nearest value as they do of exact
    ones. *)
Lemma whole_share (p : Js.number) (n : nat) :
  n <> 0 ->
  Js.sameNumber (Js.mul p (Js.div (Js.ofNat n) (Js.ofNat n))) p.
Proof.
  intros Hn. pose proof (ofNat_pos n Hn) as Hp.
  assert (Hn' : ~ (inject_Z (Z.of_nat n) == 0)%Q).
  { intros E. rewrite E in Hp. now apply Qlt_irrefl in Hp. }
  assert (E1 : (inject_Z (Z.of_nat n) / inject_Z (Z.of_nat n) == 1)%Q)
    by (unfold Qdiv; now apply Qmult_inv_r).
  unfold Js.ofNat, Js.div. rewrite ofNat_eq_bool.
  destruct (Nat.eqb_spec n 0) as [E | _]; [contradiction |].
  assert (Hz : Qeq_bool (inject_Z (Z.of_nat n) / inject_Z (Z.of_nat n)) 0
               = false).
  { apply not_true_iff_false. rewrite Qeq_bool_iff, E1. discriminate. }
  assert (Hl : Qle_bool 0 (inject_Z (Z.of_nat n) / inject_Z (Z.of_nat n))
               = true).
  { apply Qle_bool_iff. rewrite E1. discriminate. }
  destruct p as [| | |x]; cbn [Js.mul]; unfold Js.infTimes;
    rewrite ?Hz, ?Hl; cbn.
  - exact I.
  - exact I.
  - exact I.
  - rewrite E1. apply Qmult_1_r.
Qed.

Lemma empty_share (p : Q) (n : nat) :
  n <> 0 ->
  Js.sameNumber (Js.mul (Js.Fin p) (Js.div (Js.ofNat 0) (Js.ofNat n)))
    (Js.Fin 0).
Proof.
  intros Hn. unfold Js.ofNat, Js.div. rewrite ofNat_eq_bool.
  destruct (Nat.eqb_spec n 0) as [E | _]; [contradiction |].
  cbn. unfold Qdiv. now rewrite Qmult_0_l, Qmult_0_r.
Qed.

(** *** The four cases of the [switch] *)

Lemma calculateScore_single (q : Question) (a : Js.value) :
  type q = Js.defined QuestionType.SINGLE_CHOICE ->
  calculateScore q a
  = if Js.strictEq a (Js.ofOptional Js.VString (correctOption q))
    then Js.Normal (pointsValue q) else Js.Normal (Js.VNumber Js.zero).
Proof. unfold calculateScore. now intros ->. Qed.

Lemma calculateScore_multi (q : Question) (elems : list Js.value) :
  type q = Js.defined QuestionType.MULTI_CHOICE ->
  let correctSet :=
    Js.newSet String.eqb (Js.orElse (correctOptions q) []) in
  let answerSet := Js.newSet Js.sameValueZero elems in
  calculateScore q (Js.VArray elems)
  = if Nat.eqb (Js.size correctSet) 0 then Js.Normal (Js.VNumber Js.zero)
    else Js.Normal
           (Js.VNumber
              (Js.mul (operand (points q))
                 (Js.div
                    (Js.ofNat
                       (length
                          (List.filter
                             (fun x =>
                                Js.has Js.sameValueZero answerSet
                                  (Js.VString x))
                             correctSet)))
                    (Js.ofNat (Js.size correctSet))))).
Proof. unfold calculateScore. now intros ->. Qed.

Lemma calculateScore_multi_other (q : Question) (a : Js.value) :
  type q = Js.defined QuestionType.MULTI_CHOICE ->
  (forall elems, a <> Js.VArray elems) ->
  calculateScore q a = Js.Normal (Js.VNumber Js.zero).
Proof.
  unfold calculateScore. intros -> H. simpl.
  destruct a; try reflexivity. now contradiction (H elems).
Qed.

Lemma calculateScore_number (q : Question) (a : Js.value) (v : Js.number) :
  type q = Js.defined QuestionType.NUMBER ->
  Js.ToNumber a = Js.Normal v ->
  calculateScore q a
  = if Js.isNaN v then Js.Normal (Js.VNumber Js.zero)
    else if Js.ge v (lowerBound q) && Js.le v (upperBound q)
         then Js.Normal (pointsValue q)
         else Js.Normal (Js.VNumber Js.zero).
Proof. unfold calculateScore. now intros -> ->. Qed.

Lemma calculateScore_number_throws (q : Question) (a : Js.value) :
  type q = Js.defined QuestionType.NUMBER ->
  Js.ToNumber a = Js.TypeError ->
  calculateScore q a = Js.TypeError.
Proof. unfold calculateScore. now intros -> ->. Qed.

Lemma calculateScore_text (q : Question) (s : string) :
  type q = Js.defined QuestionType.TEXT ->
  calculateScore q (Js.VString s)
  = Js.Normal
      (Js.VNumber
         (Js.mul (operand (points q))
            (Js.div
               (Js.ofNat
                  (length
                     (List.filter
                        (fun keyword =>
                           Js.stringIncludes (Js.toLowerCase s)
                             (Js.toLowerCase keyword))
                        (Js.orElse (keywords q) []))))
               (Js.ofNat
                  match keywords q with
                  | Js.defined ks =>
                      if Nat.eqb (length ks) 0 then 1 else length ks
                  | _ => 1
                  end)))).
Proof. unfold calculateScore. now intros ->. Qed.

Lemma calculateScore_text_other (q : Question) (a : Js.value) :
  type q = Js.defined QuestionType.TEXT ->
  (forall s, a <> Js.VString s) ->
  calculateScore q a = Js.Normal (Js.VNumber Js.zero).
Proof.
  unfold calculateScore. intros -> H. simpl.
  destruct a; try reflexivity. now contradiction (H s).
Qed.

(** *** Sets of strings *)

Lemma string_same_eq (a b : string) : String.eqb a b = true <-> a = b.
Proof. apply String.eqb_eq. Qed.

Lemma correctSet_size (q : Question) :
  Js.size (Js.newSet String.eqb (Js.orElse (correctOptions q) []))
  = size (correctSetOf q).
Proof.
  unfold correctSetOf, Js.size.
  set (cs := Js.orElse (correctOptions q) []).
  rewrite <- (size_list_to_set (C := gset string) (Js.newSet String.eqb cs)).
  - f_equal. apply set_eq. intros x.
    rewrite !elem_of_list_to_set, !list_elem_of_In.
    apply (JsFacts.newSet_In _ string_same_eq).
  - apply NoDup_ListNoDup. apply (JsFacts.newSet_NoDup _ string_same_eq).
Qed.

Lemma intersection_size (q : Question) (elems : list Js.value) :
  length
    (List.filter
       (fun x =>
          Js.has Js.sameValueZero (Js.newSet Js.sameValueZero elems)
            (Js.VString x))
       (Js.newSet String.eqb (Js.orElse (correctOptions q) [])))
  = size (correctSetOf q ∩ answerSetOf elems).
Proof.
  unfold correctSetOf, answerSetOf.
  set (cs := Js.orElse (correctOptions q) []).
  set (f := fun x => Js.has _ _ (Js.VString x)).
  rewrite <- (size_list_to_set (C := gset string)
                (List.filter f (Js.newSet String.eqb cs))).
  - f_equal. apply set_eq. intros x.
    rewrite elem_of_intersection, !elem_of_list_to_set, !list_elem_of_In.
    rewrite filter_In, (JsFacts.newSet_In _ string_same_eq).
    unfold f. now rewrite JsFacts.answerSet_has.
  - apply NoDup_ListNoDup, List.NoDup_filter.
    apply (JsFacts.newSet_NoDup _ string_same_eq).
Qed.

(** C3: for a multi-choice question, an answer that is not an array
    scores 0; for an array, with [correctSet] the set of the
    [correctOptions] and [answerSet] the set of the answer's elements, the
    score is 0 when [correctSet] is empty and otherwise the number
    [points * (|correctSet ∩ answerSet| / |correctSet|)]: the runtime's
    quotient of the two sizes, and then the runtime's product of the
    points and that quotient.  This number is the points themselves when
    [answerSet] holds all of [correctSet], and 0 when it holds none of it
    and the points are finite. *)
Theorem calculateScore_multi_choice (q : Question) :
  type q = Js.defined QuestionType.MULTI_CHOICE ->
  (forall a, (forall elems, a <> Js.VArray elems) ->
             calculateScore q a = Js.Normal (Js.VNumber Js.zero))
  /\ (forall elems,
        let correctSet := correctSetOf q in
        let answerSet := answerSetOf elems in
        let score :=
          proportional q (size (correctSet ∩ answerSet)) (size correctSet) in
        (size correctSet = 0 ->
         calculateScore q (Js.VArray elems) = Js.Normal (Js.VNumber Js.zero))
        /\ (size correctSet <> 0 ->
            calculateScore q (Js.VArray elems)
            = Js.Normal (Js.VNumber score)
            /\ (correctSet ⊆ answerSet ->
                Js.sameNumber score (operand (points q)))
            /\ (correctSet ## answerSet ->
                forall p, points q = Js.defined (Js.Fin p) ->
                          Js.sameNumber score (Js.Fin 0)))).
Proof.
  intros Ety. split.
  - intros a. now apply calculateScore_multi_other.
  - intros elems correctSet answerSet score.
    rewrite (calculateScore_multi q elems Ety). cbv zeta.
    rewrite intersection_size, correctSet_size.
    fold correctSet answerSet. split.
    + now intros ->.
    + intros Hn. destruct (Nat.eqb_spec (size correctSet) 0); [contradiction |].
      split; [reflexivity |]. unfold score, proportional. split.
      * intros Hall.
        assert (E : correctSet ∩ answerSet = correctSet)
          by (apply set_eq; intros x; rewrite elem_of_intersection;
              split; [tauto | auto]).
        rewrite E. now apply whole_share.
      * intros Hnone p Ep.
        assert (E : correctSet ∩ answerSet = ∅).
        { apply set_eq. intros x.
          rewrite elem_of_intersection, elem_of_empty.
          split; [intros [H1 H2]; exact (Hnone x H1 H2) | tauto]. }
        rewrite E, size_empty, Ep. now apply empty_share.
Qed.

(** *** Keywords *)

Lemma matchedCount_filter (answerLower : string) (kws : list string) :
  length
    (List.filter
       (fun keyword => Js.stringIncludes answerLower (Js.toLowerCase keyword))
       kws)
  = matchedCount answerLower kws.
Proof.
  induction kws as [|k kws IH]; simpl; [reflexivity |].
  destruct (Js.stringIncludes answerLower (Js.toLowerCase k)); simpl;
    now rewrite IH.
Qed.

Lemma matchedCount_le (answerLower : string) (kws : list string) :
  matchedCount answerLower kws <= length kws.
Proof.
  induction kws as [|k kws IH]; simpl; [lia |].
  destruct (Js.stringIncludes answerLower (Js.toLowerCase k)); lia.
Qed.

Lemma totalKeywords_eq (q : Question) :
  match keywords q with
  | Js.defined ks => if Nat.eqb (length ks) 0 then 1 else length ks
  | _ => 1
  end = totalKeywordsOf q.
Proof.
  unfold totalKeywordsOf. destruct (keywords q) as [| |ks]; try reflexivity.
  now destruct ks.
Qed.

Lemma totalKeywords_nonzero (q : Question) : totalKeywordsOf q <> 0.
Proof.
  unfold totalKeywordsOf. destruct (Js.orElse (keywords q) []); simpl; lia.
Qed.

(** C5: for a text question and a string answer, the score is the number
    [points * (matchedCount / totalKeywords)], the runtime's quotient of
    the two counts and then its product with the points, where
    [matchedCount] counts, one by one, the keywords whose lower case
    occurs in the lower-cased answer and [totalKeywords] is the number of
    keywords, or 1 when there is none; this number is the points
    themselves when every keyword is counted, and 0 when none is and the
    points are finite.  An answer that is not a string scores 0. *)
Theorem calculateScore_text_keywords (q : Question) :
  type q = Js.defined QuestionType.TEXT ->
  (forall answer,
     let matched :=
       matchedCount (Js.toLowerCase answer) (Js.orElse (keywords q) []) in
     let score := proportional q matched (totalKeywordsOf q) in
     calculateScore q (Js.VString answer) = Js.Normal (Js.VNumber score)
     /\ (matched = totalKeywordsOf q ->
         Js.sameNumber score (operand (points q)))
     /\ (matched = 0 ->
         forall p, points q = Js.defined (Js.Fin p) ->
                   Js.sameNumber score (Js.Fin 0)))
  /\ (forall a, (forall s, a <> Js.VString s) ->
                calculateScore q a = Js.Normal (Js.VNumber Js.zero)).
Proof.
  intros Ety. split.
  - intros answer matched score. unfold score, matched, proportional.
    pose proof (totalKeywords_nonzero q) as Hn. split; [| split].
    + rewrite (calculateScore_text q answer Ety).
      now rewrite matchedCount_filter, totalKeywords_eq.
    + intros ->. now apply whole_share.
    + intros -> p ->. now apply empty_share.
  - intros a. now apply calculateScore_text_other.
Qed.

(** *** Extra elements in a multi-choice answer *)

Lemma existsb_snoc_other (elems : list Js.value) (x : Js.value) (c : string) :
  x <> Js.VString c ->
  existsb (Js.sameValueZero (Js.VString c)) (elems ++ [x])
  = existsb (Js.sameValueZero (Js.VString c)) elems.
Proof.
  intros Hx. rewrite existsb_app. cbn [existsb]. rewrite orb_false_r.
  assert (E : Js.sameValueZero (Js.VString c) x = false).
  { destruct x as [| | b | n | s | l |]; try reflexivity. simpl.
    apply String.eqb_neq. congruence. }
  now rewrite E, orb_false_r.
Qed.

(** C7: for a multi-choice question and an array answer, appending an
    element that is none of the [correctOptions] leaves the score as it
    is. *)
Theorem calculateScore_multi_extra
  (q : Question) (elems : list Js.value) (x : Js.value) :
  type q = Js.defined QuestionType.MULTI_CHOICE ->
  (forall c, In c (Js.orElse (correctOptions q) []) -> x <> Js.VString c) ->
  calculateScore q (Js.VArray (elems ++ [x]))
  = calculateScore q (Js.VArray elems).
Proof.
  intros Ety Hx.
  rewrite !(calculateScore_multi q _ Ety). cbv zeta.
  destruct (Nat.eqb _ 0); [reflexivity |].
  do 6 f_equal. apply filter_ext_in. intros c Hc.
  apply (proj1 (JsFacts.newSet_In _ string_same_eq _ _)) in Hc.
  rewrite !(JsFacts.has_newSet _ JsFacts.sameValueZero_trans).
  apply existsb_snoc_other. now apply Hx.
Qed.

(** *** Number questions *)

Lemma calculateScore_number_cases (q : Question) (a : Js.value) (v : Js.number) :
  type q = Js.defined QuestionType.NUMBER ->
  Js.ToNumber a = Js.Normal v ->
  (v = Js.NaN -> calculateScore q a = Js.Normal (Js.VNumber Js.zero))
  /\ (v <> Js.NaN ->
      (inRange q v -> calculateScore q a = Js.Normal (pointsValue q))
      /\ (~ inRange q v ->
          calculateScore q a = Js.Normal (Js.VNumber Js.zero))).
Proof.
  intros Ety Ev. rewrite (calculateScore_number q a v Ety Ev).
  unfold inRange, Js.ge. split.
  - now intros ->.
  - intros Hn. destruct v as [| | |x]; [contradiction | | |];
      simpl Js.isNaN; cbv iota.
    all: destruct (Js.le (lowerBound q) _), (Js.le _ (upperBound q)); simpl;
      split; intros H; try reflexivity; try (now destruct H);
      contradiction H; now split.
Qed.

(** C4: for a number question the answer is coerced with [Number]; when
    that gives [NaN] the score is 0; otherwise the score is [q.points]
    when [min <= value <= max], bounds included, and 0 when not, with a
    missing [min] read as [-Infinity] and a missing [max] as
    [Infinity]. *)
Theorem calculateScore_number_range
  (q : Question) (a : Js.value) (v : Js.number) :
  type q = Js.defined QuestionType.NUMBER ->
  Js.ToNumber a = Js.Normal v ->
  (lowerBound q = Js.nullish (min q) Js.NegInf
   /\ upperBound q = Js.nullish (max q) Js.PosInf)
  /\ (v = Js.NaN -> calculateScore q a = Js.Normal (Js.VNumber Js.zero))
  /\ (v <> Js.NaN ->
      (inRange q v -> calculateScore q a = Js.Normal (pointsValue q))
      /\ (~ inRange q v ->
          calculateScore q a = Js.Normal (Js.VNumber Js.zero))).
Proof.
  intros Ety Ev. split; [split; reflexivity |].
  now apply calculateScore_number_cases.
Qed.

Lemma isNaN_iff (v : Js.number) : Js.isNaN v = true <-> v = Js.NaN.
Proof. destruct v; simpl; split; intros H; congruence. Qed.

(** C9: for a number question every answer whose coercion is a number
    other than [NaN] is scored by the range, whatever its shape: the
    empty string, the empty array and [null] coerce to 0 and earn
    [q.points] whenever 0 lies within the bounds; an answer whose coercion
    is [NaN] scores 0. *)
Theorem calculateScore_number_coercion (q : Question) :
  type q = Js.defined QuestionType.NUMBER ->
  (forall a v, Js.ToNumber a = Js.Normal v -> Js.isNaN v = false ->
               (inRange q v -> calculateScore q a = Js.Normal (pointsValue q))
               /\ (~ inRange q v ->
                   calculateScore q a = Js.Normal (Js.VNumber Js.zero)))
  /\ (Js.ToNumber (Js.VString "") = Js.Normal (Js.Fin 0)
      /\ Js.ToNumber (Js.VArray []) = Js.Normal (Js.Fin 0)
      /\ Js.ToNumber Js.VNull = Js.Normal (Js.Fin 0))
  /\ (inRange q (Js.Fin 0) ->
      calculateScore q (Js.VString "") = Js.Normal (pointsValue q)
      /\ calculateScore q (Js.VArray []) = Js.Normal (pointsValue q)
      /\ calculateScore q Js.VNull = Js.Normal (pointsValue q))
  /\ (forall a, Js.ToNumber a = Js.Normal Js.NaN ->
                calculateScore q a = Js.Normal (Js.VNumber Js.zero)).
Proof.
  intros Ety.
  assert (Hrange : forall a v,
             Js.ToNumber a = Js.Normal v -> Js.isNaN v = false ->
             (inRange q v -> calculateScore q a = Js.Normal (pointsValue q))
             /\ (~ inRange q v ->
                 calculateScore q a = Js.Normal (Js.VNumber Js.zero))).
  { intros a v Ev Hn.
    apply (calculateScore_number_cases q a v Ety Ev).
    intros E. apply isNaN_iff in E. congruence. }
  split; [exact Hrange |]. split; [repeat split |]. split.
  - intros H0. repeat split.
    + exact (proj1 (Hrange (Js.VString "") (Js.Fin 0) eq_refl eq_refl) H0).
    + exact (proj1 (Hrange (Js.VArray []) (Js.Fin 0) eq_refl eq_refl) H0).
    + exact (proj1 (Hrange Js.VNull (Js.Fin 0) eq_refl eq_refl) H0).
  - intros a Ev.
    exact (proj1 (calculateScore_number_cases q a Js.NaN Ety Ev) eq_refl).
Qed.

(** *** Bounds *)

Lemma le_refl_fin (x : Q) : Js.le (Js.Fin x) (Js.Fin x) = true.
Proof. apply Qle_bool_iff, Qle_refl. Qed.

Lemma scaled_score (p : Q) (i n : nat) :
  (0 < p)%Q -> i <= n -> n <> 0 ->
  exists s, Js.mul (Js.Fin p) (Js.div (Js.ofNat i) (Js.ofNat n)) = s
            /\ Js.le Js.zero s = true /\ Js.le s (Js.Fin p) = true.
Proof.
  intros Hp Hi Hn. unfold Js.ofNat, Js.div.
  rewrite ofNat_eq_bool.
  destruct (Nat.eqb_spec n 0) as [-> | _]; [contradiction |].
  eexists. split; [reflexivity |].
  destruct (scaled_bounds p i n Hp Hi Hn) as [H0 H1].
  split; apply Qle_bool_iff; assumption.
Qed.

Lemma positive_points (q : Question) (p : Q) :
  pointsRule q -> points q = Js.defined (Js.Fin p) -> (0 < p)%Q.
Proof.
  intros (p' & E & H) Ep. rewrite Ep in E. injection E as <-.
  simpl in H. apply negb_true_iff in H.
  apply Qnot_le_lt. intros Hle. apply Qle_bool_iff in Hle. congruence.
Qed.

(** C1, as amended: for a question that passes validation and whose
    points are finite, and for an answer of any shape whose coercion by
    [Number] completes when the question is a number question, the score
    is a number between 0 and the points of the question, both
    included. *)
Theorem calculateScore_bounds (q : Question) (a : Js.value) :
  validateQuestion q = [] ->
  (exists p, points q = Js.defined (Js.Fin p)) ->
  (type q = Js.defined QuestionType.NUMBER ->
   Js.ToNumber a <> Js.TypeError) ->
  scoreWithinPoints q a.
Proof.
  intros Hv [p Ep] Hcoerce. apply validateQuestion_nil_checked in Hv.
  destruct Hv as (_ & (t & Ety & Ht) & Hp & Hs & Hm & Hn & Hk).
  pose proof (positive_points q p Hp Ep) as Hpos.
  assert (Hzero : Js.le Js.zero (Js.Fin p) = true).
  { apply Qle_bool_iff. now apply Qlt_le_weak. }
  assert (Hfull : exists s, Js.Normal (pointsValue q) = Js.Normal (Js.VNumber s)
                            /\ Js.le Js.zero s = true
                            /\ Js.le s (operand (points q)) = true).
  { exists (Js.Fin p). unfold pointsValue. rewrite Ep. simpl.
    repeat split; [assumption | apply le_refl_fin]. }
  assert (Hnone : exists s, Js.Normal (Js.VNumber Js.zero)
                            = Js.Normal (Js.VNumber s)
                            /\ Js.le Js.zero s = true
                            /\ Js.le s (operand (points q)) = true).
  { exists Js.zero. rewrite Ep. simpl. repeat split. exact Hzero. }
  unfold scoreWithinPoints.
  simpl in Ht. destruct Ht as [<- | [<- | [<- | [<- | []]]]].
  - rewrite (calculateScore_single q a Ety).
    now destruct (Js.strictEq a _).
  - destruct (Hm Ety) as (cs & Ecs & Hne & _).
    destruct a as [| | b | n | s | elems | props];
      try (rewrite (calculateScore_multi_other q _ Ety);
           [exact Hnone | discriminate]).
    rewrite (calculateScore_multi q elems Ety). cbv zeta.
    rewrite Ecs. simpl Js.orElse.
    pose proof (JsFacts.newSet_nonempty String.eqb cs Hne) as Hsz.
    destruct (Nat.eqb_spec (Js.size (Js.newSet String.eqb cs)) 0);
      [contradiction |].
    rewrite Ep. change (operand (Js.defined (Js.Fin p))) with (Js.Fin p).
    destruct (scaled_score p
                (length (List.filter
                   (fun x => Js.has Js.sameValueZero
                               (Js.newSet Js.sameValueZero elems)
                               (Js.VString x))
                   (Js.newSet String.eqb cs)))
                (Js.size (Js.newSet String.eqb cs)) Hpos)
      as (s & Es & H0 & H1); [apply filter_length_le | assumption |].
    exists s. rewrite Es. now repeat split.
  - destruct (Js.ToNumber a) as [v |] eqn:Ev;
      [| now contradiction (Hcoerce Ety)].
    rewrite (calculateScore_number q a v Ety Ev).
    destruct (Js.isNaN _); [exact Hnone |].
    now destruct (_ && _).
  - destruct (Hk Ety) as (ks & Eks & Hne).
    destruct a as [| | b | n | s | elems | props];
      try (rewrite (calculateScore_text_other q _ Ety);
           [exact Hnone | discriminate]).
    rewrite (calculateScore_text q s Ety), matchedCount_filter.
    rewrite Eks. simpl Js.orElse.
    assert (El : Nat.eqb (length ks) 0 = false).
    { destruct ks; [contradiction | reflexivity]. }
    rewrite El, Ep. change (operand (Js.defined (Js.Fin p))) with (Js.Fin p).
    destruct (scaled_score p (matchedCount (Js.toLowerCase s) ks) (length ks)
                Hpos) as (r & Er & H0 & H1).
    + apply matchedCount_le.
    + now apply Nat.eqb_neq.
    + exists r. rewrite Er. now repeat split.
Qed.

(** C1, as stated, fails at two inputs.  A question that passes
    validation with infinite points scores [Infinity * 0], which is
    [NaN], on an answer that matches no correct option, and [0 <= NaN] is
    false.  And on a number question that passes validation, the answer
    [{ "toString": 1 }] makes [Number] throw a [TypeError], so that no
    score is returned. *)
Lemma calculateScore_bounds_fail :
  (validateQuestion Scenarios.infinitePoints = []
   /\ calculateScore Scenarios.infinitePoints (Js.VArray [])
      = Js.Normal (Js.VNumber Js.NaN)
   /\ ~ scoreWithinPoints Scenarios.infinitePoints (Js.VArray []))
  /\ (validateQuestion Scenarios.number = []
      /\ calculateScore Scenarios.number Scenarios.objectWithToString
         = Js.TypeError
      /\ ~ scoreWithinPoints Scenarios.number Scenarios.objectWithToString).
Proof.
  split.
  - split; [reflexivity |]. split; [reflexivity |].
    intros (s & E & H0 & _).
    assert (Es : Js.Normal (Js.VNumber Js.NaN) = Js.Normal (Js.VNumber s))
      by exact E.
    injection Es as <-. discriminate.
  - split; [reflexivity |]. split; [reflexivity |].
    intros (s & E & _).
    assert (Es : Js.TypeError = Js.Normal (Js.VNumber s)) by exact E.
    discriminate.
Qed.

(** ** The scenarios of section 8 *)

Ltac scores_by_evaluation :=
  repeat split; eexists; (split; [reflexivity | reflexivity]).

Example scenario_single_choice :
  scores Scenarios.single (Js.VString "4") 10
  /\ scores Scenarios.single (Js.VString "3") 0.
Proof. scores_by_evaluation. Qed.

Example scenario_multi_choice :
  scores Scenarios.multi (Scenarios.strs ["2"; "4"]) 10
  /\ scores Scenarios.multi (Scenarios.strs ["2"]) 5
  /\ scores Scenarios.multi (Scenarios.strs ["2"; "4"; "6"]) 10
  /\ scores Scenarios.multi (Scenarios.strs ["1"; "3"]) 0
  /\ scores Scenarios.multi (Scenarios.strs []) 0.
Proof. scores_by_evaluation. Qed.

Example scenario_number :
  scores Scenarios.number (Scenarios.num 10) 10
  /\ scores Scenarios.number (Scenarios.num 0) 10
  /\ scores Scenarios.number (Scenarios.num 20) 10
  /\ scores Scenarios.number (Scenarios.num 25) 0
  /\ scores Scenarios.number (Scenarios.num (-5)) 0
  /\ scores Scenarios.number (Js.VString "abc") 0.
Proof. scores_by_evaluation. Qed.

Example scenario_text :
  scores Scenarios.skills
    (Js.VString "I know TypeScript, Node.js, and testing") 10
  /\ calculateScore Scenarios.skills
       (Js.VString "Expert in TYPESCRIPT and NODE")
     = Js.Normal (Js.VNumber (proportional Scenarios.skills 2 3))
  /\ calculateScore Scenarios.skills (Js.VString "I love TypeScript")
     = Js.Normal (Js.VNumber (proportional Scenarios.skills 1 3))
  /\ scores Scenarios.skills (Js.VString "I know Java") 0.
Proof.
  split; [eexists; split; reflexivity |].
  split; [reflexivity |]. split; [reflexivity |].
  eexists; split; reflexivity.
Qed.

Example scenario_coercions :
  Js.ToNumber (Js.VString " 42 ") = Js.Normal (Js.Fin 42)
  /\ Js.ToNumber (Js.VString "0x1F") = Js.Normal (Js.Fin 31)
  /\ Js.ToNumber (Js.VString "abc") = Js.Normal Js.NaN
  /\ Js.ToNumber (Js.VString "-Infinity") = Js.Normal Js.NegInf
  /\ Js.ToNumber (Js.VBoolean true) = Js.Normal (Js.Fin 1)
  /\ Js.ToNumber Js.VUndefined = Js.Normal Js.NaN
  /\ Js.ToNumber (Js.VArray [Js.VString "7"]) = Js.Normal (Js.Fin 7)
  /\ Js.ToNumber (Js.VArray [Js.VNumber (Js.Fin 1); Js.VNumber (Js.Fin 2)])
     = Js.Normal Js.NaN
  /\ Js.ToNumber (Js.VObject []) = Js.Normal Js.NaN
  /\ Js.ToNumber Scenarios.objectWithToString = Js.TypeError
  /\ Js.ToNumber (Js.VArray [Scenarios.objectWithToString]) = Js.TypeError.
Proof. repeat split. Qed.

Example scenario_well_formed :
  validateQuestion Scenarios.single = []
  /\ validateQuestion Scenarios.multi = []
  /\ validateQuestion Scenarios.number = []
  /\ validateQuestion Scenarios.skills = [].
Proof. repeat split. Qed.

(** ** The theorems at concrete questions *)

Lemma calculateScore_bounds_witness :
  validateQuestion Scenarios.skills = []
  /\ (exists p, points Scenarios.skills = Js.defined (Js.Fin p))
  /\ (type Scenarios.skills = Js.defined QuestionType.NUMBER ->
      Js.ToNumber (Js.VString "Expert in TYPESCRIPT and NODE")
      <> Js.TypeError)
  /\ scoreWithinPoints Scenarios.skills
       (Js.VString "Expert in TYPESCRIPT and NODE").
Proof.
  assert (Hv : validateQuestion Scenarios.skills = []) by reflexivity.
  assert (Hp : exists p, points Scenarios.skills = Js.defined (Js.Fin p))
    by (eexists; reflexivity).
  assert (Hc : type Scenarios.skills = Js.defined QuestionType.NUMBER ->
               Js.ToNumber (Js.VString "Expert in TYPESCRIPT and NODE")
               <> Js.TypeError)
    by (intros _; simpl; discriminate).
  split; [exact Hv |]. split; [exact Hp |]. split; [exact Hc |].
  exact (calculateScore_bounds Scenarios.skills _ Hv Hp Hc).
Defined.

Lemma validateQuestion_order_witness :
  ~ typeRule (Scenarios.withType "essay" Scenarios.base)
  /\ sublist (validateQuestion (Scenarios.withType "essay" Scenarios.base))
       commonMessages.
Proof.
  assert (H : ~ typeRule (Scenarios.withType "essay" Scenarios.base)).
  { intros (t & E & Ht). injection E as <-. simpl in Ht.
    intuition discriminate. }
  split; [exact H |].
  exact (proj2 (proj2 (validateQuestion_order _)) H).
Defined.

Lemma calculateScore_multi_choice_witness :
  type Scenarios.multi = Js.defined QuestionType.MULTI_CHOICE
  /\ size (correctSetOf Scenarios.multi) <> 0
  /\ calculateScore Scenarios.multi (Scenarios.strs ["2"])
     = Js.Normal
         (Js.VNumber
            (proportional Scenarios.multi
               (size (correctSetOf Scenarios.multi
                      ∩ answerSetOf [Js.VString "2"]))
               (size (correctSetOf Scenarios.multi))))
  /\ size (correctSetOf Scenarios.multi ∩ answerSetOf [Js.VString "2"]) = 1
  /\ size (correctSetOf Scenarios.multi) = 2.
Proof.
  assert (Ht : type Scenarios.multi = Js.defined QuestionType.MULTI_CHOICE)
    by reflexivity.
  assert (Hs : size (correctSetOf Scenarios.multi) <> 0)
    by (vm_compute; lia).
  split; [exact Ht |]. split; [exact Hs |]. split.
  - exact (proj1 (proj2 (proj2 (calculateScore_multi_choice _ Ht)
                           [Js.VString "2"]) Hs)).
  - split; reflexivity.
Defined.

Lemma calculateScore_number_range_witness :
  type Scenarios.number = Js.defined QuestionType.NUMBER
  /\ Js.ToNumber (Scenarios.num 20) = Js.Normal (Js.Fin 20)
  /\ Js.Fin 20 <> Js.NaN
  /\ inRange Scenarios.number (Js.Fin 20)
  /\ calculateScore Scenarios.number (Scenarios.num 20)
     = Js.Normal (pointsValue Scenarios.number).
Proof.
  assert (Ht : type Scenarios.number = Js.defined QuestionType.NUMBER)
    by reflexivity.
  assert (Ev : Js.ToNumber (Scenarios.num 20) = Js.Normal (Js.Fin 20))
    by reflexivity.
  assert (Hn : Js.Fin 20 <> Js.NaN) by discriminate.
  assert (Hr : inRange Scenarios.number (Js.Fin 20))
    by (split; reflexivity).
  split; [exact Ht |]. split; [exact Ev |]. split; [exact Hn |].
  split; [exact Hr |].
  exact (proj1 (proj2 (proj2 (calculateScore_number_range _ _ _ Ht Ev)) Hn)
           Hr).
Defined.

Lemma calculateScore_text_keywords_witness :
  type Scenarios.skills = Js.defined QuestionType.TEXT
  /\ calculateScore Scenarios.skills
       (Js.VString "I know TypeScript, Node.js, and testing")
     = Js.Normal (Js.VNumber (proportional Scenarios.skills 3 3))
  /\ Js.sameNumber (proportional Scenarios.skills 3 3) (Js.Fin 10).
Proof.
  assert (Ht : type Scenarios.skills = Js.defined QuestionType.TEXT)
    by reflexivity.
  split; [exact Ht |].
  destruct (proj1 (calculateScore_text_keywords _ Ht)
              "I know TypeScript, Node.js, and testing")
    as (Hscore & Hall & _).
  split; [exact Hscore | exact (Hall eq_refl)].
Defined.

Lemma calculateScore_multi_extra_witness :
  type Scenarios.multi = Js.defined QuestionType.MULTI_CHOICE
  /\ (forall c, In c (Js.orElse (correctOptions Scenarios.multi) []) ->
                Js.VString "6" <> Js.VString c)
  /\ calculateScore Scenarios.multi (Scenarios.strs ["2"; "4"; "6"])
     = calculateScore Scenarios.multi (Scenarios.strs ["2"; "4"]).
Proof.
  assert (Ht : type Scenarios.multi = Js.defined QuestionType.MULTI_CHOICE)
    by reflexivity.
  assert (Hx : forall c, In c (Js.orElse (correctOptions Scenarios.multi) []) ->
                         Js.VString "6" <> Js.VString c).
  { simpl. intros c [<- | [<- | []]]; discriminate. }
  split; [exact Ht |]. split; [exact Hx |].
  exact (calculateScore_multi_extra Scenarios.multi
           (map Js.VString ["2"; "4"]) (Js.VString "6") Ht Hx).
Defined.

Lemma validateQuestion_missing_and_crossed_witness :
  (textRule (Scenarios.withType "single_choice" Scenarios.base)
   /\ pointsRule (Scenarios.withType "single_choice" Scenarios.base)
   /\ exists e,
        validateQuestion (Scenarios.withType "single_choice" Scenarios.base)
        = [e]
        /\ Js.stringIncludes e "correctOption is required" = true)
  /\ (textRule Scenarios.crossedBounds
      /\ pointsRule Scenarios.crossedBounds
      /\ (exists e,
            In e (validateQuestion Scenarios.crossedBounds)
            /\ Js.stringIncludes e
                 "max must be greater than or equal to min" = true)
      /\ ~ In "min is required for number type"
             (validateQuestion Scenarios.crossedBounds)
      /\ ~ In "max is required for number type"
             (validateQuestion Scenarios.crossedBounds)).
Proof.
  assert (Ht : textRule (Scenarios.withType "single_choice" Scenarios.base))
    by (eexists; split; [reflexivity | simpl; discriminate]).
  assert (Hp : pointsRule (Scenarios.withType "single_choice" Scenarios.base))
    by (eexists; split; reflexivity).
  assert (Ht' : textRule Scenarios.crossedBounds)
    by (eexists; split; [reflexivity | simpl; discriminate]).
  assert (Hp' : pointsRule Scenarios.crossedBounds)
    by (eexists; split; reflexivity).
  split.
  - split; [exact Ht |]. split; [exact Hp |].
    exact (proj1 (validateQuestion_missing_and_crossed _ Ht Hp)
             eq_refl (or_introl eq_refl)).
  - split; [exact Ht' |]. split; [exact Hp' |].
    exact (proj2 (validateQuestion_missing_and_crossed _ Ht' Hp')
             eq_refl eq_refl eq_refl).
Defined.

Lemma calculateScore_number_coercion_witness :
  type Scenarios.number = Js.defined QuestionType.NUMBER
  /\ inRange Scenarios.number (Js.Fin 0)
  /\ calculateScore Scenarios.number (Js.VString "")
     = Js.Normal (pointsValue Scenarios.number)
  /\ calculateScore Scenarios.number (Js.VArray [])
     = Js.Normal (pointsValue Scenarios.number)
  /\ calculateScore Scenarios.number Js.VNull
     = Js.Normal (pointsValue Scenarios.number).
Proof.
  assert (Ht : type Scenarios.number = Js.defined QuestionType.NUMBER)
    by reflexivity.
  assert (Hr : inRange Scenarios.number (Js.Fin 0)) by (split; reflexivity).
  split; [exact Ht |]. split; [exact Hr |].
  exact (proj1 (proj2 (proj2 (calculateScore_number_coercion _ Ht))) Hr).
Defined.

Lemma validateQuestion_empty_correctOption_witness :
  type Scenarios.emptyCorrectOption
  = Js.defined QuestionType.SINGLE_CHOICE
  /\ correctOption Scenarios.emptyCorrectOption = Js.defined ""
  /\ In "correctOption is required for single_choice type"
       (validateQuestion Scenarios.emptyCorrectOption)
  /\ ~ In "correctOption must be in options list"
         (validateQuestion Scenarios.emptyCorrectOption).
Proof.
  split; [reflexivity |]. split; [reflexivity |].
  exact (validateQuestion_empty_correctOption Scenarios.emptyCorrectOption
           eq_refl eq_refl).
Defined.

(** ** Maps *)

Module MapFacts.
Section MapFacts.
Context {V : Type}.
Implicit Types (m : list (string * V)) (v : V).

Lemma mapGet_mapSet_eq m key v :
  JsMore.mapGet (JsMore.mapSet m key v) key = Some v.
Proof.
  induction m as [|[k v'] m IH]; simpl.
  - now rewrite String.eqb_refl.
  - destruct (String.eqb_spec k key) as [-> | N]; simpl.
    + now rewrite String.eqb_refl.
    + destruct (String.eqb_spec k key); [contradiction | assumption].
Qed.

Lemma mapGet_mapSet_ne m key key' v :
  key <> key' ->
  JsMore.mapGet (JsMore.mapSet m key v) key' = JsMore.mapGet m key'.
Proof.
  intros N. induction m as [|[k v'] m IH]; simpl.
  - destruct (String.eqb_spec key key'); [contradiction | reflexivity].
  - destruct (String.eqb_spec k key) as [-> | Nk]; simpl.
    + destruct (String.eqb_spec key key'); [contradiction | reflexivity].
    + now rewrite IH.
Qed.

Lemma mapSet_fresh m key v :
  JsMore.mapGet m key = None -> JsMore.mapSet m key v = m ++ [(key, v)].
Proof.
  induction m as [|[k v'] m IH]; simpl; [reflexivity |].
  destruct (String.eqb k key); [discriminate |].
  intros H. now rewrite IH.
Qed.

Lemma mapGet_In m key v : JsMore.mapGet m key = Some v -> In (key, v) m.
Proof.
  induction m as [|[k v'] m IH]; simpl; [discriminate |].
  destruct (String.eqb_spec k key) as [-> | N].
  - intros E. injection E as ->. now left.
  - intros H. right. now apply IH.
Qed.

Lemma mapGet_None m key :
  JsMore.mapGet m key = None <-> ~ In key (map fst m).
Proof.
  induction m as [|[k v'] m IH]; simpl; [tauto |].
  destruct (String.eqb_spec k key) as [-> | N].
  - split; [discriminate | intros H; contradiction H; now left].
  - rewrite IH. tauto.
Qed.

Lemma In_mapSet m key v k' v' :
  In (k', v') (JsMore.mapSet m key v) ->
  (k' = key /\ v' = v) \/ In (k', v') m.
Proof.
  induction m as [|[k u] m IH]; simpl.
  - intros [E | []]. injection E as <- <-. now left.
  - destruct (String.eqb_spec k key) as [-> | N]; simpl.
    + intros [E | H]; [injection E as <- <-; now left | right; now right].
    + intros [E | H]; [right; now left |].
      destruct (IH H) as [? | ?]; [now left | right; now right].
Qed.

Lemma keys_mapSet m key v (x : string) :
  In x (map fst (JsMore.mapSet m key v)) <-> x = key \/ In x (map fst m).
Proof.
  induction m as [|[k u] m IH]; simpl.
  - intuition congruence.
  - destruct (String.eqb_spec k key) as [-> | N]; simpl.
    + intuition congruence.
    + rewrite IH. intuition congruence.
Qed.

Lemma keys_newMap_from (entries m : list (string * V)) (x : string) :
  In x (map fst (fold_left (fun m kv => JsMore.mapSet m (fst kv) (snd kv))
                   entries m))
  <-> In x (map fst m) \/ In x (map fst entries).
Proof.
  revert m. induction entries as [|[k v] entries IH]; intros m; simpl.
  - tauto.
  - rewrite IH, keys_mapSet. intuition congruence.
Qed.

Lemma keys_newMap (entries : list (string * V)) (x : string) :
  In x (map fst (JsMore.newMap entries)) <-> In x (map fst entries).
Proof. unfold JsMore.newMap. rewrite keys_newMap_from. simpl. tauto. Qed.

Lemma values_newMap_from (entries m : list (string * V)) key v :
  JsMore.mapGet
    (fold_left (fun m kv => JsMore.mapSet m (fst kv) (snd kv)) entries m) key
  = Some v ->
  In (key, v) m \/ In (key, v) entries.
Proof.
  revert m. induction entries as [|[k u] entries IH]; intros m; simpl.
  - intros H. left. now apply mapGet_In.
  - intros H. destruct (IH _ H) as [Hin | Hin]; [| right; now right].
    destruct (In_mapSet _ _ _ _ _ Hin) as [[-> ->] | Hm];
      [right; now left | now left].
Qed.

Lemma values_newMap (entries : list (string * V)) key v :
  JsMore.mapGet (JsMore.newMap entries) key = Some v -> In (key, v) entries.
Proof.
  intros H. destruct (values_newMap_from entries [] key v H) as [[] | H'].
  exact H'.
Qed.

End MapFacts.
End MapFacts.

(** ** The job routes *)

Lemma fold_left_push (f : string -> string) (errors acc : list string) :
  fold_left (fun acc err => push acc (f err)) errors acc
  = acc ++ map f errors.
Proof.
  revert acc. induction errors as [|e errors IH]; intros acc; simpl.
  - now rewrite app_nil_r.
  - rewrite IH. unfold push. now rewrite <- app_assoc.
Qed.

Lemma collectQuestionErrors_cons
  (idx : nat) (q : Question) (rest : list Question) (acc : list string) :
  collectQuestionErrors idx (q :: rest) acc
  = collectQuestionErrors (S idx) rest
      (acc ++ map (labelled idx) (validateQuestion q)).
Proof.
  simpl. f_equal.
  exact (fold_left_push (labelled idx) (validateQuestion q) acc).
Qed.

Lemma collectQuestionErrors_app
  (idx : nat) (questions : list Question) (acc : list string) :
  collectQuestionErrors idx questions acc
  = acc ++ collectQuestionErrors idx questions [].
Proof.
  revert idx acc. induction questions as [|q rest IH]; intros idx acc.
  - simpl. now rewrite app_nil_r.
  - rewrite !collectQuestionErrors_cons. rewrite IH.
    rewrite (IH (S idx) ([] ++ _)). simpl. now rewrite app_assoc.
Qed.

Lemma collectQuestionErrors_step
  (idx : nat) (q : Question) (rest : list Question) :
  collectQuestionErrors idx (q :: rest) []
  = map (labelled idx) (validateQuestion q)
    ++ collectQuestionErrors (S idx) rest [].
Proof.
  rewrite collectQuestionErrors_cons. simpl. apply collectQuestionErrors_app.
Qed.

Lemma collectQuestionErrors_nil (idx : nat) (questions : list Question) :
  collectQuestionErrors idx questions [] = [] <-> Forall accepted questions.
Proof.
  revert idx. induction questions as [|q rest IH]; intros idx.
  - simpl. split; [constructor | reflexivity].
  - rewrite collectQuestionErrors_step. split.
    + intros H. apply app_eq_nil in H as [H1 H2].
      apply map_eq_nil in H1. constructor; [exact H1 | now apply (IH (S idx))].
    + intros H. inversion H as [|? ? Hq Hrest]; subst.
      unfold accepted in Hq. rewrite Hq. simpl. now apply IH.
Qed.

Lemma collectQuestionErrors_In
  (idx : nat) (questions : list Question) (m : string) :
  In m (collectQuestionErrors idx questions [])
  <-> exists k q e, nth_error questions k = Some q
                    /\ In e (validateQuestion q)
                    /\ m = labelled (idx + k) e.
Proof.
  revert idx. induction questions as [|q rest IH]; intros idx.
  - simpl. split; [intros [] |].
    intros (k & q & e & H & _). now destruct k.
  - rewrite collectQuestionErrors_step, in_app_iff, in_map_iff, IH. split.
    + intros [(e & <- & He) | (k & q' & e & Hk & He & ->)].
      * exists 0, q, e. rewrite Nat.add_0_r. now repeat split.
      * exists (S k), q', e. rewrite Nat.add_succ_r. now repeat split.
    + intros (k & q' & e & Hk & He & ->). destruct k as [|k]; simpl in Hk.
      * injection Hk as <-. left. exists e. rewrite Nat.add_0_r. now split.
      * right. exists k, q', e. rewrite Nat.add_succ_r. now repeat split.
Qed.

Lemma collectQuestionErrors_length (idx : nat) (questions : list Question) :
  length (collectQuestionErrors idx questions [])
  = list_sum (map (fun q => length (validateQuestion q)) questions).
Proof.
  revert idx. induction questions as [|q rest IH]; intros idx; [reflexivity |].
  rewrite collectQuestionErrors_step, length_app, length_map, IH.
  reflexivity.
Qed.

Lemma world_eta (w : World) :
  {| jobsStore := jobsStore w; applicationsStore := applicationsStore w;
     uuidSource := uuidSource w; uuidCount := uuidCount w |} = w.
Proof. now destruct w. Qed.

Lemma assignIds_run (questions : list Question) (w : World) :
  exists stored,
    assignIds questions w
    = (Done stored,
       {| jobsStore := jobsStore w; applicationsStore := applicationsStore w;
          uuidSource := uuidSource w;
          uuidCount := uuidCount w + length questions |})
    /\ map StoredQuestion.fields stored = questions
    /\ map StoredQuestion.id stored
       = drawn (uuidSource w) (uuidCount w) (length questions).
Proof.
  revert w. induction questions as [|q rest IH]; intros w.
  - exists []. simpl. rewrite Nat.add_0_r, world_eta. now repeat split.
  - simpl assignIds. unfold andThen at 1. unfold uuidv4 at 1.
    unfold andThen at 1.
    destruct (IH {| jobsStore := jobsStore w;
                    applicationsStore := applicationsStore w;
                    uuidSource := uuidSource w;
                    uuidCount := S (uuidCount w) |})
      as (stored & Erun & Ef & Ei).
    rewrite Erun. cbn [jobsStore applicationsStore uuidSource uuidCount] in *.
    eexists. unfold ret. split; [| split].
    + f_equal. f_equal. simpl. lia.
    + simpl. now rewrite Ef.
    + simpl. unfold drawn in *. simpl. now rewrite Ei.
Qed.

(** What the job route does with a request whose questions all pass. *)
Lemma createJob_run (dto : CreateJobDto.t) (now : Z) (w : World) :
  Forall accepted (CreateJobDto.questions dto) ->
  exists job,
    createJob dto now w
    = (Done (json 201 (JobBody job)),
       {| jobsStore := JsMore.mapSet (jobsStore w) (Job.id job) job;
          applicationsStore := applicationsStore w;
          uuidSource := uuidSource w;
          uuidCount :=
            S (uuidCount w) + length (CreateJobDto.questions dto) |})
    /\ Job.id job = uuidSource w (uuidCount w)
    /\ map StoredQuestion.fields (Job.questions job)
       = CreateJobDto.questions dto
    /\ map StoredQuestion.id (Job.questions job)
       = drawn (uuidSource w) (S (uuidCount w))
           (length (CreateJobDto.questions dto))
    /\ (Job.title job, Job.location job, Job.customer job, Job.jobName job,
        Job.description job, Job.createdAt job)
       = (CreateJobDto.title dto, CreateJobDto.location dto,
          CreateJobDto.customer dto, CreateJobDto.jobName dto,
          CreateJobDto.description dto, now).
Proof.
  intros Hq. unfold createJob.
  apply (collectQuestionErrors_nil 0) in Hq. rewrite Hq.
  change (Nat.ltb 0 (@length string [])) with false. cbv iota.
  unfold andThen at 1. unfold uuidv4 at 1. unfold andThen at 1.
  destruct (assignIds_run (CreateJobDto.questions dto)
              {| jobsStore := jobsStore w;
                 applicationsStore := applicationsStore w;
                 uuidSource := uuidSource w;
                 uuidCount := S (uuidCount w) |})
    as (stored & Erun & Ef & Ei).
  rewrite Erun. cbn [jobsStore applicationsStore uuidSource uuidCount] in *.
  eexists. split; [reflexivity |]. now repeat split.
Qed.

Lemma createJob_reject (dto : CreateJobDto.t) (now : Z) (w : World) :
  ~ Forall accepted (CreateJobDto.questions dto) ->
  collectQuestionErrors 0 (CreateJobDto.questions dto) [] <> []
  /\ createJob dto now w
     = (Thrown
          (ValidationError
             (collectQuestionErrors 0 (CreateJobDto.questions dto) [])),
        w).
Proof.
  intros Hq. rewrite <- (collectQuestionErrors_nil 0) in Hq.
  split; [exact Hq |]. unfold createJob.
  destruct (collectQuestionErrors 0 (CreateJobDto.questions dto) []);
    [contradiction | reflexivity].
Qed.

Lemma accepted_dec (questions : list Question) :
  {Forall accepted questions} + {~ Forall accepted questions}.
Proof.
  apply Forall_dec. intros q. unfold accepted.
  destruct (validateQuestion q); [now left | right; discriminate].
Qed.

(** X1: [POST /api/jobs] answers 201 exactly when every question of the
    request passes [validateQuestion]; when one does not, it answers 400
    with the error [Validation failed] and at least one detail, and
    leaves the stores and the source of ids as they were. *)
Theorem createJob_status (dto : CreateJobDto.t) (now : Z) (w : World) :
  (Forall accepted (CreateJobDto.questions dto)
   <-> status (fst (handle (PostJob dto now) w)) = 201)
  /\ (~ Forall accepted (CreateJobDto.questions dto) ->
      exists details,
        details <> []
        /\ handle (PostJob dto now) w
           = (json 400 (ValidationBody "Validation failed" details), w)).
Proof.
  assert (Hrej : ~ Forall accepted (CreateJobDto.questions dto) ->
            exists details,
              details <> []
              /\ handle (PostJob dto now) w
                 = (json 400 (ValidationBody "Validation failed" details), w)).
  { intros Hq. destruct (createJob_reject dto now w Hq) as [Hne Erun].
    eexists. split; [exact Hne |].
    unfold handle, asyncHandler. now rewrite Erun. }
  split; [| exact Hrej]. split.
  - intros Hq. destruct (createJob_run dto now w Hq) as (job & Erun & _).
    unfold handle, asyncHandler. now rewrite Erun.
  - intros Hs. destruct (accepted_dec (CreateJobDto.questions dto)) as [H | H];
      [exact H |].
    destruct (Hrej H) as (details & _ & E). rewrite E in Hs. discriminate.
Qed.

(** X2: the details of a rejected job name every error of every
    question, and nothing else: a detail is the text [Question k: e]
    where [e] is a message of [validateQuestion] for the question at
    position [k] of the request, counted from 1; their number is the
    total number of messages. *)
Theorem createJob_details
  (dto : CreateJobDto.t) (now : Z) (w : World) (details : list string) :
  body (fst (handle (PostJob dto now) w))
  = ValidationBody "Validation failed" details ->
  (forall m,
     In m details
     <-> exists k q e,
           nth_error (CreateJobDto.questions dto) k = Some q
           /\ In e (validateQuestion q)
           /\ m = ("Question " ++ JsMore.natToString (k + 1) ++ ": " ++ e)
                   %string)
  /\ length details
     = list_sum (map (fun q => length (validateQuestion q))
                   (CreateJobDto.questions dto)).
Proof.
  intros Hb.
  assert (E : details
              = collectQuestionErrors 0 (CreateJobDto.questions dto) []).
  { destruct (accepted_dec (CreateJobDto.questions dto)) as [H | H].
    - destruct (createJob_run dto now w H) as (job & Erun & _).
      unfold handle, asyncHandler in Hb. rewrite Erun in Hb. discriminate.
    - destruct (createJob_reject dto now w H) as [_ Erun].
      unfold handle, asyncHandler in Hb. rewrite Erun in Hb.
      simpl in Hb. now injection Hb as <-. }
  subst details. split.
  - intros m. apply (collectQuestionErrors_In 0).
  - apply collectQuestionErrors_length.
Qed.

Lemma createJob_created
  (dto : CreateJobDto.t) (now : Z) (w : World) (job : Job.t) :
  fst (handle (PostJob dto now) w) = json 201 (JobBody job) ->
  handle (PostJob dto now) w
  = (json 201 (JobBody job),
     {| jobsStore := JsMore.mapSet (jobsStore w) (Job.id job) job;
        applicationsStore := applicationsStore w;
        uuidSource := uuidSource w;
        uuidCount := S (uuidCount w) + length (CreateJobDto.questions dto) |})
  /\ Forall accepted (CreateJobDto.questions dto)
  /\ Job.id job = uuidSource w (uuidCount w)
  /\ map StoredQuestion.fields (Job.questions job)
     = CreateJobDto.questions dto
  /\ map StoredQuestion.id (Job.questions job)
     = drawn (uuidSource w) (S (uuidCount w))
         (length (CreateJobDto.questions dto))
  /\ (Job.title job, Job.location job, Job.customer job, Job.jobName job,
      Job.description job, Job.createdAt job)
     = (CreateJobDto.title dto, CreateJobDto.location dto,
        CreateJobDto.customer dto, CreateJobDto.jobName dto,
        CreateJobDto.description dto, now).
Proof.
  intros Hr.
  destruct (accepted_dec (CreateJobDto.questions dto)) as [H | H].
  - destruct (createJob_run dto now w H) as (job' & Erun & Hrest).
    unfold handle, asyncHandler in *. rewrite Erun in *. simpl in Hr.
    injection Hr as <-. now split.
  - destruct (createJob_reject dto now w H) as [_ Erun].
    unfold handle, asyncHandler in Hr. rewrite Erun in Hr. discriminate.
Qed.

Lemma drawn_NoDup (source : nat -> string) (c n : nat) :
  (forall i j, source i = source j -> i = j) ->
  List.NoDup (drawn source c n).
Proof.
  intros Hinj. unfold drawn.
  generalize (List.seq_NoDup n c).
  induction (seq c n) as [|i l IH]; intros Hnd; simpl; [constructor |].
  inversion Hnd as [|? ? Hi Hl]; subst. constructor; [| now apply IH].
  rewrite in_map_iff. intros (j & E & Hj). apply Hinj in E. now subst.
Qed.

(** X3: the job that [POST /api/jobs] creates holds the questions of the
    request, in their order and with their fields untouched, takes its
    own id from the first [uuidv4()] and the ids of its questions from
    the following ones, copies the other fields of the request, and is
    dated [now]; when [uuidv4()] never repeats a value, the ids of the job
    and of its questions are pairwise distinct. *)
Theorem createJob_job
  (dto : CreateJobDto.t) (now : Z) (w : World) (job : Job.t) :
  fst (handle (PostJob dto now) w) = json 201 (JobBody job) ->
  map StoredQuestion.fields (Job.questions job) = CreateJobDto.questions dto
  /\ Job.id job = uuidSource w (uuidCount w)
  /\ map StoredQuestion.id (Job.questions job)
     = drawn (uuidSource w) (S (uuidCount w))
         (length (CreateJobDto.questions dto))
  /\ (Job.title job, Job.location job, Job.customer job, Job.jobName job,
      Job.description job, Job.createdAt job)
     = (CreateJobDto.title dto, CreateJobDto.location dto,
        CreateJobDto.customer dto, CreateJobDto.jobName dto,
        CreateJobDto.description dto, now)
  /\ ((forall i j, uuidSource w i = uuidSource w j -> i = j) ->
      List.NoDup (Job.id job :: map StoredQuestion.id (Job.questions job))).
Proof.
  intros Hr.
  destruct (createJob_created dto now w job Hr)
    as (_ & _ & Hid & Hf & Hi & Hc).
  repeat split; try assumption.
  intros Hinj. rewrite Hid, Hi.
  exact (drawn_NoDup (uuidSource w) (uuidCount w)
           (S (length (CreateJobDto.questions dto))) Hinj).
Qed.

(** X4: a job that was created can be read back: after a 201 answer,
    [GET /api/jobs/:id] with the id of the job answers 200 with that very
    job, and for any other id it answers what it answered before. *)
Theorem createJob_getJob
  (dto : CreateJobDto.t) (now : Z) (w : World) (job : Job.t) :
  fst (handle (PostJob dto now) w) = json 201 (JobBody job) ->
  fst (handle (GetJob (Job.id job)) (snd (handle (PostJob dto now) w)))
  = json 200 (JobBody job)
  /\ forall id,
       id <> Job.id job ->
       fst (handle (GetJob id) (snd (handle (PostJob dto now) w)))
       = fst (handle (GetJob id) w).
Proof.
  intros Hr. destruct (createJob_created dto now w job Hr) as (Erun & _).
  rewrite Erun. unfold handle, asyncHandler, getJob, andThen, getStores. simpl.
  split.
  - now rewrite MapFacts.mapGet_mapSet_eq.
  - intros id Hne. rewrite MapFacts.mapGet_mapSet_ne by congruence.
    now destruct (JsMore.mapGet (jobsStore w) id).
Qed.

(** X5: [GET /api/jobs] lists the jobs in the order of their creation:
    after a 201 answer for a job whose id was not in use, the list is
    the former list followed by the new job. *)
Theorem createJob_listJobs
  (dto : CreateJobDto.t) (now : Z) (w : World) (job : Job.t) :
  fst (handle (PostJob dto now) w) = json 201 (JobBody job) ->
  JsMore.mapGet (jobsStore w) (uuidSource w (uuidCount w)) = None ->
  fst (handle GetJobs (snd (handle (PostJob dto now) w)))
  = json 200 (JobsBody (JsMore.mapValues (jobsStore w) ++ [job])).
Proof.
  intros Hr Hfresh.
  destruct (createJob_created dto now w job Hr) as (Erun & _ & Hid & _).
  rewrite Erun. unfold handle, asyncHandler, listJobs, andThen, getStores.
  simpl. rewrite Hid, (MapFacts.mapSet_fresh _ _ _ Hfresh).
  unfold JsMore.mapValues. now rewrite map_app.
Qed.

(** ** The application routes *)

Lemma idSet_NoDup (ids : list string) : List.NoDup (Js.newSet String.eqb ids).
Proof. apply (JsFacts.newSet_NoDup _ string_same_eq). Qed.

Lemma idSet_In (ids : list string) (x : string) :
  In x (Js.newSet String.eqb ids) <-> In x ids.
Proof. apply (JsFacts.newSet_In _ string_same_eq). Qed.

Lemma idSet_has (ids : list string) (x : string) :
  Js.has String.eqb (Js.newSet String.eqb ids) x = true <-> In x ids.
Proof.
  rewrite (JsFacts.has_In _ string_same_eq). apply idSet_In.
Qed.

Lemma idSet_lacks (ids : list string) (x : string) :
  negb (Js.has String.eqb (Js.newSet String.eqb ids) x) = true
  <-> ~ In x ids.
Proof.
  rewrite negb_true_iff, <- idSet_has.
  destruct (Js.has _ _ x); split; intros H; congruence.
Qed.

Lemma missingIdsOf_In (job : Job.t) (answers : list Answer.t) (x : string) :
  In x (missingIdsOf job answers)
  <-> In x (map StoredQuestion.id (Job.questions job))
      /\ ~ In x (map Answer.questionId answers).
Proof.
  unfold missingIdsOf. now rewrite filter_In, idSet_In, idSet_lacks.
Qed.

Lemma extraIdsOf_In (job : Job.t) (answers : list Answer.t) (x : string) :
  In x (extraIdsOf job answers)
  <-> In x (map Answer.questionId answers)
      /\ ~ In x (map StoredQuestion.id (Job.questions job)).
Proof.
  unfold extraIdsOf. now rewrite filter_In, idSet_In, idSet_lacks.
Qed.

Lemma nil_iff_no_member {A : Type} (l : list A) :
  l = [] <-> forall x, ~ In x l.
Proof.
  split.
  - intros -> x [].
  - intros H. destruct l as [|a l]; [reflexivity |].
    contradiction (H a). now left.
Qed.

Lemma missingIdsOf_set (job : Job.t) (answers : list Answer.t) (x : string) :
  In x (missingIdsOf job answers)
  <-> x ∈ requiredSet job ∖ answeredSet answers.
Proof.
  unfold requiredSet, answeredSet.
  rewrite missingIdsOf_In, elem_of_difference, !elem_of_list_to_set,
    !list_elem_of_In. tauto.
Qed.

Lemma extraIdsOf_set (job : Job.t) (answers : list Answer.t) (x : string) :
  In x (extraIdsOf job answers)
  <-> x ∈ answeredSet answers ∖ requiredSet job.
Proof.
  unfold requiredSet, answeredSet.
  rewrite extraIdsOf_In, elem_of_difference, !elem_of_list_to_set,
    !list_elem_of_In. tauto.
Qed.

Lemma idCheck_empty_iff (job : Job.t) (answers : list Answer.t) :
  missingIdsOf job answers = [] /\ extraIdsOf job answers = []
  <-> answeredSet answers = requiredSet job.
Proof.
  rewrite !nil_iff_no_member. split.
  - intros [H1 H2]. apply set_eq. intros x. split; intros Hx.
    + destruct (decide (x ∈ requiredSet job)) as [Hr | Hr]; [exact Hr |].
      contradiction (H2 x). apply extraIdsOf_set, elem_of_difference.
      now split.
    + destruct (decide (x ∈ answeredSet answers)) as [Ha | Ha]; [exact Ha |].
      contradiction (H1 x). apply missingIdsOf_set, elem_of_difference.
      now split.
  - intros E. split; intros x Hx.
    + apply missingIdsOf_set, elem_of_difference in Hx as [Hr Ha].
      rewrite E in Ha. contradiction.
    + apply extraIdsOf_set, elem_of_difference in Hx as [Ha Hr].
      rewrite E in Ha. contradiction.
Qed.

(** X6: the id check of [POST /api/applications].  [missingIds] holds,
    once each, the ids of the job's questions that no answer names, and
    [extraIds], once each, the ids named by answers that are no id of a
    question of the job; both are empty exactly when the set of answered
    ids is the set of question ids, so that an answer given twice to the
    same question goes unnoticed. *)
Theorem submitApplication_id_check (job : Job.t) (answers : list Answer.t) :
  (List.NoDup (missingIdsOf job answers)
   /\ forall x, In x (missingIdsOf job answers)
                <-> x ∈ requiredSet job ∖ answeredSet answers)
  /\ (List.NoDup (extraIdsOf job answers)
      /\ forall x, In x (extraIdsOf job answers)
                   <-> x ∈ answeredSet answers ∖ requiredSet job)
  /\ (missingIdsOf job answers = [] /\ extraIdsOf job answers = []
      <-> answeredSet answers = requiredSet job).
Proof.
  split; [split |]; [| | split; [split |]].
  - apply List.NoDup_filter, idSet_NoDup.
  - apply missingIdsOf_set.
  - apply List.NoDup_filter, idSet_NoDup.
  - apply extraIdsOf_set.
  - apply idCheck_empty_iff.
Qed.

Lemma ltb_length_nil {A : Type} (l : list A) :
  Nat.ltb 0 (length l) = false <-> l = [].
Proof.
  destruct l; simpl; split; intros H; try reflexivity; discriminate.
Qed.

Lemma submitApplication_outcome
  (dto : CreateApplicationDto.t) (now : Z) (w : World) :
  SubmitOutcome dto now w.
Proof.
  destruct (JsMore.mapGet (jobsStore w) (CreateApplicationDto.jobId dto))
    as [job |] eqn:Ejob.
  2: { apply SubmitNoJob; [assumption |].
       unfold handle, asyncHandler, submitApplication, andThen, getStores.
       now rewrite Ejob. }
  destruct (CreateApplicationDto.answers dto) as [answers |] eqn:Eans.
  2: { apply (SubmitNoAnswers _ _ _ job); [assumption | now left |].
       unfold handle, asyncHandler, submitApplication, andThen, getStores.
       now rewrite Ejob, Eans. }
  destruct answers as [|a0 rest] eqn:Enil.
  { apply (SubmitNoAnswers _ _ _ job); [assumption | now right |].
    unfold handle, asyncHandler, submitApplication, andThen, getStores.
    now rewrite Ejob, Eans. }
  rewrite <- Enil in *.
  assert (Hne : answers <> []) by (rewrite Enil; discriminate).
  assert (Hlen : Nat.eqb (length answers) 0 = false)
    by (rewrite Enil; reflexivity).
  pose proof (idCheck_empty_iff job answers) as Hids.
  destruct (Nat.ltb 0 (length (missingIdsOf job answers))
            || Nat.ltb 0 (length (extraIdsOf job answers))) eqn:Echeck.
  - eapply (SubmitWrongIds _ _ _ job answers); try eassumption.
    + intros E. apply Hids in E as [E1 E2]. rewrite E1, E2 in Echeck.
      discriminate.
    + shelve.
    + unfold handle, asyncHandler, submitApplication, andThen, getStores.
      rewrite Ejob, Eans, Hlen, Echeck. reflexivity.
      Unshelve.
      apply orb_true_iff in Echeck.
      destruct (Nat.ltb 0 (length (missingIdsOf job answers)));
        destruct (Nat.ltb 0 (length (extraIdsOf job answers)));
        simpl; try discriminate.
      destruct Echeck; discriminate.
  - apply orb_false_iff in Echeck as [E1 E2].
    assert (Hset : answeredSet answers = requiredSet job).
    { apply Hids. now rewrite <- !ltb_length_nil. }
    destruct (scoreAnswers (questionsMapOf job) answers emptyTally)
      as [tally |] eqn:Escore.
    + eapply (SubmitCreated _ _ _ job answers tally); try eassumption;
        [reflexivity |].
      unfold handle, asyncHandler, submitApplication, andThen, getStores.
      rewrite Ejob, Eans, Hlen, E1, E2. simpl orb. cbv iota.
      fold (questionsMapOf job). fold emptyTally. rewrite Escore.
      reflexivity.
    + eapply (SubmitThrows _ _ _ job answers); try eassumption.
      unfold handle, asyncHandler, submitApplication, andThen, getStores.
      rewrite Ejob, Eans, Hlen, E1, E2. simpl orb. cbv iota.
      fold (questionsMapOf job). fold emptyTally. rewrite Escore.
      reflexivity.
Qed.

Lemma calculateScore_throws (q : Question) (a : Js.value) :
  calculateScore q a = Js.TypeError
  <-> type q = Js.defined QuestionType.NUMBER
      /\ Js.ToNumber a = Js.TypeError.
Proof.
  unfold calculateScore. destruct (type q) as [| |t].
  - split; [discriminate | intros [E _]; discriminate].
  - split; [discriminate | intros [E _]; discriminate].
  - destruct (String.eqb_spec t QuestionType.SINGLE_CHOICE) as [-> | N1].
    { destruct (Js.strictEq _ _);
        (split; [discriminate | intros [E _]; discriminate]). }
    destruct (String.eqb_spec t QuestionType.MULTI_CHOICE) as [-> | N2].
    { destruct a; try (split; [discriminate | intros [E _]; discriminate]).
      cbv zeta. destruct (Nat.eqb _ 0);
        (split; [discriminate | intros [E _]; discriminate]). }
    destruct (String.eqb_spec t QuestionType.NUMBER) as [-> | N3].
    { destruct (Js.ToNumber a) as [v |]; simpl.
      - destruct (Js.isNaN v); [| destruct (_ && _)];
          (split; [discriminate | intros [_ E]; discriminate]).
      - now split. }
    destruct (String.eqb_spec t QuestionType.TEXT) as [-> | N4].
    { destruct a; (split; [discriminate | intros [E _]; discriminate]). }
    split; [discriminate |]. intros [E _]. congruence.
Qed.

Lemma questionsMapOf_get (job : Job.t) (key : string) (q : StoredQuestion.t) :
  JsMore.mapGet (questionsMapOf job) key = Some q ->
  In q (Job.questions job) /\ StoredQuestion.id q = key.
Proof.
  intros H. apply MapFacts.values_newMap in H.
  apply in_map_iff in H as (q' & E & Hin). injection E as <- <-.
  now split.
Qed.

Lemma questionsMapOf_has (job : Job.t) (key : string) :
  In key (map StoredQuestion.id (Job.questions job)) ->
  exists q, JsMore.mapGet (questionsMapOf job) key = Some q.
Proof.
  intros H.
  destruct (JsMore.mapGet (questionsMapOf job) key) as [q |] eqn:E;
    [now exists q |].
  apply MapFacts.mapGet_None in E. contradiction E.
  unfold questionsMapOf. rewrite MapFacts.keys_newMap, map_map. exact H.
Qed.

Lemma answered_in_job (job : Job.t) (answers : list Answer.t) (a : Answer.t) :
  answeredSet answers = requiredSet job ->
  In a answers ->
  In (Answer.questionId a) (map StoredQuestion.id (Job.questions job)).
Proof.
  intros E Ha. apply list_elem_of_In.
  apply (elem_of_list_to_set (C := gset string)).
  fold (requiredSet job). rewrite <- E. unfold answeredSet.
  apply elem_of_list_to_set, list_elem_of_In, in_map. exact Ha.
Qed.

(** The scoring loop, one answer after the other. *)
Lemma scoreAnswers_throws
  (job : Job.t) (answers : list Answer.t) (tally : Tally) :
  (forall a, In a answers ->
             In (Answer.questionId a)
               (map StoredQuestion.id (Job.questions job))) ->
  scoreAnswers (questionsMapOf job) answers tally = Js.TypeError
  <-> Exists (uncoercible job) answers.
Proof.
  revert tally. induction answers as [|a rest IH]; intros tally Hin.
  - simpl. split; [discriminate | intros H; inversion H].
  - destruct (questionsMapOf_has job _ (Hin a (or_introl eq_refl)))
      as [q Eq].
    assert (Hrest : forall a', In a' rest ->
              In (Answer.questionId a')
                (map StoredQuestion.id (Job.questions job))).
    { intros a' Ha'. apply Hin. now right. }
    simpl scoreAnswers. unfold scoreAnswer. rewrite Eq. simpl Js.bind.
    destruct (calculateScore (StoredQuestion.fields q) (Answer.value a))
      as [v |] eqn:Ev; simpl Js.bind.
    + rewrite (IH _ Hrest). split; [intros H; now right |].
      intros H. inversion H as [? ? (q' & Eq' & Ety & Et) | ? ? H']; subst;
        [| exact H'].
      rewrite Eq in Eq'. injection Eq' as <-.
      assert (Hthrow : calculateScore (StoredQuestion.fields q)
                         (Answer.value a) = Js.TypeError)
        by (apply calculateScore_throws; now split).
      congruence.
    + split; [| reflexivity]. intros _. left.
      apply calculateScore_throws in Ev as [Ety Et]. now exists q.
Qed.

Lemma scoreAnswers_entries
  (job : Job.t) (answers : list Answer.t) (tally tally' : Tally) :
  scoreAnswers (questionsMapOf job) answers tally = Js.Normal tally' ->
  exists entries,
    breakdown tally' = breakdown tally ++ entries
    /\ Forall2 (entryFor job) answers entries
    /\ runningMax tally'
       = fold_left JsMore.add (map (pointsFor job) answers) (runningMax tally).
Proof.
  revert tally. induction answers as [|a rest IH]; intros tally.
  - simpl. intros E. injection E as <-. exists [].
    rewrite app_nil_r. repeat split. constructor.
  - simpl scoreAnswers. unfold scoreAnswer.
    destruct (JsMore.mapGet (questionsMapOf job) (Answer.questionId a))
      as [q |] eqn:Eq; simpl Js.bind; [| discriminate].
    destruct (calculateScore (StoredQuestion.fields q) (Answer.value a))
      as [v |] eqn:Ev; simpl Js.bind; [| discriminate].
    intros Hrun. destruct (IH _ Hrun) as (entries & Eb & Hf & Em).
    cbn [breakdown runningMax] in Eb, Em.
    destruct (questionsMapOf_get job _ q Eq) as [Hq Hid].
    eexists (_ :: entries). split; [| split].
    + rewrite Eb, <- app_assoc. reflexivity.
    + constructor; [| exact Hf].
      unfold entryFor. cbn. repeat split; try assumption.
      exists q, v. now repeat split.
    + rewrite Em. cbn [map fold_left].
      assert (Ep : pointsFor job a
                   = operand (points (StoredQuestion.fields q)))
        by (unfold pointsFor; now rewrite Eq).
      now rewrite Ep.
Qed.

(** X7: how [POST /api/applications] answers.  It answers 404 exactly
    when the job is not in the store, whatever the answers are; 400
    exactly when the job exists and the answers are not an array, or an
    empty one, or name a set of ids other than the ids of the job's
    questions; 500 exactly when all that is in order and some answer to a
    number question cannot be coerced to a number; and 201 exactly when
    it is in order and every such coercion completes. *)
Theorem submitApplication_status
  (dto : CreateApplicationDto.t) (now : Z) (w : World) :
  let response := fst (handle (PostApplication dto now) w) in
  let found job :=
    JsMore.mapGet (jobsStore w) (CreateApplicationDto.jobId dto) = Some job in
  let wellFormed job answers :=
    found job /\ CreateApplicationDto.answers dto = Some answers
    /\ answers <> [] /\ answeredSet answers = requiredSet job in
  (status response = 404
   <-> JsMore.mapGet (jobsStore w) (CreateApplicationDto.jobId dto) = None)
  /\ (status response = 400
      <-> exists job,
            found job
            /\ forall answers,
                 CreateApplicationDto.answers dto = Some answers ->
                 answers = [] \/ answeredSet answers <> requiredSet job)
  /\ (status response = 500
      <-> exists job answers,
            wellFormed job answers /\ Exists (uncoercible job) answers)
  /\ (status response = 201
      <-> exists job answers,
            wellFormed job answers /\ ~ Exists (uncoercible job) answers).
Proof.
  cbv zeta.
  destruct (submitApplication_outcome dto now w)
    as [Ejob Er | job Ejob Eans Er | job answers details Ejob Eans Hne Hset _ Er
        | job answers Ejob Eans Hne Hset Escore Er
        | job answers tally application Ejob Eans Hne Hset Escore _ Er];
    rewrite Er; cbn [fst status json].
  - repeat split; intros H; try discriminate; try reflexivity;
      try assumption.
    + destruct H as (j & Ej & _). congruence.
    + destruct H as (j & a & (Ej & _) & _). congruence.
    + destruct H as (j & a & (Ej & _) & _). congruence.
  - split; [split; intros H; [discriminate | congruence] |].
    split; [| split; split; intros H; try discriminate].
    + split; [intros _ | reflexivity]. exists job. split; [exact Ejob |].
      intros answers E. destruct Eans as [E' | E']; rewrite E' in E;
        [discriminate | injection E as <-; now left].
    + destruct H as (job' & answers & (_ & E & Hn & _) & _).
      destruct Eans as [E' | E']; rewrite E' in E;
        [discriminate | injection E as <-; now contradiction Hn].
    + destruct H as (job' & answers & (_ & E & Hn & _) & _).
      destruct Eans as [E' | E']; rewrite E' in E;
        [discriminate | injection E as <-; now contradiction Hn].
  - split; [split; intros H; [discriminate | congruence] |].
    split; [| split; split; intros H; try discriminate].
    + split; [intros _ | reflexivity]. exists job. split; [exact Ejob |].
      intros answers' E. rewrite Eans in E. injection E as <-. now right.
    + destruct H as (job' & answers' & (Ej & E & _ & Hs) & _).
      rewrite Ejob in Ej. injection Ej as <-.
      rewrite Eans in E. injection E as <-. contradiction.
    + destruct H as (job' & answers' & (Ej & E & _ & Hs) & _).
      rewrite Ejob in Ej. injection Ej as <-.
      rewrite Eans in E. injection E as <-. contradiction.
  - assert (Hex : Exists (uncoercible job) answers).
    { apply (scoreAnswers_throws job answers emptyTally); [| exact Escore].
      intros a Ha. now apply (answered_in_job job answers). }
    split; [split; intros H; [discriminate | congruence] |].
    split; [| split; split; intros H; try discriminate; try reflexivity].
    + split; [discriminate |]. intros (job' & Ej & H).
      rewrite Ejob in Ej. injection Ej as <-.
      destruct (H answers Eans) as [? | ?]; contradiction.
    + exists job, answers. now repeat split.
    + destruct H as (job' & answers' & (Ej & E & _ & _) & Hno).
      rewrite Ejob in Ej. injection Ej as <-.
      rewrite Eans in E. injection E as <-. contradiction.
  - assert (Hex : ~ Exists (uncoercible job) answers).
    { intros H.
      apply (scoreAnswers_throws job answers emptyTally) in H;
        [congruence |].
      intros a Ha. now apply (answered_in_job job answers). }
    split; [split; intros H; [discriminate | congruence] |].
    split; [| split; split; intros H; try discriminate; try reflexivity].
    + split; [discriminate |]. intros (job' & Ej & H).
      rewrite Ejob in Ej. injection Ej as <-.
      destruct (H answers Eans) as [? | ?]; contradiction.
    + destruct H as (job' & answers' & (Ej & E & _ & _) & Hyes).
      rewrite Ejob in Ej. injection Ej as <-.
      rewrite Eans in E. injection E as <-. contradiction.
    + exists job, answers. now repeat split.
Qed.

Lemma submitApplication_created
  (dto : CreateApplicationDto.t) (now : Z) (w : World)
  (application : Application.t) :
  fst (handle (PostApplication dto now) w)
  = json 201 (ApplicationBody application) ->
  exists job answers tally,
    JsMore.mapGet (jobsStore w) (CreateApplicationDto.jobId dto) = Some job
    /\ CreateApplicationDto.answers dto = Some answers
    /\ answers <> []
    /\ answeredSet answers = requiredSet job
    /\ scoreAnswers (questionsMapOf job) answers emptyTally = Js.Normal tally
    /\ application
       = {| Application.id := uuidSource w (uuidCount w);
            Application.jobId := CreateApplicationDto.jobId dto;
            Application.candidateName :=
              CreateApplicationDto.candidateName dto;
            Application.candidateEmail :=
              CreateApplicationDto.candidateEmail dto;
            Application.answers := answers;
            Application.totalScore := round2 (runningTotal tally);
            Application.maxScore := round2 (runningMax tally);
            Application.scoreBreakdown := breakdown tally;
            Application.submittedAt := now |}
    /\ snd (handle (PostApplication dto now) w)
       = {| jobsStore := jobsStore w;
            applicationsStore :=
              JsMore.mapSet (applicationsStore w)
                (Application.id application) application;
            uuidSource := uuidSource w;
            uuidCount := S (uuidCount w) |}.
Proof.
  intros Hr.
  destruct (submitApplication_outcome dto now w)
    as [Ejob Er | job Ejob Eans Er | job answers details Ejob Eans Hne Hset _ Er
        | job answers Ejob Eans Hne Hset Escore Er
        | job answers tally app' Ejob Eans Hne Hset Escore Eapp Er];
    rewrite Er in Hr |- *; try discriminate.
  simpl in Hr. injection Hr as <-.
  exists job, answers, tally. now repeat split.
Qed.

(** X8: no route deletes, and only a 201 answer writes.  Whatever the
    request, an answer other than 201 leaves the stores and the source of
    ids exactly as they were; a job request never touches the
    applications and an application request never touches the jobs; and
    every key of either store is still there afterwards. *)
Theorem handle_frame (request : Request) (w : World) :
  let w' := snd (handle request w) in
  (status (fst (handle request w)) <> 201 -> w' = w)
  /\ (forall dto now,
        request = PostJob dto now ->
        applicationsStore w' = applicationsStore w)
  /\ (forall dto now,
        request = PostApplication dto now -> jobsStore w' = jobsStore w)
  /\ (forall key, In key (map fst (jobsStore w)) ->
                  In key (map fst (jobsStore w')))
  /\ (forall key, In key (map fst (applicationsStore w)) ->
                  In key (map fst (applicationsStore w'))).
Proof.
  cbv zeta. destruct request as [dto now | | id | dto now | jobId sortBy | id].
  - destruct (accepted_dec (CreateJobDto.questions dto)) as [H | H].
    + destruct (createJob_run dto now w H) as (job & Erun & _).
      unfold handle, asyncHandler. rewrite Erun. cbn.
      repeat split; try congruence; try tauto.
      intros key Hk. apply MapFacts.keys_mapSet. now right.
    + destruct (createJob_reject dto now w H) as [_ Erun].
      unfold handle, asyncHandler. rewrite Erun. cbn.
      repeat split; congruence || tauto.
  - cbn. repeat split; congruence || tauto.
  - unfold handle, asyncHandler, getJob, andThen, getStores.
    destruct (JsMore.mapGet (jobsStore w) id); cbn;
      repeat split; congruence || tauto.
  - destruct (submitApplication_outcome dto now w)
      as [Ejob Er | job Ejob Eans Er
          | job answers details Ejob Eans Hne Hset _ Er
          | job answers Ejob Eans Hne Hset Escore Er
          | job answers tally app' Ejob Eans Hne Hset Escore Eapp Er];
      rewrite Er; cbn; repeat split; try congruence; try tauto.
    intros key Hk. apply MapFacts.keys_mapSet. now right.
  - unfold handle, asyncHandler, listApplications, andThen, getStores.
    destruct (negb (JsMore.mapHas (jobsStore w) jobId)); cbn;
      repeat split; congruence || tauto.
  - unfold handle, asyncHandler, getApplication, andThen, getStores.
    destruct (JsMore.mapGet (applicationsStore w) id); cbn;
      repeat split; congruence || tauto.
Qed.

(** X9: the application that a 201 answer carries.  It echoes the
    answers of the request, takes its id from [uuidv4()] and its date
    from [now], belongs to the job of the request, and its breakdown has
    one entry per answer, in the order of the answers: the entry repeats
    the id and the value of the answer, and carries the text and the
    points of the question of the job that has this id, and the score of
    the value on that question, rounded to two decimals. *)
Theorem submitApplication_breakdown
  (dto : CreateApplicationDto.t) (now : Z) (w : World)
  (application : Application.t) :
  fst (handle (PostApplication dto now) w)
  = json 201 (ApplicationBody application) ->
  exists job,
    JsMore.mapGet (jobsStore w) (CreateApplicationDto.jobId dto) = Some job
    /\ CreateApplicationDto.answers dto
       = Some (Application.answers application)
    /\ Forall2 (entryFor job) (Application.answers application)
         (Application.scoreBreakdown application)
    /\ (Application.id application, Application.jobId application,
        Application.submittedAt application)
       = (uuidSource w (uuidCount w), CreateApplicationDto.jobId dto, now).
Proof.
  intros Hr.
  destruct (submitApplication_created dto now w application Hr)
    as (job & answers & tally & Ejob & Eans & _ & _ & Escore & -> & _).
  destruct (scoreAnswers_entries job answers emptyTally tally Escore)
    as (entries & Eb & Hf & _).
  exists job. cbn. rewrite Eb. now repeat split.
Qed.

(** ** Totals *)

(** The bound on a single score, in the form that the scoring loop
    needs. *)
Lemma score_in_bounds (q : Question) (a : Js.value) :
  validateQuestion q = [] ->
  (exists p, points q = Js.defined (Js.Fin p)) ->
  (type q = Js.defined QuestionType.NUMBER ->
   Js.ToNumber a <> Js.TypeError) ->
  scoreWithinPoints q a.
Proof.
  intros Hv [p Ep] Hcoerce. apply validateQuestion_nil_checked in Hv.
  destruct Hv as (_ & (t & Ety & Ht) & Hp & Hs & Hm & Hn & Hk).
  pose proof (positive_points q p Hp Ep) as Hpos.
  assert (Hzero : Js.le Js.zero (Js.Fin p) = true).
  { apply Qle_bool_iff. now apply Qlt_le_weak. }
  assert (Hfull : exists s, Js.Normal (pointsValue q) = Js.Normal (Js.VNumber s)
                            /\ Js.le Js.zero s = true
                            /\ Js.le s (operand (points q)) = true).
  { exists (Js.Fin p). unfold pointsValue. rewrite Ep. simpl.
    repeat split; [assumption | apply le_refl_fin]. }
  assert (Hnone : exists s, Js.Normal (Js.VNumber Js.zero)
                            = Js.Normal (Js.VNumber s)
                            /\ Js.le Js.zero s = true
                            /\ Js.le s (operand (points q)) = true).
  { exists Js.zero. rewrite Ep. simpl. repeat split. exact Hzero. }
  unfold scoreWithinPoints.
  simpl in Ht. destruct Ht as [<- | [<- | [<- | [<- | []]]]].
  - rewrite (calculateScore_single q a Ety).
    now destruct (Js.strictEq a _).
  - destruct (Hm Ety) as (cs & Ecs & Hne & _).
    destruct a as [| | b | n | s | elems | props];
      try (rewrite (calculateScore_multi_other q _ Ety);
           [exact Hnone | discriminate]).
    rewrite (calculateScore_multi q elems Ety). cbv zeta.
    rewrite Ecs. simpl Js.orElse.
    pose proof (JsFacts.newSet_nonempty String.eqb cs Hne) as Hsz.
    destruct (Nat.eqb_spec (Js.size (Js.newSet String.eqb cs)) 0);
      [contradiction |].
    rewrite Ep. change (operand (Js.defined (Js.Fin p))) with (Js.Fin p).
    destruct (scaled_score p
                (length (List.filter
                   (fun x => Js.has Js.sameValueZero
                               (Js.newSet Js.sameValueZero elems)
                               (Js.VString x))
                   (Js.newSet String.eqb cs)))
                (Js.size (Js.newSet String.eqb cs)) Hpos)
      as (s & Es & H0 & H1); [apply filter_length_le | assumption |].
    exists s. rewrite Es. now repeat split.
  - destruct (Js.ToNumber a) as [v |] eqn:Ev;
      [| now contradiction (Hcoerce Ety)].
    rewrite (calculateScore_number q a v Ety Ev).
    destruct (Js.isNaN _); [exact Hnone |].
    now destruct (_ && _).
  - destruct (Hk Ety) as (ks & Eks & Hne).
    destruct a as [| | b | n | s | elems | props];
      try (rewrite (calculateScore_text_other q _ Ety);
           [exact Hnone | discriminate]).
    rewrite (calculateScore_text q s Ety), matchedCount_filter.
    rewrite Eks. simpl Js.orElse.
    assert (El : Nat.eqb (length ks) 0 = false).
    { destruct ks; [contradiction | reflexivity]. }
    rewrite El, Ep. change (operand (Js.defined (Js.Fin p))) with (Js.Fin p).
    destruct (scaled_score p (matchedCount (Js.toLowerCase s) ks) (length ks)
                Hpos) as (r & Er & H0 & H1).
    + apply matchedCount_le.
    + now apply Nat.eqb_neq.
    + exists r. rewrite Er. now repeat split.
Qed.

Lemma score_within (q : Question) (a v : Js.value) (p : Q) :
  accepted q ->
  points q = Js.defined (Js.Fin p) ->
  calculateScore q a = Js.Normal v ->
  exists s, v = Js.VNumber (Js.Fin s) /\ (0 <= s)%Q /\ (s <= p)%Q.
Proof.
  intros Hv Ep Hc.
  assert (Hcoerce : type q = Js.defined QuestionType.NUMBER ->
                    Js.ToNumber a <> Js.TypeError).
  { intros Ety Et.
    rewrite (calculateScore_number_throws q a Ety Et) in Hc. discriminate. }
  destruct (score_in_bounds q a Hv (ex_intro _ p Ep) Hcoerce)
    as (s & Es & H0 & H1).
  rewrite Es in Hc. injection Hc as <-. rewrite Ep in H1.
  change (operand (Js.defined (Js.Fin p))) with (Js.Fin p) in H1.
  destruct s as [| | |s]; try discriminate.
  exists s. split; [reflexivity |].
  split; apply Qle_bool_iff; assumption.
Qed.

Lemma hundredths_le (x y : Q) :
  (x <= y)%Q -> (hundredths x <= hundredths y)%Q.
Proof.
  intros H. unfold hundredths.
  assert (Hz : (Qfloor (x * 100 + (1 # 2)) <= Qfloor (y * 100 + (1 # 2)))%Z)
    by (apply Qfloor_resp_le; lra).
  rewrite Zle_Qle in Hz.
  set (a := inject_Z (Qfloor (x * 100 + (1 # 2)))) in *.
  set (b := inject_Z (Qfloor (y * 100 + (1 # 2)))) in *.
  assert (Ea : (a / 100 == a * (1 # 100))%Q) by reflexivity.
  assert (Eb : (b / 100 == b * (1 # 100))%Q) by reflexivity.
  rewrite Ea, Eb. lra.
Qed.

Lemma hundredths_nonneg (x : Q) : (0 <= x)%Q -> (0 <= hundredths x)%Q.
Proof.
  intros H. pose proof (hundredths_le 0 x H) as H'.
  assert (E0 : (hundredths 0 == 0)%Q) by reflexivity.
  now rewrite E0 in H'.
Qed.

Lemma scoreAnswers_bounds
  (job : Job.t) (answers : list Answer.t) (tally tally' : Tally) (t m : Q) :
  soundJob job ->
  runningTotal tally = Js.Fin t -> runningMax tally = Js.Fin m ->
  (0 <= t)%Q -> (t <= m)%Q ->
  Forall entryWithinPoints (breakdown tally) ->
  scoreAnswers (questionsMapOf job) answers tally = Js.Normal tally' ->
  exists t' m',
    runningTotal tally' = Js.Fin t' /\ runningMax tally' = Js.Fin m'
    /\ (0 <= t')%Q /\ (t' <= m')%Q
    /\ Forall entryWithinPoints (breakdown tally').
Proof.
  intros Hjob. revert tally t m.
  induction answers as [|a rest IH]; intros tally t m Et Em H0 Hle Hb.
  - simpl. intros E. injection E as <-. now exists t, m.
  - simpl scoreAnswers. unfold scoreAnswer.
    destruct (JsMore.mapGet (questionsMapOf job) (Answer.questionId a))
      as [q |] eqn:Eq; simpl Js.bind; [| discriminate].
    destruct (calculateScore (StoredQuestion.fields q) (Answer.value a))
      as [v |] eqn:Ev; simpl Js.bind; [| discriminate].
    destruct (questionsMapOf_get job _ q Eq) as [Hq _].
    unfold soundJob in Hjob. rewrite List.Forall_forall in Hjob.
    destruct (Hjob q Hq) as [Hacc [p Ep]].
    destruct (score_within _ _ v p Hacc Ep Ev) as (s & -> & Hs0 & Hsp).
    apply (IH _ (t + s)%Q (m + p)%Q).
    + cbn. now rewrite Et.
    + cbn. rewrite Em, Ep. reflexivity.
    + lra.
    + lra.
    + cbn [breakdown]. apply Forall_app. split; [exact Hb |].
      constructor; [| constructor].
      exists (Js.Fin p). cbn. rewrite Ep. split; [reflexivity |].
      change (round2 (Js.Fin s)) with (Js.Fin (hundredths s)).
      change (round2 (Js.Fin p)) with (Js.Fin (hundredths p)).
      split; apply Qle_bool_iff.
      * now apply hundredths_nonneg.
      * now apply hundredths_le.
Qed.

(** X11: the totals of an application.  When every question of the job
    passes validation with finite points, the application of a 201
    answer has a total score that is at least 0 and at most its maximal
    score, and every entry of its breakdown earns at least 0 and at most
    [Math.round(p * 100) / 100] for the points [p] of its question.  The
    comparisons are those of the runtime, so that a total that has grown
    to [Infinity] is within the bound as well. *)
Theorem submitApplication_totals
  (dto : CreateApplicationDto.t) (now : Z) (w : World)
  (application : Application.t) (job : Job.t) :
  fst (handle (PostApplication dto now) w)
  = json 201 (ApplicationBody application) ->
  JsMore.mapGet (jobsStore w) (CreateApplicationDto.jobId dto) = Some job ->
  soundJob job ->
  Js.le Js.zero (Application.totalScore application) = true
  /\ Js.le (Application.totalScore application)
       (Application.maxScore application) = true
  /\ Forall entryWithinPoints (Application.scoreBreakdown application).
Proof.
  intros Hr Ejob Hjob.
  destruct (submitApplication_created dto now w application Hr)
    as (job' & answers & tally & Ejob' & _ & _ & _ & Escore & -> & _).
  rewrite Ejob in Ejob'. injection Ejob' as <-.
  destruct (scoreAnswers_bounds job answers emptyTally tally 0 0 Hjob
              eq_refl eq_refl (Qle_refl 0) (Qle_refl 0)
              (List.Forall_nil _) Escore)
    as (t & m & Et & Em & H0 & Hle & Hb).
  cbn. rewrite Et, Em.
  change (round2 (Js.Fin t)) with (Js.Fin (hundredths t)).
  change (round2 (Js.Fin m)) with (Js.Fin (hundredths m)).
  split; [| split; [| exact Hb]]; apply Qle_bool_iff.
  - now apply hundredths_nonneg.
  - now apply hundredths_le.
Qed.

Lemma questionsMapOf_own (job : Job.t) (q : StoredQuestion.t) :
  List.NoDup (map StoredQuestion.id (Job.questions job)) ->
  In q (Job.questions job) ->
  JsMore.mapGet (questionsMapOf job) (StoredQuestion.id q) = Some q.
Proof.
  intros Hnd Hq.
  destruct (questionsMapOf_has job (StoredQuestion.id q)
              (in_map StoredQuestion.id _ _ Hq)) as [q' Eq'].
  destruct (questionsMapOf_get job _ q' Eq') as [Hq' Hid].
  rewrite Eq'. f_equal.
  revert Hnd Hq Hq' Hid. generalize (Job.questions job) as l.
  induction l as [|x l IH]; simpl; [tauto |].
  intros Hnd Hq Hq' Hid. inversion Hnd as [|? ? Hx Hl]; subst.
  destruct Hq as [-> | Hq], Hq' as [-> | Hq'].
  - reflexivity.
  - contradiction Hx. rewrite <- Hid. now apply in_map.
  - contradiction Hx. rewrite Hid. now apply in_map.
  - now apply IH.
Qed.

(** X12: the maximal score of an application.  It is
    [Math.round(s * 100) / 100] for the sum [s] that starts at 0 and adds,
    answer after answer, the points of the question that the answer
    names, so that a question answered twice counts twice; when the ids
    of the questions of the job are pairwise distinct and no two answers
    name the same question, the terms of the sum are the points of all
    the questions of the job, each once, in the order of the answers. *)
Theorem submitApplication_maxScore
  (dto : CreateApplicationDto.t) (now : Z) (w : World)
  (application : Application.t) (job : Job.t) :
  fst (handle (PostApplication dto now) w)
  = json 201 (ApplicationBody application) ->
  JsMore.mapGet (jobsStore w) (CreateApplicationDto.jobId dto) = Some job ->
  Application.maxScore application
  = round2
      (fold_left JsMore.add
         (map (pointsFor job) (Application.answers application)) Js.zero)
  /\ (List.NoDup (map StoredQuestion.id (Job.questions job)) ->
      List.NoDup (map Answer.questionId (Application.answers application)) ->
      Permutation
        (map (pointsFor job) (Application.answers application))
        (map (fun q => operand (points (StoredQuestion.fields q)))
           (Job.questions job))).
Proof.
  intros Hr Ejob.
  destruct (submitApplication_created dto now w application Hr)
    as (job' & answers & tally & Ejob' & _ & _ & Hset & Escore & -> & _).
  rewrite Ejob in Ejob'. injection Ejob' as <-.
  destruct (scoreAnswers_entries job answers emptyTally tally Escore)
    as (_ & _ & _ & Emax).
  cbn [Application.maxScore Application.answers]. rewrite Emax.
  split; [reflexivity |].
  intros Hq Ha.
  assert (Hperm : Permutation (map Answer.questionId answers)
                    (map StoredQuestion.id (Job.questions job))).
  { apply Stdlib.Sorting.Permutation.NoDup_Permutation; try assumption.
    intros x.
    assert (E : x ∈ answeredSet answers <-> x ∈ requiredSet job)
      by now rewrite Hset.
    unfold answeredSet, requiredSet in E.
    now rewrite !elem_of_list_to_set, !list_elem_of_In in E. }
  set (value key :=
         match JsMore.mapGet (questionsMapOf job) key with
         | Some q => operand (points (StoredQuestion.fields q))
         | None => Js.NaN
         end).
  assert (E1 : map (pointsFor job) answers
               = map value (map Answer.questionId answers)).
  { rewrite map_map. reflexivity. }
  assert (E2 : map value (map StoredQuestion.id (Job.questions job))
               = map (fun q => operand (points (StoredQuestion.fields q)))
                   (Job.questions job)).
  { rewrite map_map. apply map_ext_in. intros q Hin. unfold value.
    now rewrite (questionsMapOf_own job q Hq Hin). }
  rewrite E1, <- E2. now apply Permutation_map.
Qed.

(** ** Sorting *)

Section SortFacts.
Context {A : Type} (precedes : A -> A -> bool) (key : A -> Q).
Context (good : A -> Prop).
Hypothesis precedes_key :
  forall y x, good y -> good x ->
              precedes y x = true <-> (key x < key y)%Q.

Lemma insertSorted_Permutation (x : A) (l : list A) :
  Permutation (JsMore.insertSorted precedes x l) (x :: l).
Proof.
  induction l as [|y l IH]; simpl; [reflexivity |].
  destruct (precedes y x); [| reflexivity].
  rewrite IH. apply perm_swap.
Qed.

Lemma insertSorted_sorted (x : A) (l : list A) :
  good x -> List.Forall good l ->
  StronglySorted (fun a b => (key b <= key a)%Q) l ->
  StronglySorted (fun a b => (key b <= key a)%Q)
    (JsMore.insertSorted precedes x l).
Proof.
  intros Hx. induction l as [|y l IH]; intros Hg Hs; simpl.
  - repeat constructor.
  - inversion Hs as [|? ? Hl Hy]; subst.
    inversion Hg as [|? ? Hgy Hgl]; subst.
    destruct (precedes y x) eqn:E.
    + apply (precedes_key y x Hgy Hx) in E. constructor; [now apply IH |].
      apply List.Forall_forall. intros z Hz.
      apply (Permutation_in _ (insertSorted_Permutation x l)) in Hz.
      destruct Hz as [<- | Hz]; [now apply Qlt_le_weak |].
      rewrite List.Forall_forall in Hy. now apply Hy.
    + assert (Hxy : (key y <= key x)%Q).
      { apply Qnot_lt_le. intros H.
        apply (precedes_key y x Hgy Hx) in H. congruence. }
      constructor; [exact Hs |]. constructor; [exact Hxy |].
      apply List.Forall_forall. intros z Hz.
      rewrite List.Forall_forall in Hy. specialize (Hy z Hz). lra.
Qed.

Lemma insertSorted_filter (x : A) (l : list A) (k : Q) :
  good x -> List.Forall good l ->
  List.filter (fun a => Qeq_bool (key a) k)
    (JsMore.insertSorted precedes x l)
  = List.filter (fun a => Qeq_bool (key a) k) (x :: l).
Proof.
  intros Hx. induction l as [|y l IH]; intros Hg; [reflexivity |].
  inversion Hg as [|? ? Hgy Hgl]; subst.
  cbn [JsMore.insertSorted]. destruct (precedes y x) eqn:E; [| reflexivity].
  apply (precedes_key y x Hgy Hx) in E.
  specialize (IH Hgl). cbn [List.filter] in *. rewrite IH.
  destruct (Qeq_bool (key x) k) eqn:Ex, (Qeq_bool (key y) k) eqn:Ey;
    try reflexivity.
  apply Qeq_bool_iff in Ex, Ey. rewrite Ex, Ey in E.
  now apply Qlt_irrefl in E.
Qed.

Lemma sort_good (l : list A) :
  List.Forall good l -> List.Forall good (JsMore.sort precedes l).
Proof.
  induction l as [|x l IH]; intros Hg; simpl; [constructor |].
  inversion Hg as [|? ? Hx Hl]; subst.
  apply List.Forall_forall. intros z Hz.
  apply (Permutation_in _ (insertSorted_Permutation x _)) in Hz.
  destruct Hz as [<- | Hz]; [exact Hx |].
  specialize (IH Hl). rewrite List.Forall_forall in IH. now apply IH.
Qed.

Lemma sort_listedBy (l : list A) :
  List.Forall good l -> listedBy key l (JsMore.sort precedes l).
Proof.
  unfold listedBy. induction l as [|x l IH]; intros Hg; simpl.
  - repeat split; constructor.
  - inversion Hg as [|? ? Hx Hl]; subst.
    destruct (IH Hl) as (IHp & IHs & IHf).
    pose proof (sort_good l Hl) as Hsg.
    split; [| split].
    + rewrite insertSorted_Permutation. now constructor.
    + now apply insertSorted_sorted.
    + intros k. rewrite (insertSorted_filter _ _ _ Hx Hsg).
      cbn [List.filter]. now rewrite IHf.
Qed.

End SortFacts.

Lemma byScore_key (y x : Application.t) :
  finiteTotal y -> finiteTotal x ->
  byScore y x = true <-> (scoreKey x < scoreKey y)%Q.
Proof.
  intros [ty Ey] [tx Ex]. unfold byScore, scoreKey. rewrite Ey, Ex.
  cbn. rewrite negb_true_iff. split.
  - intros H. apply Qnot_le_lt. intros Hle.
    assert (Hb : Qle_bool 0 (tx + - ty) = true)
      by (apply Qle_bool_iff; lra).
    congruence.
  - intros H. apply not_true_iff_false. intros Hb.
    apply Qle_bool_iff in Hb. lra.
Qed.

Lemma byDate_key (y x : Application.t) :
  byDate y x = true <-> (dateKey x < dateKey y)%Q.
Proof.
  unfold byDate, dateKey. rewrite Z.ltb_lt, <- Zlt_Qlt. lia.
Qed.

Lemma sort_Permutation {A : Type} (precedes : A -> A -> bool) (l : list A) :
  Permutation (JsMore.sort precedes l) l.
Proof.
  induction l as [|x l IH]; simpl; [constructor |].
  rewrite insertSorted_Permutation. now constructor.
Qed.

(** X13: [GET /api/jobs/:jobId/applications] for a job of the store
    answers 200, changes nothing, and lists the applications of that job
    and no other, each once, whatever [sortBy] is.  Without [sortBy], or
    with [score], and when the total scores of these applications are
    finite, they come by total score, highest first, applications of
    equal score in the order of their submission; with [date] they come
    by date, latest first, applications of the same date in the order of
    the store. *)
Theorem listApplications_sorted
  (jobId : string) (sortBy : option string) (w : World) :
  JsMore.mapHas (jobsStore w) jobId = true ->
  exists listed,
    handle (GetJobApplications jobId sortBy) w
    = (json 200 (ApplicationsBody listed), w)
    /\ Permutation listed (applicationsOf w jobId)
    /\ (sortBy = None \/ sortBy = Some "" \/ sortBy = Some "score" ->
        Forall finiteTotal (applicationsOf w jobId) ->
        listedBy scoreKey (applicationsOf w jobId) listed)
    /\ (sortBy = Some "date" ->
        listedBy dateKey (applicationsOf w jobId) listed).
Proof.
  intros Hjob.
  set (key := match sortBy with
              | Some s => if Js.truthyString s then s else "score"
              | None => "score"
              end).
  set (apps := applicationsOf w jobId).
  assert (Erun : handle (GetJobApplications jobId sortBy) w
                 = (json 200
                      (ApplicationsBody
                         (if String.eqb key "score"
                          then JsMore.sort byScore apps
                          else if String.eqb key "date"
                               then JsMore.sort byDate apps
                               else apps)), w)).
  { unfold handle, asyncHandler, listApplications, andThen, getStores.
    rewrite Hjob. reflexivity. }
  rewrite Erun. eexists. split; [reflexivity |].
  assert (Hdate : listedBy dateKey apps (JsMore.sort byDate apps)).
  { apply (sort_listedBy byDate dateKey (fun _ => True)
             (fun y x _ _ => byDate_key y x)).
    apply List.Forall_forall. now intros. }
  split; [| split].
  - destruct (String.eqb key "score"); [apply sort_Permutation |].
    destruct (String.eqb key "date"); [apply sort_Permutation | reflexivity].
  - intros Hs Hfin.
    assert (E : key = "score")
      by (destruct Hs as [-> | [-> | ->]]; reflexivity).
    rewrite E. cbn [String.eqb].
    change (String.eqb "score" "score") with true. cbv iota.
    now apply (sort_listedBy byScore scoreKey finiteTotal byScore_key).
  - intros ->. exact Hdate.
Qed.

(** ** What the stores always hold *)

Lemma handle_effect (request : Request) (w : World) :
  snd (handle request w) = w
  \/ (exists dto now job,
        request = PostJob dto now
        /\ fst (handle request w) = json 201 (JobBody job))
  \/ (exists dto now application,
        request = PostApplication dto now
        /\ fst (handle request w) = json 201 (ApplicationBody application)).
Proof.
  destruct request as [dto now | | id | dto now | jobId sortBy | id].
  - destruct (accepted_dec (CreateJobDto.questions dto)) as [H | H].
    + destruct (createJob_run dto now w H) as (job & Erun & _).
      right. left. exists dto, now, job. split; [reflexivity |].
      unfold handle, asyncHandler. now rewrite Erun.
    + destruct (createJob_reject dto now w H) as [_ Erun].
      left. unfold handle, asyncHandler. now rewrite Erun.
  - now left.
  - left. unfold handle, asyncHandler, getJob, andThen, getStores.
    now destruct (JsMore.mapGet (jobsStore w) id).
  - destruct (submitApplication_outcome dto now w)
      as [Ejob Er | job Ejob Eans Er
          | job answers details Ejob Eans Hne Hset _ Er
          | job answers Ejob Eans Hne Hset Escore Er
          | job answers tally app' Ejob Eans Hne Hset Escore Eapp Er];
      try (left; now rewrite Er).
    right. right. exists dto, now, app'. split; [reflexivity |].
    now rewrite Er.
  - left. unfold handle, asyncHandler, listApplications, andThen, getStores.
    now destruct (negb (JsMore.mapHas (jobsStore w) jobId)).
  - left. unfold handle, asyncHandler, getApplication, andThen, getStores.
    now destruct (JsMore.mapGet (applicationsStore w) id).
Qed.

Lemma Forall2_length_eq {A B : Type} (R : A -> B -> Prop)
  (l : list A) (k : list B) :
  Forall2 R l k -> length k = length l.
Proof. induction 1; simpl; congruence. Qed.

Lemma handle_sound (request : Request) (w : World) :
  storesSound w -> storesSound (snd (handle request w)).
Proof.
  intros [Hjobs Happs].
  destruct (handle_effect request w)
    as [-> | [(dto & now & job & -> & Hr) | (dto & now & app & -> & Hr)]].
  - now split.
  - destruct (createJob_created dto now w job Hr)
      as (Erun & Hacc & Hid & Hf & _).
    rewrite Erun. cbn [snd]. split; cbn [jobsStore applicationsStore].
    + intros key job' Hin.
      destruct (MapFacts.In_mapSet _ _ _ _ _ Hin) as [[-> ->] | Hold];
        [| now apply Hjobs].
      split; [reflexivity |].
      rewrite <- Hf in Hacc. revert Hacc.
      generalize (Job.questions job). intros l Hl.
      induction l as [|q l IH]; [constructor |].
      inversion Hl; subst. constructor; [assumption | now apply IH].
    + intros key app Hin.
      destruct (Happs key app Hin) as (H1 & H2 & H3 & H4).
      repeat split; try assumption.
      apply MapFacts.keys_mapSet. now right.
  - destruct (submitApplication_created dto now w app Hr)
      as (job & answers & tally & Ejob & Eans & Hne & Hset & Escore & Eapp
          & Ew).
    rewrite Ew. split; cbn [jobsStore applicationsStore].
    + exact Hjobs.
    + intros key app' Hin.
      destruct (MapFacts.In_mapSet _ _ _ _ _ Hin) as [[-> ->] | Hold];
        [| now apply Happs].
      destruct (scoreAnswers_entries job answers emptyTally tally Escore)
        as (entries & Eb & Hf & _).
      rewrite Eapp. cbn. repeat split.
      * apply MapFacts.mapGet_In in Ejob.
        apply (in_map fst) in Ejob. exact Ejob.
      * exact Hne.
      * rewrite Eb. simpl. now apply (Forall2_length_eq (entryFor job)).
Qed.

(** X14: what the stores always hold.  From the empty stores and
    through any sequence of requests, every job of the store sits under
    its own id and has only questions that pass [validateQuestion], and
    every application sits under its own id, is for a job that the store
    holds, has at least one answer and as many entries of breakdown as
    answers. *)
Theorem serve_sound (source : nat -> string) (requests : list Request) :
  storesSound (serve requests (start source)).
Proof.
  assert (H : forall w, storesSound w -> storesSound (serve requests w)).
  { induction requests as [|r rest IH]; intros w Hw; [exact Hw |].
    simpl. apply IH. now apply handle_sound. }
  apply H. split; intros key x [].
Qed.

(** X15: an application that was accepted can be read back and is
    listed: after a 201 answer, [GET /api/applications/:id] with its id
    answers 200 with that very application, the application is among
    those of its job, and when its id was not in use the applications of
    the job are the former ones followed by it. *)
Theorem submitApplication_getApplication
  (dto : CreateApplicationDto.t) (now : Z) (w : World)
  (application : Application.t) :
  fst (handle (PostApplication dto now) w)
  = json 201 (ApplicationBody application) ->
  let w' := snd (handle (PostApplication dto now) w) in
  fst (handle (GetApplication (Application.id application)) w')
  = json 200 (ApplicationBody application)
  /\ In application (applicationsOf w' (CreateApplicationDto.jobId dto))
  /\ (JsMore.mapGet (applicationsStore w) (uuidSource w (uuidCount w)) = None ->
      applicationsOf w' (CreateApplicationDto.jobId dto)
      = applicationsOf w (CreateApplicationDto.jobId dto) ++ [application]).
Proof.
  intros Hr.
  destruct (submitApplication_created dto now w application Hr)
    as (job & answers & tally & _ & _ & _ & _ & _ & Eapp & Ew).
  cbv zeta. rewrite Ew.
  assert (Eid : Application.id application = uuidSource w (uuidCount w))
    by now rewrite Eapp.
  assert (Ejid : Application.jobId application = CreateApplicationDto.jobId dto)
    by now rewrite Eapp.
  split; [| split].
  - unfold handle, asyncHandler, getApplication, andThen, getStores.
    cbn [applicationsStore]. now rewrite MapFacts.mapGet_mapSet_eq.
  - unfold applicationsOf. cbn [applicationsStore].
    apply filter_In. split.
    + unfold JsMore.mapValues. apply in_map_iff.
      exists (Application.id application, application). split; [reflexivity |].
      apply MapFacts.mapGet_In, MapFacts.mapGet_mapSet_eq.
    + rewrite Ejid. apply String.eqb_refl.
  - intros Hfresh. unfold applicationsOf. cbn [applicationsStore].
    rewrite Eid, (MapFacts.mapSet_fresh _ _ _ Hfresh).
    unfold JsMore.mapValues. rewrite map_app, List.filter_app. cbn.
    now rewrite Ejid, String.eqb_refl.
Qed.

(** ** More on the scoring engine *)

Lemma lowerChar_idempotent (c : ascii) :
  Js.lowerChar (Js.lowerChar c) = Js.lowerChar c.
Proof.
  destruct c as [b0 b1 b2 b3 b4 b5 b6 b7].
  destruct b0, b1, b2, b3, b4, b5, b6, b7; reflexivity.
Qed.

Lemma toLowerCase_idempotent (s : string) :
  Js.toLowerCase (Js.toLowerCase s) = Js.toLowerCase s.
Proof.
  induction s as [|c s IH]; simpl; [reflexivity |].
  now rewrite lowerChar_idempotent, IH.
Qed.

Lemma toLowerCase_app (s t : string) :
  Js.toLowerCase (s ++ t) = (Js.toLowerCase s ++ Js.toLowerCase t)%string.
Proof. induction s as [|c s IH]; simpl; [reflexivity | now rewrite IH]. Qed.

Lemma prefix_iff (t s : string) :
  String.prefix t s = true <-> exists b, s = (t ++ b)%string.
Proof.
  revert s. induction t as [|c t IH]; intros s; simpl.
  - split; [intros _; now exists s | intros _; now destruct s].
  - destruct s as [|d s]; [split; [discriminate | intros [b E]; discriminate] |].
    simpl. destruct (Ascii.ascii_dec c d) as [-> | N].
    + split.
      * intros H. apply IH in H as [b E]. exists b. now rewrite E.
      * intros [b E]. apply IH. exists b. now injection E.
    + split; [discriminate |]. intros [b E]. injection E as E1 E2.
      congruence.
Qed.

Lemma stringIncludes_iff (s t : string) :
  Js.stringIncludes s t = true
  <-> exists a b, s = (a ++ t ++ b)%string.
Proof.
  induction s as [|c s IH].
  - change (Js.stringIncludes "" t) with (String.prefix t "" || false).
    rewrite orb_false_r. split.
    + intros H. apply prefix_iff in H as [b E]. now exists "", b.
    + intros (a & b & E). apply prefix_iff.
      destruct a; [now exists b | discriminate].
  - change (Js.stringIncludes (String c s) t)
      with (String.prefix t (String c s) || Js.stringIncludes s t).
    rewrite orb_true_iff. split.
    + intros [H | H].
      * apply prefix_iff in H as [b E]. now exists "", b.
      * apply IH in H as (a & b & E). exists (String c a), b.
        simpl. now rewrite E.
    + intros (a & b & E). destruct a as [|d a]; simpl in E.
      * left. apply prefix_iff. now exists b.
      * right. apply IH. injection E as _ E. now exists a, b.
Qed.

Lemma string_app_assoc (a b c : string) :
  ((a ++ b) ++ c = a ++ (b ++ c))%string.
Proof.
  induction a as [|x a IH]; [reflexivity |].
  change (String x ((a ++ b) ++ c) = String x (a ++ (b ++ c)))%string.
  now f_equal.
Qed.

Lemma stringIncludes_extend (pre s post t : string) :
  Js.stringIncludes s t = true ->
  Js.stringIncludes (pre ++ s ++ post) t = true.
Proof.
  rewrite !stringIncludes_iff. intros (a & b & ->).
  exists (pre ++ a)%string, (b ++ post)%string.
  now rewrite !string_app_assoc.
Qed.

Lemma matchedCount_extend (pre s post : string) (kws : list string) :
  matchedCount (Js.toLowerCase s) kws
  <= matchedCount (Js.toLowerCase (pre ++ s ++ post)) kws.
Proof.
  induction kws as [|k kws IH]; simpl; [lia |].
  destruct (Js.stringIncludes (Js.toLowerCase s) (Js.toLowerCase k)) eqn:E.
  - rewrite !toLowerCase_app in IH |- *.
    rewrite (stringIncludes_extend _ _ _ _ E). cbv iota. lia.
  - destruct (Js.stringIncludes _ _); cbv iota; lia.
Qed.

(** X16: a text answer is scored on its lower-case form: an answer and
    the answer put in lower case get the same score. *)
Theorem calculateScore_text_case (q : Question) (answer : string) :
  type q = Js.defined QuestionType.TEXT ->
  calculateScore q (Js.VString (Js.toLowerCase answer))
  = calculateScore q (Js.VString answer).
Proof.
  intros Ety. rewrite !(calculateScore_text q _ Ety).
  now rewrite toLowerCase_idempotent.
Qed.

Lemma ratio_le (i j n : nat) :
  i <= j -> n <> 0 ->
  (inject_Z (Z.of_nat i) / inject_Z (Z.of_nat n)
   <= inject_Z (Z.of_nat j) / inject_Z (Z.of_nat n))%Q.
Proof.
  intros Hij Hn. unfold Qdiv. apply Qmult_le_compat_r.
  - now apply ofNat_le.
  - apply Qlt_le_weak, Qinv_lt_0_compat. now apply ofNat_pos.
Qed.

(** X17: text around an answer never costs points.  For a text question
    whose points are finite and not negative, and for keywords and text
    made of the code units U+0000 to U+00FF, which are the strings of
    this model and on which [toLowerCase] works one code unit at a time,
    the score of an answer is at most the score of the same answer with
    any such text put before and after it. *)
Theorem calculateScore_text_extend
  (q : Question) (p : Q) (pre answer post : string) :
  type q = Js.defined QuestionType.TEXT ->
  points q = Js.defined (Js.Fin p) ->
  (0 <= p)%Q ->
  exists r r',
    calculateScore q (Js.VString answer) = Js.Normal (Js.VNumber (Js.Fin r))
    /\ calculateScore q (Js.VString (pre ++ answer ++ post))
       = Js.Normal (Js.VNumber (Js.Fin r'))
    /\ (r <= r')%Q.
Proof.
  intros Ety Ep Hp.
  rewrite !(calculateScore_text q _ Ety), !matchedCount_filter,
    totalKeywords_eq, Ep.
  change (operand (Js.defined (Js.Fin p))) with (Js.Fin p).
  pose proof (totalKeywords_nonzero q) as Hn.
  unfold Js.ofNat, Js.div. rewrite ofNat_eq_bool.
  destruct (Nat.eqb_spec (totalKeywordsOf q) 0) as [E | _]; [contradiction |].
  cbn [Js.mul]. eexists. eexists. split; [reflexivity |].
  split; [reflexivity |].
  rewrite !(Qmult_comm p). apply Qmult_le_compat_r; [| exact Hp].
  apply ratio_le; [| exact Hn]. apply matchedCount_extend.
Qed.

Lemma In_answerStrings (elems : list Js.value) (c : string) :
  In c (answerStrings elems) <-> In (Js.VString c) elems.
Proof.
  induction elems as [|v elems IH]; simpl; [tauto |].
  destruct v as [| | b | n | s | l |]; simpl; rewrite ?IH;
    try (split; [tauto | intros [H | H]; [discriminate | assumption]]).
  split; (intros [H | H]; [left; congruence | now right]).
Qed.

Lemma selected_iff (elems : list Js.value) (c : string) :
  Js.has Js.sameValueZero (Js.newSet Js.sameValueZero elems) (Js.VString c)
  = true <-> In (Js.VString c) elems.
Proof. now rewrite JsFacts.answerSet_has, In_answerStrings. Qed.

(** X18: the score of a multi-choice answer depends only on which of the
    correct options occur in it: two arrays that hold the same correct
    options get the same score, whatever their order, their repetitions
    and their other elements. *)
Theorem calculateScore_multi_selection
  (q : Question) (elems elems' : list Js.value) :
  type q = Js.defined QuestionType.MULTI_CHOICE ->
  (forall c, In c (Js.orElse (correctOptions q) []) ->
             (In (Js.VString c) elems <-> In (Js.VString c) elems')) ->
  calculateScore q (Js.VArray elems) = calculateScore q (Js.VArray elems').
Proof.
  intros Ety Hsame.
  rewrite !(calculateScore_multi q _ Ety). cbv zeta.
  destruct (Nat.eqb _ 0); [reflexivity |].
  do 6 f_equal. apply filter_ext_in. intros c Hc.
  apply (proj1 (JsFacts.newSet_In _ string_same_eq _ _)) in Hc.
  apply eq_true_iff_eq. rewrite !selected_iff. now apply Hsame.
Qed.

Lemma filter_all {A : Type} (f : A -> bool) (l : list A) :
  length (List.filter f l) = length l <-> forall x, In x l -> f x = true.
Proof.
  induction l as [|a l IH]; simpl; [tauto |].
  pose proof (List.filter_length_le f l) as Hle.
  destruct (f a) eqn:E; simpl.
  - split.
    + intros H x [<- | Hx]; [assumption |]. apply IH; [lia | assumption].
    + intros H. f_equal. apply IH. auto.
  - split; [lia |]. intros H. specialize (H a (or_introl eq_refl)). congruence.
Qed.

Lemma filter_none {A : Type} (f : A -> bool) (l : list A) :
  length (List.filter f l) = 0 <-> forall x, In x l -> f x = false.
Proof.
  induction l as [|a l IH]; simpl; [tauto |].
  destruct (f a) eqn:E; simpl.
  - split; [lia |]. intros H. specialize (H a (or_introl eq_refl)). congruence.
  - rewrite IH. split; [intros H x [<- | Hx]; auto | auto].
Qed.

(** X19: the two ends of a multi-choice score.  For a question with at
    least one correct option, an array that holds every correct option
    earns the points of the question, whatever else it holds; and when
    the points are finite, an array that holds none of them earns 0. *)
Theorem calculateScore_multi_extremes
  (q : Question) (elems : list Js.value) :
  type q = Js.defined QuestionType.MULTI_CHOICE ->
  Js.orElse (correctOptions q) [] <> [] ->
  ((forall c, In c (Js.orElse (correctOptions q) []) ->
              In (Js.VString c) elems) ->
   exists s,
     calculateScore q (Js.VArray elems) = Js.Normal (Js.VNumber s)
     /\ Js.sameNumber s (operand (points q)))
  /\ (forall p,
        points q = Js.defined (Js.Fin p) ->
        (forall c, In c (Js.orElse (correctOptions q) []) ->
                   ~ In (Js.VString c) elems) ->
        scores q (Js.VArray elems) 0).
Proof.
  intros Ety Hcs. unfold scores.
  rewrite (calculateScore_multi q elems Ety). cbv zeta.
  set (cs := Js.orElse (correctOptions q) []) in *.
  set (correctSet := Js.newSet String.eqb cs).
  set (f := fun x => Js.has _ _ (Js.VString x)).
  pose proof (JsFacts.newSet_nonempty String.eqb cs Hcs) as Hn.
  fold correctSet in Hn.
  destruct (Nat.eqb_spec (Js.size correctSet) 0) as [E | _]; [contradiction |].
  assert (Hin : forall c, In c correctSet <-> In c cs)
    by (intros c; apply (JsFacts.newSet_In _ string_same_eq)).
  split.
  - intros Hall.
    assert (E : length (List.filter f correctSet) = Js.size correctSet).
    { unfold Js.size. apply filter_all. intros c Hc.
      apply selected_iff, Hall, Hin, Hc. }
    rewrite E. eexists. split; [reflexivity |].
    now apply whole_share.
  - intros p Ep Hnone.
    assert (E : length (List.filter f correctSet) = 0).
    { apply filter_none. intros c Hc. apply not_true_is_false. intros Hsel.
      apply selected_iff in Hsel. exact (Hnone c (proj1 (Hin c) Hc) Hsel). }
    rewrite E, Ep. change (operand (Js.defined (Js.Fin p))) with (Js.Fin p).
    eexists. split; [reflexivity |].
    now apply empty_share.
Qed.

(** ** How many messages the validator returns *)

Lemma length_flag (c : bool) (msg : string) : length (flag c msg) <= 1.
Proof. destruct c; simpl; lia. Qed.

Lemma commonErrors_length (q : Question) :
  length (commonErrors q) <= 3
  /\ (typeFails q = false -> length (commonErrors q) <= 2).
Proof.
  unfold commonErrors. rewrite !length_app.
  pose proof (length_flag (textFails q) "Question text is required").
  pose proof (length_flag (typeFails q) "Invalid question type").
  pose proof (length_flag (pointsFails q) "Points must be greater than 0").
  split; [lia |]. intros E. rewrite E in *. simpl. lia.
Qed.

Lemma numberErrors_length (q : Question) : length (numberErrors q) <= 2.
Proof.
  unfold numberErrors.
  destruct (min q) as [| |lo], (max q) as [| |hi]; simpl;
    try lia;
    match goal with |- context [flag ?c _] => destruct c end; simpl; lia.
Qed.

Lemma variantErrors_length (q : Question) :
  length (variantErrors q) <= 2
  /\ (typeFails q = true -> variantErrors q = []).
Proof.
  unfold variantErrors, typeFails.
  destruct (type q) as [| |t]; [simpl; split; [lia | reflexivity] ..|].
  destruct (String.eqb_spec t QuestionType.SINGLE_CHOICE) as [-> | _].
  { split; [| discriminate]. unfold singleChoiceErrors. rewrite length_app.
    pose proof (length_flag (Js.notString (correctOption q))
                  "correctOption is required for single_choice type").
    match goal with
    | |- context [flag ?c "correctOption must be in options list"] =>
        pose proof (length_flag c "correctOption must be in options list")
    end. lia. }
  destruct (String.eqb_spec t QuestionType.MULTI_CHOICE) as [-> | _].
  { split; [| discriminate]. unfold multiChoiceErrors. rewrite length_app.
    match goal with
    | |- context [flag ?c "correctOptions is required for multi_choice type"] =>
        pose proof (length_flag c
                      "correctOptions is required for multi_choice type")
    end.
    match goal with
    | |- context [flag ?c "All correctOptions must be in options list"] =>
        pose proof (length_flag c "All correctOptions must be in options list")
    end. lia. }
  destruct (String.eqb_spec t QuestionType.NUMBER) as [-> | _].
  { split; [apply numberErrors_length | discriminate]. }
  destruct (String.eqb_spec t QuestionType.TEXT) as [-> | _].
  { split; [| discriminate]. unfold keywordsErrors.
    match goal with
    | |- context [flag ?c "keywords are required for text type"] =>
        pose proof (length_flag c "keywords are required for text type")
    end. lia. }
  split; [simpl; lia | reflexivity].
Qed.

(** X20: [validateQuestion] never returns the same message twice and
    never more than four messages, and four are possible: the message
    for the type and a message of the [switch] exclude each other. *)
Theorem validateQuestion_at_most_four :
  (forall q, NoDup (validateQuestion q) /\ length (validateQuestion q) <= 4)
  /\ exists q, length (validateQuestion q) = 4.
Proof.
  split.
  - intros q. split.
    + assert (Hsub : sublist (validateQuestion q) ruleOrder).
      { rewrite validateQuestion_split, <- (take_drop 3 ruleOrder).
        apply sublist_app;
          [apply commonErrors_sublist | apply variantErrors_sublist]. }
      refine (sublist_NoDup _ _ _ Hsub).
      apply NoDup_ListNoDup. unfold ruleOrder.
      repeat (constructor; [simpl; intuition discriminate |]). constructor.
    + rewrite validateQuestion_split, length_app.
      destruct (commonErrors_length q) as [Hc Hc'].
      destruct (variantErrors_length q) as [Hv Hv'].
      destruct (typeFails q).
      * rewrite (Hv' eq_refl). simpl. lia.
      * specialize (Hc' eq_refl). lia.
  - exists {| text := Js.undefined;
              type := Js.defined QuestionType.NUMBER;
              points := Js.undefined;
              options := Js.undefined;
              correctOption := Js.undefined;
              correctOptions := Js.undefined;
              min := Js.null;
              max := Js.defined (Js.Fin (-1));
              keywords := Js.undefined |}.
    reflexivity.
Qed.

(** ** The routes and the scoring engine at concrete requests *)

Lemma createJob_details_witness :
  exists details,
    body (fst (handle (PostJob Session.brokenJobDto 1000)
                 (start Session.source)))
    = ValidationBody "Validation failed" details
    /\ details
       = [ "Question 2: correctOption is required for single_choice type";
           "Question 4: min is required for number type";
           "Question 4: max is required for number type" ]
    /\ length details
       = list_sum (map (fun q => length (validateQuestion q))
                     (CreateJobDto.questions Session.brokenJobDto)).
Proof.
  eexists.
  match goal with
  | |- ?A /\ _ => assert (H : A) by (lazy; reflexivity)
  end.
  split; [exact H |]. split; [reflexivity |].
  exact (proj2 (createJob_details Session.brokenJobDto 1000
                  (start Session.source) _ H)).
Defined.

Lemma createJob_job_witness :
  exists job,
    fst (handle (PostJob Session.jobDto 1000) (start Session.source))
    = json 201 (JobBody job)
    /\ Job.id job = "id-0"
    /\ map StoredQuestion.id (Job.questions job)
       = ["id-1"; "id-2"; "id-3"; "id-4"]
    /\ map StoredQuestion.fields (Job.questions job)
       = CreateJobDto.questions Session.jobDto.
Proof.
  eexists.
  match goal with
  | |- ?A /\ _ => assert (H : A) by (lazy; reflexivity)
  end.
  split; [exact H |].
  destruct (createJob_job Session.jobDto 1000 (start Session.source) _ H)
    as (Hq & Hid & Hids & _).
  split; [exact Hid |]. split; [exact Hids | exact Hq].
Defined.

Lemma createJob_getJob_witness :
  exists job,
    fst (handle (PostJob Session.jobDto 1000) (start Session.source))
    = json 201 (JobBody job)
    /\ fst (handle (GetJob "id-0") Session.afterJob) = json 200 (JobBody job).
Proof.
  eexists.
  match goal with
  | |- ?A /\ _ => assert (H : A) by (lazy; reflexivity)
  end.
  split; [exact H |].
  exact (proj1 (createJob_getJob Session.jobDto 1000
                  (start Session.source) _ H)).
Defined.

Lemma createJob_listJobs_witness :
  exists job,
    fst (handle (PostJob Session.jobDto 1000) (start Session.source))
    = json 201 (JobBody job)
    /\ JsMore.mapGet (jobsStore (start Session.source)) "id-0" = None
    /\ fst (handle GetJobs Session.afterJob) = json 200 (JobsBody [job]).
Proof.
  eexists.
  match goal with
  | |- ?A /\ _ => assert (H : A) by (lazy; reflexivity)
  end.
  split; [exact H |]. split; [reflexivity |].
  exact (createJob_listJobs Session.jobDto 1000 (start Session.source) _ H
           eq_refl).
Defined.

Lemma submitApplication_breakdown_witness :
  exists application,
    fst (handle
           (PostApplication (Session.apply "id-0" (Some Session.goodAnswers))
              2000)
           Session.afterJob)
    = json 201 (ApplicationBody application)
    /\ exists job,
         JsMore.mapGet (jobsStore Session.afterJob) "id-0" = Some job
         /\ Some Session.goodAnswers
            = Some (Application.answers application)
         /\ Forall2 (entryFor job) (Application.answers application)
              (Application.scoreBreakdown application)
         /\ (Application.id application, Application.jobId application,
             Application.submittedAt application)
            = ("id-5", "id-0", 2000%Z).
Proof.
  eexists.
  match goal with
  | |- ?A /\ _ => assert (H : A) by (lazy; reflexivity)
  end.
  split; [exact H |].
  exact (submitApplication_breakdown
           (Session.apply "id-0" (Some Session.goodAnswers)) 2000
           Session.afterJob _ H).
Defined.

Lemma submitApplication_totals_witness :
  exists application job,
    fst (handle
           (PostApplication (Session.apply "id-0" (Some Session.goodAnswers))
              2000)
           Session.afterJob)
    = json 201 (ApplicationBody application)
    /\ JsMore.mapGet (jobsStore Session.afterJob) "id-0" = Some job
    /\ soundJob job
    /\ Js.le Js.zero (Application.totalScore application) = true
    /\ Js.le (Application.totalScore application)
         (Application.maxScore application) = true
    /\ Forall entryWithinPoints (Application.scoreBreakdown application).
Proof.
  eexists. eexists.
  match goal with
  | |- ?A /\ ?B /\ ?C /\ _ =>
      assert (H1 : A) by (lazy; reflexivity);
      assert (H2 : B) by (lazy; reflexivity);
      assert (H3 : C)
        by (repeat constructor; eexists; reflexivity)
  end.
  split; [exact H1 |]. split; [exact H2 |]. split; [exact H3 |].
  exact (submitApplication_totals
           (Session.apply "id-0" (Some Session.goodAnswers)) 2000
           Session.afterJob _ _ H1 H2 H3).
Defined.

Lemma submitApplication_maxScore_witness :
  exists application job,
    fst (handle
           (PostApplication
              (Session.apply "id-0" (Some Session.repeatedAnswers)) 2000)
           Session.afterJob)
    = json 201 (ApplicationBody application)
    /\ JsMore.mapGet (jobsStore Session.afterJob) "id-0" = Some job
    /\ Application.maxScore application
       = round2
           (fold_left JsMore.add
              (map (pointsFor job) (Application.answers application))
              Js.zero)
    /\ length (Application.answers application) = 5
    /\ Js.sameNumber (Application.maxScore application) (Js.Fin 50).
Proof.
  eexists. eexists.
  match goal with
  | |- ?A /\ ?B /\ _ =>
      assert (H1 : A) by (lazy; reflexivity);
      assert (H2 : B) by (lazy; reflexivity)
  end.
  split; [exact H1 |]. split; [exact H2 |]. split.
  - exact (proj1 (submitApplication_maxScore
                    (Session.apply "id-0" (Some Session.repeatedAnswers))
                    2000 Session.afterJob _ _ H1 H2)).
  - split; reflexivity.
Defined.

Lemma listApplications_sorted_witness :
  JsMore.mapHas (jobsStore Session.afterApplications) "id-0" = true
  /\ exists listed,
       handle (GetJobApplications "id-0" None) Session.afterApplications
       = (json 200 (ApplicationsBody listed), Session.afterApplications)
       /\ Permutation listed
            (applicationsOf Session.afterApplications "id-0")
       /\ map Application.id listed = ["id-6"; "id-5"]
       /\ listedBy scoreKey
            (applicationsOf Session.afterApplications "id-0") listed.
Proof.
  assert (H : JsMore.mapHas (jobsStore Session.afterApplications) "id-0"
              = true) by reflexivity.
  split; [exact H |].
  destruct (listApplications_sorted "id-0" None Session.afterApplications H)
    as (listed & Erun & Hperm & Hscore & _).
  exists listed. split; [exact Erun |]. split; [exact Hperm |]. split.
  - assert (E : fst (handle (GetJobApplications "id-0" None)
                       Session.afterApplications)
                = json 200 (ApplicationsBody listed))
      by now rewrite Erun.
    lazy in E. injection E as <-. reflexivity.
  - apply Hscore; [now left |].
    lazy. repeat constructor; eexists; reflexivity.
Defined.

Lemma submitApplication_getApplication_witness :
  exists application,
    fst (handle
           (PostApplication (Session.apply "id-0" (Some Session.goodAnswers))
              2000)
           Session.afterJob)
    = json 201 (ApplicationBody application)
    /\ fst (handle (GetApplication (Application.id application))
              (snd (handle
                      (PostApplication
                         (Session.apply "id-0" (Some Session.goodAnswers))
                         2000)
                      Session.afterJob)))
       = json 200 (ApplicationBody application).
Proof.
  eexists.
  match goal with
  | |- ?A /\ _ => assert (H : A) by (lazy; reflexivity)
  end.
  split; [exact H |].
  exact (proj1 (submitApplication_getApplication
                  (Session.apply "id-0" (Some Session.goodAnswers)) 2000
                  Session.afterJob _ H)).
Defined.

Lemma calculateScore_text_case_witness :
  type Scenarios.skills = Js.defined QuestionType.TEXT
  /\ calculateScore Scenarios.skills
       (Js.VString (Js.toLowerCase "I love TypeScript"))
     = calculateScore Scenarios.skills (Js.VString "I love TypeScript").
Proof.
  split; [reflexivity |].
  exact (calculateScore_text_case Scenarios.skills "I love TypeScript"
           eq_refl).
Defined.

Lemma calculateScore_text_extend_witness :
  type Scenarios.skills = Js.defined QuestionType.TEXT
  /\ points Scenarios.skills = Js.defined (Js.Fin 10)
  /\ (0 <= 10)%Q
  /\ exists r r',
       calculateScore Scenarios.skills (Js.VString "node")
       = Js.Normal (Js.VNumber (Js.Fin r))
       /\ calculateScore Scenarios.skills
            (Js.VString ("I know " ++ "node" ++ " and TypeScript"))
          = Js.Normal (Js.VNumber (Js.Fin r'))
       /\ (r <= r')%Q.
Proof.
  assert (Hp : (0 <= 10)%Q) by (unfold Qle; simpl; lia).
  split; [reflexivity |]. split; [reflexivity |]. split; [exact Hp |].
  exact (calculateScore_text_extend Scenarios.skills 10
           "I know " "node" " and TypeScript" eq_refl eq_refl Hp).
Defined.

Lemma calculateScore_multi_selection_witness :
  type Scenarios.multi = Js.defined QuestionType.MULTI_CHOICE
  /\ (forall c,
        In c (Js.orElse (correctOptions Scenarios.multi) []) ->
        (In (Js.VString c) [Js.VString "2"; Js.VString "3"]
         <-> In (Js.VString c)
               [Js.VString "3"; Scenarios.num 7; Js.VString "2";
                Js.VString "2"]))
  /\ calculateScore Scenarios.multi
       (Js.VArray [Js.VString "2"; Js.VString "3"])
     = calculateScore Scenarios.multi
         (Js.VArray
            [Js.VString "3"; Scenarios.num 7; Js.VString "2";
             Js.VString "2"]).
Proof.
  assert (H : forall c,
            In c (Js.orElse (correctOptions Scenarios.multi) []) ->
            (In (Js.VString c) [Js.VString "2"; Js.VString "3"]
             <-> In (Js.VString c)
                   [Js.VString "3"; Scenarios.num 7; Js.VString "2";
                    Js.VString "2"])).
  { intros c Hc. simpl. unfold Scenarios.num.
    split; intros H; intuition (try discriminate; auto). }
  split; [reflexivity |]. split; [exact H |].
  exact (calculateScore_multi_selection Scenarios.multi _ _ eq_refl H).
Defined.

Lemma calculateScore_multi_extremes_witness :
  type Scenarios.multi = Js.defined QuestionType.MULTI_CHOICE
  /\ Js.orElse (correctOptions Scenarios.multi) [] <> []
  /\ (exists s,
        calculateScore Scenarios.multi
          (Js.VArray
             [Js.VString "4"; Js.VString "1"; Js.VString "2";
              Js.VString "3"])
        = Js.Normal (Js.VNumber s)
        /\ Js.sameNumber s (operand (points Scenarios.multi)))
  /\ scores Scenarios.multi
       (Js.VArray [Js.VString "1"; Js.VString "3"]) 0.
Proof.
  assert (Hn : Js.orElse (correctOptions Scenarios.multi) [] <> [])
    by discriminate.
  split; [reflexivity |]. split; [exact Hn |]. split.
  - apply (proj1 (calculateScore_multi_extremes Scenarios.multi _
                    eq_refl Hn)).
    intros c [<- | [<- | []]]; simpl; auto.
  - apply (proj2 (calculateScore_multi_extremes Scenarios.multi _
                    eq_refl Hn) 10%Q eq_refl).
    intros c [<- | [<- | []]]; simpl; intuition discriminate.
Defined.
